(** * Agentic research framework: the pipeline orchestrator, the plan task
      extractor, the citation aggregator and the report assembler

    A shallow embedding of
    - [orchestrator/research_orchestrator.py] (class [ResearchOrchestrator]),
    - [agents/planner_agent.py] ([extract_research_tasks_from_plan]),
    - [agents/critique_agent.py] ([critique_document]),
    - [agents/synthesiser_agent.py] ([_format_critiques_for_prompt],
      [synthesise_research]),
    - [agents/writer_agent.py] ([format_report_as_markdown],
      [_clean_json_format]),
    - [utils/text_utils.py] ([extract_clarification_insights]),
    - [agents/research_agent.py] ([_convert_annotations_to_citations]),
    - [tools/web_tools.py] ([_format_citations_for_report]),
    - [utils/file_utils.py] ([create_safe_filename]),
    - [config/config_manager.py] ([setup_kernel_services]).

    Python [str] values are lists of characters; a character is a code point
    below 256, and the character classes ([isspace], [isdigit], [lower]) are
    Python's restricted to that range.  The language model, the console and
    the file system are a [world] of oracles; every call to one of them is
    recorded in a trace. *)

From Stdlib Require Import Ascii String List Arith Lia Bool.
From Stdlib Require Import Permutation Sorted.
From Stdlib Require Import Numbers.DecimalString.
Import ListNotations.

Set Implicit Arguments.

(** ** Python strings *)

Module Py.

Definition str : Type := list ascii.

(** A string literal of the source. *)
Definition py (s : string) : str := list_ascii_of_string s.

Definition NL : str := ["010"%char].
Definition DQUOTE : ascii := "034"%char.
Definition SQUOTE : ascii := "039"%char.

Definition code (c : ascii) : nat := nat_of_ascii c.

Definition str_eqb (a b : str) : bool :=
  if list_eq_dec ascii_dec a b then true else false.

(** [str.isspace] on one character: tab to carriage return, the four
    separators 28..31, the space, NEL (133) and the no-break space (160).
    The [re] module's [\s] is the same class. *)
Definition isspace (c : ascii) : bool :=
  let n := code c in
  ((9 <=? n) && (n <=? 13)) || ((28 <=? n) && (n <=? 32))
  || (n =? 133) || (n =? 160).

(** The [re] module's [\d]: the decimal digits. *)
Definition is_decimal (c : ascii) : bool :=
  let n := code c in (48 <=? n) && (n <=? 57).

(** [str.isdigit] on one character: the decimal digits and the superscripts
    two, three (178, 179) and one (185). *)
Definition isdigit (c : ascii) : bool :=
  let n := code c in
  is_decimal c || (n =? 178) || (n =? 179) || (n =? 185).

(** [str.lower] on one character: A-Z and the upper-case letters of
    192..222 (the multiplication sign 215 apart) move up by 32. *)
Definition lower_char (c : ascii) : ascii :=
  let n := code c in
  if ((65 <=? n) && (n <=? 90))
     || ((192 <=? n) && (n <=? 222) && negb (n =? 215))
  then ascii_of_nat (n + 32) else c.

Definition lower (s : str) : str := map lower_char s.

(** [s.startswith(p)] *)
Fixpoint startswith (s p : str) {struct p} : bool :=
  match p, s with
  | [], _ => true
  | _ :: _, [] => false
  | a :: p', b :: s' => Ascii.eqb a b && startswith s' p'
  end.

(** [s.endswith(p)] *)
Definition endswith (s p : str) : bool := startswith (rev s) (rev p).

(** [s.find(sub)], with [None] for -1. *)
Fixpoint find (s sub : str) : option nat :=
  match s with
  | [] => if startswith [] sub then Some 0 else None
  | _ :: t => if startswith s sub then Some 0 else option_map S (find t sub)
  end.

(** [sub in s] *)
Definition is_in (sub s : str) : bool :=
  match find s sub with Some _ => true | None => false end.

(** [s.split(sep)] for a non-empty [sep]: cut at the leftmost occurrence and
    go on after it.  Every cut removes at least one character, so
    [S (length s)] rounds are enough ([split_eq] below). *)
Fixpoint split_fuel (fuel : nat) (s sep : str) : list str :=
  match fuel with
  | 0 => [s]
  | S fuel' =>
      match find s sep with
      | None => [s]
      | Some i => firstn i s :: split_fuel fuel' (skipn (i + length sep) s) sep
      end
  end.

Definition split (s sep : str) : list str := split_fuel (S (length s)) s sep.

(** [sep.join(l)] *)
Fixpoint join (sep : str) (l : list str) : str :=
  match l with
  | [] => []
  | [x] => x
  | x :: rest => x ++ sep ++ join sep rest
  end.

(** [s.replace(old, new)] for a non-empty [old]: all occurrences, leftmost
    first, without overlap; that is, [new.join(s.split(old))]. *)
Definition replace (s old new : str) : str := join new (split s old).

Fixpoint dropwhile (f : ascii -> bool) (s : str) : str :=
  match s with
  | [] => []
  | c :: t => if f c then dropwhile f t else s
  end.

Definition lstrip (s : str) : str := dropwhile isspace s.
Definition rstrip (s : str) : str := rev (dropwhile isspace (rev s)).
(** [s.strip()] *)
Definition strip (s : str) : str := rstrip (lstrip s).

Definition char_in (chars : str) (c : ascii) : bool :=
  existsb (Ascii.eqb c) chars.

(** [s.lstrip(chars)] and [s.rstrip(chars)] *)
Definition lstrip_chars (s chars : str) : str := dropwhile (char_in chars) s.
Definition rstrip_chars (s chars : str) : str :=
  rev (dropwhile (char_in chars) (rev s)).

(** [s.split()]: the maximal runs of non-space characters. *)
Fixpoint split_ws_go (s cur : str) : list str :=
  match s with
  | [] => match cur with [] => [] | _ => [rev cur] end
  | c :: t =>
      if isspace c
      then match cur with
           | [] => split_ws_go t []
           | _ => rev cur :: split_ws_go t []
           end
      else split_ws_go t (c :: cur)
  end.

Definition split_ws (s : str) : list str := split_ws_go s [].

(** [str(n)] for a natural number. *)
Definition str_of_nat (n : nat) : str :=
  py (NilEmpty.string_of_uint (Nat.to_uint n)).

(** Lexicographic order on code points: Python's [<=] on [str]. *)
Fixpoint str_leb (a b : str) : bool :=
  match a, b with
  | [], _ => true
  | _ :: _, [] => false
  | x :: a', y :: b' =>
      if code x <? code y then true
      else if code y <? code x then false
      else str_leb a' b'
  end.

End Py.
Import Py.

Definition is_empty (s : str) : bool :=
  match s with [] => true | _ :: _ => false end.

(** [l[i]] where the source has made sure that [i] is in range. *)
Definition item (i : nat) (l : list str) : str := nth i l [].

Definition get_or (default : str) (o : option str) : str :=
  match o with Some v => v | None => default end.

(** ** The citation aggregator
    ([_handle_synthesis_phase], research_orchestrator.py lines 319-372) *)

(** A citation is a dict that may hold a ["title"] and a ["url"]. *)
Record citation : Type := { title : option str; url : option str }.

Definition tracking_param (p : str) : bool :=
  startswith p (py "utm_") || startswith p (py "amp;utm_").

(** The test of the [elif] at line 328. *)
Definition has_tracked_query (url : str) : bool :=
  is_in (py "?") url && (is_in (py "&utm_") url || is_in (py "&amp;utm_") url).

(** Lines 325-336: the value of [clean_url] for a citation's [url]. *)
Definition clean_url (url : str) : str :=
  if is_in (py "?utm_source=") url then
    item 0 (split url (py "?utm_source="))
  else if has_tracked_query url then
    let base_url := item 0 (split url (py "?")) in
    let params := split (item 1 (split url (py "?"))) (py "&") in
    let non_tracking_params := filter (fun p => negb (tracking_param p)) params in
    match non_tracking_params with
    | [] => base_url
    | _ :: _ => base_url ++ py "?" ++ join (py "&") non_tracking_params
    end
  else url.

Definition generic_titles : list str :=
  [py "source"; py "untitled source"; py "untitled"].

(** Lines 339-350: the title stored for a citation whose cleaned URL is
    [clean]. *)
Definition stored_title (title clean : str) : str :=
  if is_empty title || existsb (str_eqb (lower title)) generic_titles then
    if is_in (py "://") clean then
      let domain := item 0 (split (item 1 (split clean (py "://"))) (py "/")) in
      let path :=
        item 0 (split (join (py "/") (skipn 3 (split clean (py "/")))) (py "?")) in
      if negb (is_empty path)
      then py "Article from " ++ domain ++ py ": " ++ path
      else py "Source: " ++ domain
    else title
  else title.

(** [unique_citations]: a dict from cleaned URL to citation, in insertion
    order. *)
Definition has_key (k : str) (d : list (str * citation)) : bool :=
  existsb (fun kv => str_eqb k (fst kv)) d.

(** The loop of lines 321-355, from a given [unique_citations]. *)
Fixpoint dedupe (all_citations : list citation)
    (unique_citations : list (str * citation)) : list (str * citation) :=
  match all_citations with
  | [] => unique_citations
  | c :: rest =>
      let clean := clean_url (get_or [] (url c)) in
      if negb (is_empty clean) && negb (has_key clean unique_citations) then
        let t := get_or (py "Untitled Source") (title c) in
        dedupe rest
          (unique_citations
             ++ [(clean, {| title := Some (stored_title t clean);
                            url := Some clean |})])
      else dedupe rest unique_citations
  end.

Definition sort_key (c : citation) : str := lower (get_or [] (title c)).

(** [sorted(..., key=...)]: a stable sort, here by insertion. *)
Fixpoint insert_sorted (x : citation) (l : list citation) : list citation :=
  match l with
  | [] => [x]
  | y :: l' =>
      if str_leb (sort_key x) (sort_key y) then x :: l
      else y :: insert_sorted x l'
  end.

Definition sorted (l : list citation) : list citation :=
  fold_right insert_sorted [] l.

(** Lines 320-361: the merged, deduplicated and sorted citations. *)
Definition merge_citations (all_citations : list citation) : list citation :=
  sorted (map snd (dedupe all_citations [])).

(** Lines 366-369: the numbered list, [i] counting from 0. *)
Fixpoint render_citations (i : nat) (l : list citation) : str :=
  match l with
  | [] => []
  | c :: rest =>
      str_of_nat (i + 1) ++ py ". [" ++ get_or (py "Untitled Source") (title c)
        ++ py "](" ++ get_or (py "No URL provided") (url c) ++ py ")" ++ NL
        ++ render_citations (S i) rest
  end.

Definition SOURCES_HEADING : str := py "## Sources and Citations".
Definition NO_CITATIONS_NOTICE : str :=
  py "*No citations were found for this report.*" ++ NL.

(** Lines 315-372, given the synthesised text and the collected citations. *)
Definition attach_citations (synthesized_report : str)
    (all_citations : list citation) : str :=
  if negb (startswith synthesized_report (py "Error:"))
     && negb (match all_citations with [] => true | _ => false end)
  then
    let report := synthesized_report ++ NL ++ NL ++ SOURCES_HEADING ++ NL ++ NL in
    match merge_citations all_citations with
    | [] => report ++ NO_CITATIONS_NOTICE
    | sorted_citations => report ++ render_citations 0 sorted_citations
    end
  else synthesized_report.

(** ** The plan task extractor
    ([PlannerAgent.extract_research_tasks_from_plan], planner_agent.py) *)

(** The regular expressions of the source are matched by hand.  Each matcher
    below is anchored: it matches its pattern at the start of its argument.
    The repetitions are followed by a character outside their class, so the
    greedy choice is the only one that can succeed and no backtracking is
    lost.  [re_search] tries the start positions from left to right, as
    [re.search] does. *)
Fixpoint re_search (A : Type) (anchored : str -> option A) (s : str) : option A :=
  match anchored s with
  | Some r => Some r
  | None => match s with [] => None | _ :: t => re_search anchored t end
  end.

(** Equality of characters under [re.IGNORECASE]. *)
Definition ci_eqb (a b : ascii) : bool := Ascii.eqb (lower_char a) (lower_char b).

(** Consume the literal [lit], ignoring case; the rest of [s]. *)
Fixpoint eat_ci (lit s : str) : option str :=
  match lit, s with
  | [], _ => Some s
  | _ :: _, [] => None
  | a :: lit', b :: s' => if ci_eqb a b then eat_ci lit' s' else None
  end.

(** Consume the literal [lit] as it is written. *)
Definition eat (lit s : str) : option str :=
  if startswith s lit then Some (skipn (length lit) s) else None.

Definition is_quote (c : ascii) : bool := Ascii.eqb c SQUOTE || Ascii.eqb c DQUOTE.
Definition is_newline (c : ascii) : bool := Ascii.eqb c "010"%char.

Definition RESEARCH_TAG : str := py "[ResearchAgent]".

(** [\s*\d*\.\s*\[ResearchAgent\]\s*] under IGNORECASE; the rest. *)
Definition tag_prefix (s : str) : option str :=
  match dropwhile is_decimal (lstrip s) with
  | c :: s1 =>
      if Ascii.eqb c "."%char
      then option_map lstrip (eat_ci RESEARCH_TAG (lstrip s1))
      else None
  | [] => None
  end.

(** The lazy group and its closing quote, [(.*?)] then a single or a double
    quote, without DOTALL: the text before the next quote character. *)
Fixpoint quoted (s : str) : option str :=
  match s with
  | [] => None
  | c :: t =>
      if is_quote c then Some []
      else if is_newline c then None
      else option_map (cons c) (quoted t)
  end.

(** [Search for:], [\s*], an opening quote (single or double), the lazy
    group [query] and a closing quote, under IGNORECASE; the group. *)
Definition search_for (s : str) : option str :=
  match eat_ci (py "Search for:") s with
  | Some s1 =>
      match lstrip s1 with
      | q :: s2 => if is_quote q then quoted s2 else None
      | [] => None
      end
  | None => None
  end.

(** [specific_search_pattern], line 82; the group [query]. *)
Definition specific_search_pattern (s : str) : option str :=
  match tag_prefix s with
  | Some rest => search_for rest
  | None => None
  end.

Fixpoint takewhile (f : ascii -> bool) (s : str) : str :=
  match s with
  | [] => []
  | c :: t => if f c then c :: takewhile f t else []
  end.

(** [general_task_pattern], line 85; the group [task]: [.*] stops at a
    newline. *)
Definition general_task_pattern (s : str) : option str :=
  option_map (takewhile (fun c => negb (is_newline c))) (tag_prefix s).

(** Lines 78-105: the description of a stripped line that holds the tag. *)
Definition task_description (line : str) : str :=
  match re_search specific_search_pattern line with
  | Some query => strip query
  | None =>
      match re_search general_task_pattern line with
      | Some task =>
          let task_desc := strip task in
          match search_for task_desc with
          | Some query => strip query
          | None => task_desc
          end
      | None => line
      end
  end.

(** Lines 75-108: what one line of the plan adds to [research_tasks]. *)
Definition tasks_of_line (raw_line : str) : list str :=
  let line := strip raw_line in
  if is_in RESEARCH_TAG line then
    let d := task_description line in
    if is_empty d then [] else [d]
  else [].

Definition extract_research_tasks_from_plan (plan_text : str) : list str :=
  if is_empty plan_text || startswith plan_text (py "Error:") then []
  else flat_map tasks_of_line (split (strip plan_text) NL).

(** ** Guidance hints ([extract_clarification_insights], text_utils.py) *)

Definition INSIGHTS_HEADER : str :=
  py "Additional research guidance based on potential clarifications:" ++ NL.

Definition filler_words : list str :=
  map py ["what"; "when"; "where"; "which"; "would"; "could"; "should";
          "about"; "interested"; "specific"; "there"; "these"; "those"]%string.

(** Lines 13-17: the bulleted or numbered lines, their markers removed. *)
Definition listed_questions (questions_text : str) : list str :=
  flat_map
    (fun raw =>
       let line := strip raw in
       match line with
       | c :: _ =>
           if isdigit c || Ascii.eqb c "-"%char || Ascii.eqb c "*"%char
           then [lstrip_chars line (py "0123456789.-* ")]
           else []
       | [] => []
       end)
    (split questions_text NL).

(** Lines 19-21 *)
Definition sentence_questions (questions_text : str) : list str :=
  map (fun q => strip q ++ py "?")
      (filter (fun q => negb (is_empty (strip q))) (split questions_text (py "?"))).

(** Lines 27-29: the terms kept from one question. *)
Definition key_terms (q : str) : list str :=
  map strip
      (filter (fun term => (3 <? length term)
                           && negb (existsb (str_eqb (lower term)) filler_words))
              (split_ws (rstrip_chars q (py "?")))).

Definition insight_line (q : str) : str :=
  match key_terms q with
  | [] => []
  | terms => py "- Consider exploring: " ++ join (py ", ") terms ++ NL
  end.

Definition extract_clarification_insights (clarification_questions : str) : str :=
  if is_empty clarification_questions || is_empty (strip clarification_questions)
  then []
  else
    let questions_text := strip (replace clarification_questions (py "QUESTIONS:") []) in
    let questions :=
      match listed_questions questions_text with
      | [] => sentence_questions questions_text
      | qs => qs
      end in
    INSIGHTS_HEADER ++ concat (map insight_line questions).

(** ** Citations from annotations
    ([ResearchAgent._convert_annotations_to_citations], research_agent.py
    lines 227-252, and [WebSearchPlugin._format_citations_for_report],
    web_tools.py lines 164-189)

    An annotation is a dict of which the two functions read the ["url"] and
    the ["title"] only, each with a default: a [citation]. *)

(** [url.split("?utm_source=")[0] if "?utm_source=" in url else url] *)
Definition strip_utm_source (url : str) : str :=
  if is_in (py "?utm_source=") url then item 0 (split url (py "?utm_source="))
  else url.

(** The loop of research_agent.py lines 240-250; [unique_urls] is a set, of
    which only membership is used. *)
Fixpoint convert_annotations (annotations citations : list citation)
    (unique_urls : list str) : list citation :=
  match annotations with
  | [] => citations
  | annotation :: rest =>
      let clean := strip_utm_source (get_or [] (url annotation)) in
      if negb (is_empty clean) && negb (existsb (str_eqb clean) unique_urls) then
        convert_annotations rest
          (citations ++ [{| title := Some (get_or (py "Source") (title annotation));
                            url := Some clean |}])
          (clean :: unique_urls)
      else convert_annotations rest citations unique_urls
  end.

Definition _convert_annotations_to_citations (annotations : list citation)
    : list citation :=
  convert_annotations annotations [] [].

(** The loop of web_tools.py lines 177-186; [unique_citations] is a dict, in
    insertion order. *)
Fixpoint format_citations (annotations : list citation)
    (unique_citations : list (str * citation)) : list (str * citation) :=
  match annotations with
  | [] => unique_citations
  | annotation :: rest =>
      let clean := strip_utm_source (get_or [] (url annotation)) in
      if negb (is_empty clean) && negb (has_key clean unique_citations) then
        format_citations rest
          (unique_citations
             ++ [(clean, {| title := Some (get_or (py "Untitled Source") (title annotation));
                            url := Some clean |})])
      else format_citations rest unique_citations
  end.

(** [list(unique_citations.values())] *)
Definition _format_citations_for_report (annotations : list citation)
    : list citation :=
  map snd (format_citations annotations []).

(** ** File names ([create_safe_filename], file_utils.py lines 5-15) *)

(** [str.isalnum] on one character: the digits and letters of ASCII, and of
    the upper half the ordinal indicators (170, 186), the superscripts and
    fractions (178, 179, 185, 188..190), the micro sign (181) and the letters
    192..255 without the two operators 215 and 247. *)
Definition isalnum (c : ascii) : bool :=
  let n := code c in
  ((48 <=? n) && (n <=? 57)) || ((65 <=? n) && (n <=? 90))
  || ((97 <=? n) && (n <=? 122))
  || (n =? 170) || (n =? 178) || (n =? 179) || (n =? 181) || (n =? 185)
  || (n =? 186) || ((188 <=? n) && (n <=? 190))
  || ((192 <=? n) && negb (n =? 215) && negb (n =? 247)).

Definition UNDERSCORE : ascii := "_"%char.

(** The [re] module's [\w]: the alphanumeric characters and the underscore. *)
Definition is_word (c : ascii) : bool := isalnum c || Ascii.eqb c UNDERSCORE.

(** The class [[\s-]]. *)
Definition is_separator (c : ascii) : bool := isspace c || Ascii.eqb c "-"%char.

(** [re.sub(r'[^\w\s-]', '_', s)]: every character outside the three classes
    becomes an underscore. *)
Definition replace_problematic (s : str) : str :=
  map (fun c => if is_word c || is_separator c then c else UNDERSCORE) s.

(** [re.sub(r'[\s-]+', '_', s)]: every maximal run of separators becomes one
    underscore, written here when the run ends. *)
Fixpoint collapse_separators (s : str) : str :=
  match s with
  | [] => []
  | c :: t =>
      if is_separator c then
        match t with
        | d :: _ => if is_separator d then collapse_separators t
                    else UNDERSCORE :: collapse_separators t
        | [] => [UNDERSCORE]
        end
      else c :: collapse_separators t
  end.

(** [s.strip(chars)] *)
Definition strip_chars (s chars : str) : str :=
  rstrip_chars (lstrip_chars s chars) chars.

Definition create_safe_filename (query : str) (max_length : nat) : str :=
  let safe_name := replace_problematic (lower query) in
  let safe_name := collapse_separators safe_name in
  let safe_name :=
    if max_length <? length safe_name then firstn max_length safe_name
    else safe_name in
  strip_chars safe_name [UNDERSCORE].

(** ** Model services ([ConfigManager.setup_kernel_services],
    config_manager.py lines 58-101) *)

(** A dict with text keys and text values, in insertion order. *)
Fixpoint dict_lookup (d : list (str * str)) (key : str) : option str :=
  match d with
  | [] => None
  | (k, v) :: rest => if str_eqb k key then Some v else dict_lookup rest key
  end.

(** [d[key] = value] *)
Fixpoint dict_set (d : list (str * str)) (key value : str) : list (str * str) :=
  match d with
  | [] => [(key, value)]
  | (k, v) :: rest =>
      if str_eqb k key then (k, value) :: rest else (k, v) :: dict_set rest key value
  end.

Definition agent_classes : list str :=
  map py ["PlannerAgent"; "ClarifierAgent"; "ResearchAgent";
          "CritiqueAgent"; "SynthesiserAgent"; "WriterAgent"]%string.

(** The f-strings of lines 68 and 87: a prefix, the model with its dots and
    hyphens replaced by underscores, and the suffix. *)
Definition service_name (prefix model_id : str) : str :=
  prefix ++ py "_" ++ replace (replace model_id (py ".") (py "_")) (py "-") (py "_")
    ++ py "_service".

(** The loop of lines 83-99.  [registered_services] maps a model to the id
    of its service; every entry it gains is a call of [kernel.add_service]
    with that id and that model. *)
Fixpoint register_agents (agents : list str) (agent_model_configs : list (str * str))
    (default_model_id : str) (registered_services agent_service_ids : list (str * str))
    : list (str * str) * list (str * str) :=
  match agents with
  | [] => (registered_services, agent_service_ids)
  | agent_name :: rest =>
      let model_id :=
        get_or default_model_id (dict_lookup agent_model_configs agent_name) in
      match dict_lookup registered_services model_id with
      | None =>
          let service_id := service_name (lower agent_name) model_id in
          register_agents rest agent_model_configs default_model_id
            (dict_set registered_services model_id service_id)
            (dict_set agent_service_ids agent_name service_id)
      | Some service_id =>
          register_agents rest agent_model_configs default_model_id
            registered_services
            (dict_set agent_service_ids agent_name service_id)
      end
  end.

(** [setup_kernel_services]: the services added to the kernel, as pairs of
    model and service id in the order of their registration, and the dict
    [agent_service_ids] that is returned; [None] for the [ValueError] raised
    when there is no API key. *)
Definition setup_kernel_services (api_key default_model_id : str)
    (agent_model_configs : list (str * str))
    : option (list (str * str) * list (str * str)) :=
  if is_empty api_key then None
  else
    let default_service_id := service_name (py "default") default_model_id in
    Some (register_agents agent_classes agent_model_configs default_model_id
            (dict_set [] default_model_id default_service_id) []).

(** ** The outside world and the pipeline's state *)

(** What the pipeline asks of its collaborators. *)
Inductive event : Type :=
| KernelInvoke (plugin_name function_name : string) (arguments : list (string * str))
| GetClarificationResponses (clarifying_questions : str)
| PerformResearchTask (research_task_for_llm : str)
    (search_query_for_web : option str) (additional_guidance : str)
| SaveReportToFile (report_content initial_query : str).

(** [ResearchAgent.perform_research_task] returns a dict with ["text"] and
    ["citations"] on each of its paths (research_agent.py lines 229-238);
    the orchestrator also accepts a bare string. *)
Inductive research_reply : Type :=
| ResearchDict (text : str) (cites : list citation)
| ResearchLegacy (content : str).

(** The collaborators.  Each answer may depend on every call made so far.
    - [kernel_invoke]: [kernel.invoke] of a prompt function; [inl] is the
      text of the result, [inr] the text of the exception it raised;
    - [get_clarification_responses]: the console;
    - [perform_research_task]: the research capability;
    - [save_report_to_file]: the two paths, or [None] for its [IOError];
    - [json_loads]: [json.loads] on a text that parses to an object whose
      fields hold text ([_clean_json_format] is declared to return [str]),
      [None] for [JSONDecodeError]. *)
Record world : Type := {
  kernel_invoke : list event -> string -> string -> list (string * str) -> str + str;
  get_clarification_responses : list event -> str -> str;
  perform_research_task : list event -> str -> option str -> str -> research_reply;
  save_report_to_file : list event -> str -> str -> option (str * str);
  json_loads : str -> option (list (str * str))
}.

(** Citation lists are Python list objects, shared by reference between the
    research outputs and the critiqued documents: a heap of lists, a
    location being an index. *)
Definition loc : Type := nat.

Record state : Type := { heap : list (list citation); trace : list event }.

Inductive exn : Type := AttributeError | IOError.

Inductive result (A : Type) : Type :=
| Ok (a : A)
| Raise (e : exn).
Arguments Ok {A} a.
Arguments Raise {A} e.

Definition M (A : Type) : Type := state -> result A * state.

Definition ret (A : Type) (a : A) : M A := fun st => (Ok a, st).

Definition bind (A B : Type) (m : M A) (k : A -> M B) : M B :=
  fun st =>
    match m st with
    | (Ok a, st') => k a st'
    | (Raise e, st') => (Raise e, st')
    end.

Definition raise (A : Type) (e : exn) : M A := fun st => (Raise e, st).
Arguments raise {A} e.

Declare Scope pipeline_scope.
Delimit Scope pipeline_scope with pipeline.
Notation "x <- m ;; k" := (bind m (fun x => k))
  (at level 61, m at next level, right associativity) : pipeline_scope.
Notation "' p <- m ;; k" := (bind m (fun x => let 'p := x in k))
  (at level 61, p pattern, m at next level, right associativity) : pipeline_scope.
Open Scope pipeline_scope.

(** [[]] or any other new list object. *)
Definition alloc (v : list citation) : M loc :=
  fun st => (Ok (length (heap st)),
             {| heap := heap st ++ [v]; trace := trace st |}).

Definition read (h : list (list citation)) (l : loc) : list citation := nth l h [].

Definition load (l : loc) : M (list citation) :=
  fun st => (Ok (read (heap st) l), st).

Fixpoint update (h : list (list citation)) (l : loc) (v : list citation)
    : list (list citation) :=
  match h, l with
  | [], _ => []
  | _ :: h', 0 => v :: h'
  | x :: h', S l' => x :: update h' l' v
  end.

(** [target.extend(source)] *)
Definition extend (target : loc) (source : list citation) : M unit :=
  fun st => (Ok tt,
             {| heap := update (heap st) target (read (heap st) target ++ source);
                trace := trace st |}).

Definition emit (e : event) : M unit :=
  fun st => (Ok tt, {| heap := heap st; trace := trace st ++ [e] |}).

Definition history : M (list event) := fun st => (Ok (trace st), st).

(** ** The agents *)

Section Agents.

Variable W : world.

(** [await self.kernel.invoke(function, arguments, ...)] *)
Definition invoke (plugin_name function_name : string)
    (arguments : list (string * str)) : M (str + str) :=
  h <- history ;;
  _ <- emit (KernelInvoke plugin_name function_name arguments) ;;
  ret (kernel_invoke W h plugin_name function_name arguments).

(** [ClarifierAgent.generate_clarifying_questions] *)
Definition generate_clarifying_questions (user_query : str) : M str :=
  r <- invoke "ClarifierAgent" "ClarifierQuestions" [("user_query"%string, user_query)] ;;
  match r with
  | inl text => ret (strip text)
  | inr _ => ret (py "Error: Could not generate clarifying questions.")
  end.

(** [ClarifierAgent.clarify_query] *)
Definition clarify_query (user_query initial_plan : str) : M str :=
  r <- invoke "ClarifierAgent" "ClarifyQuery"
         [("user_query"%string, user_query); ("initial_plan"%string, initial_plan)] ;;
  match r with
  | inl text => ret (strip text)
  | inr _ => ret (py "Error: Could not process clarification.")
  end.

(** [PlannerAgent.generate_plan] *)
Definition generate_plan (query : str) : M str :=
  r <- invoke "PlannerAgent" "Plan" [("query"%string, query)] ;;
  match r with
  | inl text => ret text
  | inr _ => ret (py "Error: Could not generate plan.")
  end.

Definition SKIP_PREFIX : str := py "Critique Skipped for Task".

(** The placeholder of critique_agent.py line 47. *)
Definition skip_placeholder (research_task_description research_document_text : str)
    : str :=
  SKIP_PREFIX ++ py ": " ++ research_task_description ++ NL
    ++ py "Reason: Document content is empty or an error message from a previous step."
    ++ NL ++ py "Document Content Provided: "
    ++ firstn 100 research_document_text ++ py "...".

(** [CritiqueAgent.critique_document] *)
Definition critique_document (research_task_description research_document_text : str)
    : M str :=
  if is_empty research_document_text
     || startswith research_document_text (py "Error:")
  then ret (skip_placeholder research_task_description research_document_text)
  else
    r <- invoke "CritiqueAgent" "CritiqueDocument"
           [("research_task_description"%string, research_task_description);
            ("research_document_text"%string, research_document_text)] ;;
    match r with
    | inl text => ret (strip text)
    | inr e =>
        ret (py "Error: Could not critique document for task: "
               ++ research_task_description ++ py ". Details: " ++ e)
    end.

(** A dict with string keys and text values, as the synthesiser receives
    them. *)
Definition dict : Type := list (string * str).

Fixpoint dict_get (d : dict) (key : string) (default : str) : str :=
  match d with
  | [] => default
  | (k, v) :: rest => if String.eqb k key then v else dict_get rest key default
  end.

Definition SKIPPED_STATUS : str := py "Critique Status: Skipped or Errored".

(** The body of the loop of [_format_critiques_for_prompt], [i] from 0. *)
Definition format_critique (i : nat) (item : dict) : str :=
  let critique_content := dict_get item "critique_text" (py "N/A") in
  py "Critiqued Document " ++ str_of_nat (i + 1) ++ py ":" ++ NL
    ++ py "Original Task: " ++ dict_get item "original_task" (py "N/A") ++ NL
    ++ (if startswith critique_content SKIP_PREFIX
        then SKIPPED_STATUS ++ NL ++ py "Details: " ++ critique_content ++ NL
        else py "Critique:" ++ NL ++ critique_content ++ NL)
    ++ py "---" ++ NL.

Fixpoint format_critiques_from (i : nat) (critiqued_documents : list dict) : str :=
  match critiqued_documents with
  | [] => []
  | item :: rest => format_critique i item ++ format_critiques_from (S i) rest
  end.

(** [SynthesiserAgent._format_critiques_for_prompt] *)
Definition _format_critiques_for_prompt (critiqued_documents : list dict) : str :=
  match critiqued_documents with
  | [] => py "No critiqued documents were provided." ++ NL
  | _ :: _ => format_critiques_from 0 critiqued_documents
  end.

(** The test of synthesiser_agent.py line 67, the list being non-empty. *)
Definition all_critiques_skipped (formatted_critiques_str : str) : bool :=
  forallb (is_in SKIPPED_STATUS) (split formatted_critiques_str (py "---")).

(** [SynthesiserAgent.synthesise_research] *)
Definition synthesise_research (overall_user_query : str)
    (critiqued_documents : list dict) : M str :=
  match critiqued_documents with
  | [] => ret (py "Error: No critiqued documents provided for synthesis.")
  | _ :: _ =>
      let formatted_critiques_str := _format_critiques_for_prompt critiqued_documents in
      if all_critiques_skipped formatted_critiques_str then
        ret (py "Error: All document critiques were skipped or resulted in errors. Cannot synthesise from: "
               ++ formatted_critiques_str)
      else
        r <- invoke "SynthesiserAgent" "SynthesiseCritiques"
               [("overall_user_query"%string, overall_user_query);
                ("formatted_critiques"%string, formatted_critiques_str)] ;;
        match r with
        | inl text => ret (strip text)
        | inr e => ret (py "Error: Could not synthesise research. Details: " ++ e)
        end
  end.

(** *** The writer *)

Fixpoint lookup (obj : list (str * str)) (key : str) : option str :=
  match obj with
  | [] => None
  | (k, v) :: rest => if str_eqb k key then Some v else lookup rest key
  end.

Fixpoint first_field (obj : list (str * str)) (keys : list str) : option str :=
  match keys with
  | [] => None
  | k :: rest =>
      match lookup obj k with
      | Some v => Some v
      | None => first_field obj rest
      end
  end.

(** Lines 121-132 of writer_agent.py: the field taken from a JSON object. *)
Definition json_content (text : str) : option str :=
  if startswith (strip text) (py "{") && endswith (strip text) (py "}") then
    match json_loads W text with
    | Some json_obj =>
        first_field json_obj
          (map py ["content"; "markdown"; "text"; "output"; "result"; "message"]%string)
    | None => None
    end
  else None.

(** The lazy group of [completion_pattern] and what closes it: a quote
    followed by a comma (DOTALL). *)
Fixpoint until_quote_comma (s : str) : option str :=
  match s with
  | c :: t =>
      match t with
      | d :: _ =>
          if is_quote c && Ascii.eqb d ","%char then Some []
          else option_map (cons c) (until_quote_comma t)
      | [] => None
      end
  | [] => None
  end.

(** [completion_pattern], line 135; its group. *)
Definition completion_pattern (s : str) : option str :=
  match eat (py "ChatCompletionMessage(content=") s with
  | Some (q :: rest) => if is_quote q then until_quote_comma rest else None
  | _ => None
  end.

Definition FENCE : str := py "```".

(** The lazy group of the pattern of line 141 and what closes it: [\s*] and
    the fence (DOTALL). *)
Fixpoint until_fence (s : str) : option str :=
  match s with
  | [] => None
  | c :: t =>
      if startswith (lstrip s) FENCE then Some []
      else option_map (cons c) (until_fence t)
  end.

(** The pattern of line 141: a fenced markdown block; its group. *)
Definition markdown_block (s : str) : option str :=
  match eat (py "```markdown") s with
  | Some rest => until_fence (lstrip rest)
  | None => None
  end.

Fixpoint first_some (A : Type) (l : list (option A)) : option A :=
  match l with
  | [] => None
  | Some a :: _ => Some a
  | None :: rest => first_some rest
  end.

(** [.*?:] without DOTALL: what follows the first colon of the line. *)
Fixpoint after_colon (s : str) : option str :=
  match s with
  | [] => None
  | c :: t =>
      if Ascii.eqb c ":"%char then Some t
      else if is_newline c then None
      else after_colon t
  end.

(** The [re.sub] of line 147: a leading response prefix is removed.  The
    alternatives exclude one another, so the first that matches is the only
    one. *)
Definition strip_response_prefix (text : str) : str :=
  match first_some
          (map (fun alt => eat_ci alt text)
               [py "Here is"; py "I've formatted"; py "The following is"; py "Here's"])
  with
  | Some rest =>
      match after_colon rest with
      | Some r => lstrip r
      | None => text
      end
  | None => text
  end.

(** [WriterAgent._clean_json_format] *)
Definition _clean_json_format (text : str) : str :=
  match json_content text with
  | Some v => v
  | None =>
      match re_search completion_pattern text with
      | Some g => g
      | None =>
          match re_search markdown_block text with
          | Some g => g
          | None => strip_response_prefix text
          end
      end
  end.

Definition reference_sections : list str :=
  [py "## References"; py "## Sources"; py "## Bibliography"; SOURCES_HEADING].

(** The loop of lines 88-93: the text is cut at the first listed heading
    that occurs in it. *)
Fixpoint drop_reference_section (sections : list str) (clean_text : str) : str :=
  match sections with
  | [] => clean_text
  | section :: rest =>
      if is_in section clean_text
      then strip (item 0 (split clean_text section))
      else drop_reference_section rest clean_text
  end.

Definition EMPTY_REPORT_NOTICE : str :=
  py "Notice: No content was provided for the synthesized report. The research process may have encountered an issue or yielded no information.".

(** Lines 50-57: the citations section and the text left for the formatter. *)
Definition split_citations (synthesized_report_text : str) : str * str :=
  if is_in SOURCES_HEADING synthesized_report_text then
    let report_parts := split synthesized_report_text SOURCES_HEADING in
    (if 1 <? length report_parts then SOURCES_HEADING ++ item 1 report_parts else [],
     strip (item 0 report_parts))
  else ([], synthesized_report_text).

(** The fallback document of lines 107-113. *)
Definition fallback_report (user_query e synthesized_report_text citations_section : str)
    : str :=
  let formatted_text :=
    py "# Report for: " ++ user_query ++ NL ++ NL
      ++ py "## Error During Report Formatting" ++ NL ++ NL
      ++ py "An error occurred while formatting the report: " ++ e ++ NL ++ NL
      ++ py "**Raw Synthesized Text (if available):**" ++ NL ++ FENCE ++ NL
      ++ synthesized_report_text ++ NL ++ FENCE in
  if negb (is_empty citations_section)
  then formatted_text ++ NL ++ NL ++ citations_section
  else formatted_text.

(** Lines 71-101: what is made of the formatter's answer. *)
Definition assemble_report (result citations_section : str) : str :=
  let result_text := strip result in
  let clean_text := _clean_json_format result_text in
  if negb (is_empty citations_section)
  then drop_reference_section reference_sections clean_text ++ NL ++ NL ++ citations_section
  else clean_text.

(** [WriterAgent.format_report_as_markdown] *)
Definition format_report_as_markdown (user_query synthesized_report_text : str) : M str :=
  let synthesized_report_text :=
    if is_empty synthesized_report_text then EMPTY_REPORT_NOTICE
    else synthesized_report_text in
  let '(citations_section, synthesized_report_text) :=
    split_citations synthesized_report_text in
  r <- invoke "WriterAgent" "FormatReportMarkdown"
         [("user_query"%string, user_query);
          ("synthesized_report_text"%string, synthesized_report_text)] ;;
  match r with
  | inl result => ret (assemble_report result citations_section)
  | inr e => ret (fallback_report user_query e synthesized_report_text citations_section)
  end.

(** ** The orchestrator ([ResearchOrchestrator])

    The calls [self.ui.display_...] and the [print]s of the source write to
    the console only and are left out. *)

(** The entries of [research_outputs] and of [critiqued_documents]: dicts
    with fixed keys, the value of ["citations"] being a reference to a list
    object. *)
Record research_output : Type :=
  { r_task : str; r_content : str; r_citations : loc }.

Record critiqued_document : Type :=
  { task : str; original : str; critique : str; citations : loc }.

(** What [_handle_planning_phase] returns: the plan, or on one branch a
    tuple of the plan and the insights. *)
Inductive plan_value : Type :=
| PlanStr (plan : str)
| PlanTuple (plan new_insights : str).

(** The dict that [execute_research_pipeline] returns; ["error"] is set on
    the error path only. *)
Record pipeline_result : Type := {
  initial_query : str;
  error : option str;
  final_report : str;
  file_paths : str * str
}.

Definition ui_get_clarification_responses (clarifying_questions : str) : M str :=
  h <- history ;;
  _ <- emit (GetClarificationResponses clarifying_questions) ;;
  ret (get_clarification_responses W h clarifying_questions).

Definition researcher_perform_research_task (research_task_for_llm : str)
    (search_query_for_web : option str) (additional_guidance : str)
    : M research_reply :=
  h <- history ;;
  _ <- emit (PerformResearchTask research_task_for_llm search_query_for_web
               additional_guidance) ;;
  ret (perform_research_task W h research_task_for_llm search_query_for_web
         additional_guidance).

Definition save_report (report_content query : str) : M (str * str) :=
  h <- history ;;
  _ <- emit (SaveReportToFile report_content query) ;;
  match save_report_to_file W h report_content query with
  | Some paths => ret paths
  | None => raise IOError
  end.

Definition _handle_clarification_phase (initial_query : str) : M (str * str) :=
  clarifying_questions <- generate_clarifying_questions initial_query ;;
  if startswith clarifying_questions (py "Error:") then ret (initial_query, [])
  else
    user_clarifications <- ui_get_clarification_responses clarifying_questions ;;
    let current_query :=
      if negb (is_empty (strip user_clarifications))
      then initial_query ++ NL ++ NL
             ++ py "Additional clarifications provided by user:" ++ NL
             ++ user_clarifications
      else initial_query in
    ret (current_query, []).

Definition _handle_planning_phase (current_query clarification_insights : str)
    : M plan_value :=
  initial_plan_str <- generate_plan current_query ;;
  if startswith initial_plan_str (py "Error:") then ret (PlanStr initial_plan_str)
  else
    clarification_output <- clarify_query current_query initial_plan_str ;;
    if is_in (py "CLARIFICATION_NOT_NEEDED") clarification_output then
      ret (PlanStr initial_plan_str)
    else if startswith clarification_output (py "QUESTIONS:") then
      let new_insights := extract_clarification_insights clarification_output in
      if negb (is_empty new_insights)
      then ret (PlanTuple initial_plan_str new_insights)
      else ret (PlanStr initial_plan_str)
    else ret (PlanStr initial_plan_str).

(** The loop of lines 205-233, [research_outputs] being the list so far. *)
Fixpoint research_loop (research_tasks : list str) (clarification_insights : str)
    (research_outputs : list research_output) : M (list research_output) :=
  match research_tasks with
  | [] => ret research_outputs
  | t :: rest =>
      reply <- researcher_perform_research_task t None clarification_insights ;;
      match reply with
      | ResearchDict result_text cs =>
          l <- alloc cs ;;
          research_loop rest clarification_insights
            (research_outputs
               ++ [{| r_task := t; r_content := result_text; r_citations := l |}])
      | ResearchLegacy content =>
          l <- alloc [] ;;
          research_loop rest clarification_insights
            (research_outputs
               ++ [{| r_task := t; r_content := content; r_citations := l |}])
      end
  end.

Definition _handle_research_phase (current_query current_plan clarification_insights : str)
    : M (list research_output) :=
  match extract_research_tasks_from_plan current_plan with
  | [] => ret []
  | research_tasks => research_loop research_tasks clarification_insights []
  end.

(** The loop of lines 249-264. *)
Fixpoint critique_loop (research_outputs : list research_output)
    (critiqued_documents : list critiqued_document) : M (list critiqued_document) :=
  match research_outputs with
  | [] => ret critiqued_documents
  | res_output :: rest =>
      let task_desc := r_task res_output in
      let doc_text := r_content res_output in
      let doc_citations := r_citations res_output in
      c <- critique_document task_desc doc_text ;;
      critique_loop rest
        (critiqued_documents
           ++ [{| task := task_desc; original := doc_text; critique := c;
                  citations := doc_citations |}])
  end.

Definition _handle_critique_phase (research_outputs : list research_output)
    : M (list critiqued_document) :=
  critique_loop research_outputs [].

(** The loop of lines 283-287. *)
Fixpoint collect_citations (critiqued_documents : list critiqued_document)
    (all_citations : loc) : M unit :=
  match critiqued_documents with
  | [] => ret tt
  | doc :: rest =>
      doc_citations <- load (citations doc) ;;
      _ <- extend all_citations doc_citations ;;
      collect_citations rest all_citations
  end.

(** Lines 294-303: the dicts handed to the synthesiser. *)
Definition doc_for_synthesis (doc : critiqued_document) : dict :=
  [("content"%string, critique doc);
   ("original_task"%string, task doc);
   ("original_content"%string, original doc)].

Definition _handle_synthesis_phase (current_query : str)
    (critiqued_documents : list critiqued_document) : M str :=
  all_citations <- alloc [] ;;
  _ <- collect_citations critiqued_documents all_citations ;;
  let docs_for_synthesis := map doc_for_synthesis critiqued_documents in
  match docs_for_synthesis with
  | [] => ret (py "Error: No critiqued documents provided for synthesis.")
  | _ :: _ =>
      synthesized_report <- synthesise_research current_query docs_for_synthesis ;;
      collected <- load all_citations ;;
      ret (attach_citations synthesized_report collected)
  end.

Definition _handle_writing_phase (initial_query synthesized_report : str) : M str :=
  format_report_as_markdown initial_query synthesized_report.

Definition BACKSLASH_N : str := ["092"%char; "n"%char].

Definition _handle_error (initial_query error_message : str) : M pipeline_result :=
  final_markdown_report <- format_report_as_markdown initial_query error_message ;;
  paths <- save_report (replace final_markdown_report BACKSLASH_N NL) initial_query ;;
  ret {| initial_query := initial_query; error := Some error_message;
         final_report := final_markdown_report; file_paths := paths |}.

Definition NO_TASKS_ERROR : str :=
  py "No research tasks were identified/executed. Cannot proceed to critique.".
Definition NO_CRITIQUES_ERROR : str :=
  py "No documents were successfully critiqued. Cannot proceed to synthesis.".

(** The body of [execute_research_pipeline]; [no_critiques_halt] stands for
    the halt of lines 88-90. *)
Definition pipeline_with (no_critiques_halt : M pipeline_result) (initial_query : str)
    : M pipeline_result :=
  '(current_query, clarification_insights) <- _handle_clarification_phase initial_query ;;
  current_plan <- _handle_planning_phase current_query clarification_insights ;;
  match current_plan with
  | PlanTuple _ _ =>
      (* a tuple has no [startswith] *)
      raise AttributeError
  | PlanStr current_plan =>
      if startswith current_plan (py "Error:")
      then _handle_error initial_query current_plan
      else
        research_outputs <-
          _handle_research_phase current_query current_plan clarification_insights ;;
        match research_outputs with
        | [] => _handle_error initial_query NO_TASKS_ERROR
        | _ :: _ =>
            critiqued_documents <- _handle_critique_phase research_outputs ;;
            match critiqued_documents with
            | [] => no_critiques_halt
            | _ :: _ =>
                synthesized_report <-
                  _handle_synthesis_phase current_query critiqued_documents ;;
                if startswith synthesized_report (py "Error:")
                then _handle_error initial_query synthesized_report
                else
                  final_report <-
                    _handle_writing_phase initial_query synthesized_report ;;
                  paths <-
                    save_report (replace final_report BACKSLASH_N NL) initial_query ;;
                  ret {| initial_query := initial_query; error := None;
                         final_report := final_report; file_paths := paths |}
            end
        end
  end.

Definition execute_research_pipeline (initial_query : str) : M pipeline_result :=
  pipeline_with (_handle_error initial_query NO_CRITIQUES_ERROR) initial_query.

End Agents.

(** ** Vocabulary of the statements *)

Definition UTM_SOURCE : str := py "?utm_source=".
Definition QMARK : ascii := "?"%char.
Definition AMP : ascii := "&"%char.
Definition DOT : ascii := "."%char.

(** The cleaned URL of a citation, and the entry stored for it. *)
Definition normal_url (c : citation) : str := clean_url (get_or [] (url c)).

Definition stored_entry (c : citation) : citation :=
  {| title := Some (stored_title (get_or (py "Untitled Source") (title c)) (normal_url c));
     url := Some (normal_url c) |}.

(** What [tag_prefix] leaves when it has consumed the white space and the
    digits before its dot. *)
Definition before_dot (s : str) : str := dropwhile is_decimal (lstrip s).

(** The citations of all documents, in order. *)
Definition collected_citations (h : list (list citation))
    (critiqued_documents : list critiqued_document) : list citation :=
  concat (map (fun doc => read h (citations doc)) critiqued_documents).

(** The text opens with one of the response prefixes of the [re.sub] of
    writer_agent.py line 147, in these or other capitals. *)
Definition opens_with_response_prefix (text : str) : bool :=
  existsb (fun alt => match eat_ci alt text with Some _ => true | None => false end)
          [py "Here is"; py "I've formatted"; py "The following is"; py "Here's"].

(** A task as the extractor returns it: a non-empty text of one line,
    without white space at either end. *)
Definition well_formed_task (t : str) : Prop :=
  t <> [] /\ strip t = t /\ ~ In "010"%char t.

(** A character that may stand inside the quotes of a search query: neither
    a quote nor a newline. *)
Definition plain_char (c : ascii) : bool := negb (is_quote c) && negb (is_newline c).

(** The keys of [unique_citations] stay distinct, and every entry is stored
    under its own URL. *)
Definition keyed (d : list (str * citation)) : Prop :=
  NoDup (map fst d) /\ Forall (fun kv => url (snd kv) = Some (fst kv)) d.

(** [a] comes no later than [b] in the order of the sort. *)
Definition title_le (a b : citation) : Prop :=
  str_leb (sort_key a) (sort_key b) = true.

(** The citations of [l] whose sort key is [k], in the order of [l]. *)
Definition with_key (k : str) (l : list citation) : list citation :=
  filter (fun e => str_eqb (sort_key e) k) l.

(** A character that is neither a colon nor a newline. *)
Definition inline_char (c : ascii) : bool :=
  negb (Ascii.eqb c ":"%char) && negb (is_newline c).

(** A research output that the critique capability is asked about: its
    content is neither empty nor an error message. *)
Definition usable (o : research_output) : bool :=
  negb (is_empty (r_content o) || startswith (r_content o) (py "Error:")).

(** The call of the critique capability for a research output. *)
Definition critique_call (o : research_output) : event :=
  KernelInvoke "CritiqueAgent" "CritiqueDocument"
    [("research_task_description"%string, r_task o);
     ("research_document_text"%string, r_content o)].

(** The result [r] of a run for the query [q] that ends in the state [st']
    has been written to file: the last call of the run saved its report,
    the two-character sequences backslash-n replaced by newlines, and
    returned the paths of [r]. *)
Definition saved (W : world) (q : str) (r : pipeline_result) (st' : state) : Prop :=
  initial_query r = q
  /\ exists evs,
       trace st' = evs ++ [SaveReportToFile (replace (final_report r) BACKSLASH_N NL) q]
       /\ save_report_to_file W evs (replace (final_report r) BACKSLASH_N NL) q
          = Some (file_paths r).

(** The model that the configuration gives to an agent. *)
Definition model_of (agent_model_configs : list (str * str)) (default_model_id : str)
    (agent_name : str) : str :=
  get_or default_model_id (dict_lookup agent_model_configs agent_name).

(** A text without white space. *)
Definition no_space (t : str) : bool := forallb (fun c => negb (isspace c)) t.

(** A citation as the research agent and the search plugin make them: with
    a title, and a URL that is not empty and holds no [?utm_source=]. *)
Definition clean_citation (c : citation) : Prop :=
  exists t u, c = {| title := Some t; url := Some u |}
              /\ u <> [] /\ is_in UTM_SOURCE u = false.


(** [preserves R m]: every run of [m] relates the state before to the state
    after. *)
Definition preserves (R : state -> state -> Prop) (A : Type) (m : M A) : Prop :=
  forall st, R st (snd (m st)).
Arguments preserves R {A} m.

(** [total m]: [m] never raises. *)
Definition total (A : Type) (m : M A) : Prop :=
  forall st, exists a, fst (m st) = Ok a.
Arguments total {A} m.

(** [returns P m]: every value that [m] returns satisfies [P]. *)
Definition returns (A : Type) (P : A -> Prop) (m : M A) : Prop :=
  forall st a st', m st = (Ok a, st') -> P a.
Arguments returns {A} P m.

Class frame_rel (R : state -> state -> Prop) : Prop := {
  frame_refl : forall st, R st st;
  frame_trans : forall a b c, R a b -> R b c -> R a c
}.

(** The heap is untouched. *)
Definition same_heap (st st' : state) : Prop := heap st' = heap st.

(** The trace is untouched. *)
Definition same_trace (st st' : state) : Prop := trace st' = trace st.

(** The first [n] objects of the heap are untouched. *)
Definition frozen (n : nat) (st st' : state) : Prop :=
  n <= length (heap st) ->
  n <= length (heap st') /\ forall l, l < n -> read (heap st') l = read (heap st) l.

(** The trace grows by events that satisfy [P]. *)
Definition emits (P : event -> Prop) (st st' : state) : Prop :=
  exists evs, trace st' = trace st ++ evs /\ Forall P evs.

(** A research call without guidance; any other event. *)
Definition guidance_free (e : event) : Prop :=
  match e with
  | PerformResearchTask _ _ additional_guidance => additional_guidance = []
  | _ => True
  end.

Definition is_research_call (e : event) : bool :=
  match e with PerformResearchTask _ _ _ => true | _ => false end.

(** Any event but a call of the research capability. *)
Definition no_research (e : event) : Prop := is_research_call e = false.

(** Between [st] and [st'] the research capability is called for [tasks],
    once each and in order, without a web query and without guidance. *)
Definition researches (tasks : list str) (st st' : state) : Prop :=
  exists evs,
    trace st' = trace st ++ evs
    /\ filter is_research_call evs = map (fun t => PerformResearchTask t None []) tasks.

(** ** Scenarios: scripted collaborators for concrete runs *)

Definition initial_state : state := {| heap := []; trace := [] |}.

(** A world whose language model answers by prompt function: the plan, the
    plan-clarity reply, the critique, the synthesis and the formatter's
    answer are given; the research capability always returns [research];
    the user adds no clarification; no text parses as JSON. *)
Definition scripted_world (plan clarity critique_reply synthesis : str)
    (formatted : str + str) (research : research_reply) : world :=
  {| kernel_invoke := fun _ _ function_name _ =>
       if String.eqb function_name "ClarifierQuestions" then inl (py "Which period?")
       else if String.eqb function_name "Plan" then inl plan
       else if String.eqb function_name "ClarifyQuery" then inl clarity
       else if String.eqb function_name "CritiqueDocument" then inl critique_reply
       else if String.eqb function_name "SynthesiseCritiques" then inl synthesis
       else formatted;
     get_clarification_responses := fun _ _ => [];
     perform_research_task := fun _ _ _ _ => research;
     save_report_to_file := fun _ _ _ => Some (py "reports/r.md", py "reports/r.md");
     json_loads := fun _ => None |}.

(** The end-to-end scenario: one task, a research result without
    citations, a critique that is not a skip, a synthesis that succeeds. *)
Definition capital_world : world :=
  scripted_world
    (py "1. [ResearchAgent] Search for: 'capital of France'")
    (py "CLARIFICATION_NOT_NEEDED")
    (py "Relevance to Task: High")
    (py "Paris is the capital of France.")
    (inl (py "# Capital of France" ++ NL ++ NL ++ py "Paris."))
    (ResearchDict (py "Paris is the capital.") []).

(** The same run, the plan-clarity capability asking a question. *)
Definition questions_world : world :=
  scripted_world
    (py "1. [ResearchAgent] Search for: 'capital of France'")
    (py "QUESTIONS: 1. What time period are you interested in?")
    (py "Relevance to Task: High")
    (py "Paris is the capital of France.")
    (inl (py "# Capital of France" ++ NL ++ NL ++ py "Paris."))
    (ResearchDict (py "Paris is the capital.") []).

(** One critiqued document with a real critique and no citation; its
    citation list is the only object of the heap. *)
Definition capital_document : critiqued_document :=
  {| task := py "capital of France";
     original := py "Paris is the capital.";
     critique := py "Relevance to Task: High";
     citations := 0 |}.

Definition capital_state : state := {| heap := [[]]; trace := [] |}.

(** Two critiqued documents whose research failed: both critiques are the
    skip placeholder. *)
Definition skipped_document (t : str) (l : loc) : critiqued_document :=
  {| task := t;
     original := py "Error: Could not conduct research synthesis.";
     critique := skip_placeholder t (py "Error: Could not conduct research synthesis.");
     citations := l |}.

Definition skipped_documents : list critiqued_document :=
  [skipped_document (py "Task A") 0; skipped_document (py "Task B") 1].

Definition skipped_state : state := {| heap := [[]; []]; trace := [] |}.



(** Citations for the merge: one without URL, one with a plain text in
    place of a URL, and two that differ by a tracking suffix only. *)
Definition url_less_citation : citation :=
  {| title := Some (py "Annual report"); url := Some [] |}.

Definition plain_citation : citation :=
  {| title := Some (py "Notes"); url := Some (py "not a url") |}.

Definition three_citations : list citation :=
  [{| title := Some (py "x"); url := Some (py "http://a.com/p?utm_source=foo") |};
   {| title := Some (py "y"); url := Some (py "http://a.com/p") |};
   plain_citation].

(** The document of the end-to-end scenario, its list holding the citation
    without URL. *)
Definition url_less_state : state := {| heap := [[url_less_citation]]; trace := [] |}.

(** A run in which the planner's answer is an error message. *)
Definition failed_plan_world : world :=
  scripted_world (py "Error: Could not generate plan.") [] [] []
    (inl (py "# No report")) (ResearchLegacy []).

(** What a run from the initial state returns; the empty result if it
    raises. *)
Definition run_result (W : world) (q : str) : pipeline_result :=
  match fst (execute_research_pipeline W q initial_state) with
  | Ok r => r
  | Raise _ => {| initial_query := []; error := None; final_report := [];
                  file_paths := ([], []) |}
  end.

(** [t] occurs in [s]. *)
Definition occurs_in (t s : str) : Prop := exists pre post, s = pre ++ t ++ post.

(** The research output of the end-to-end scenario; its citation list is
    the first object of the heap, empty in [capital_state], holding three
    citations in [cited_state]. *)
Definition capital_output : research_output :=
  {| r_task := py "capital of France"; r_content := py "Paris is the capital.";
     r_citations := 0 |}.

Definition cited_state : state := {| heap := [three_citations]; trace := [] |}.

(** * Facts *)

Unset Implicit Arguments.

(** ** Runs on small inputs *)

Example split_example :
  split (py "a?b?c") (py "?") = [py "a"; py "b"; py "c"].
Proof. reflexivity. Qed.

Example split_overlap_example :
  split (py "x----") (py "---") = [py "x"; py "-"].
Proof. reflexivity. Qed.

Example replace_example :
  replace (py "QUESTIONS: why? QUESTIONS:") (py "QUESTIONS:") [] = py " why? ".
Proof. reflexivity. Qed.

Example strip_example : strip (py "  a b ") = py "a b".
Proof. reflexivity. Qed.

Example lower_example : lower (py "UnTitled Source") = py "untitled source".
Proof. reflexivity. Qed.

Example split_ws_example :
  split_ws (py " What  time period ") = [py "What"; py "time"; py "period"].
Proof. reflexivity. Qed.

Example str_of_nat_example : str_of_nat 12 = py "12" /\ str_of_nat 0 = py "0".
Proof. split; reflexivity. Qed.

Example clean_url_example :
  clean_url (py "http://a.com/?a=1&amp;utm_x=2&b=3") = py "http://a.com/?a=1&b=3"
  /\ clean_url (py "http://a.com/?utm_a=1&utm_b=3") = py "http://a.com/".
Proof. split; reflexivity. Qed.

Example extract_example :
  extract_research_tasks_from_plan
    (py "1. [ResearchAgent] Search for: 'quantum finance'" ++ NL
       ++ py "2. [ResearchAgent] Summarize drug discovery trends" ++ NL
       ++ py "3. [CritiqueAgent] Evaluate sources.")
  = [py "quantum finance"; py "Summarize drug discovery trends"].
Proof. vm_compute. reflexivity. Qed.

Example extract_error_plan_example :
  extract_research_tasks_from_plan (py "Error: Could not generate plan.") = []
  /\ extract_research_tasks_from_plan [] = [].
Proof. split; reflexivity. Qed.

Example merge_example :
  merge_citations three_citations
  = [{| title := Some (py "Notes"); url := Some (py "not a url") |};
     {| title := Some (py "x"); url := Some (py "http://a.com/p") |}].
Proof. vm_compute. reflexivity. Qed.

Example stored_title_example :
  stored_title (py "Source") (py "https://b.org/x/y?q=1") = py "Article from b.org: x/y"
  /\ stored_title [] (py "https://c.org") = py "Source: c.org".
Proof. split; vm_compute; reflexivity. Qed.

Example skip_placeholder_example :
  fst (critique_document capital_world (py "T") (py "Error: failed") initial_state)
  = Ok (skip_placeholder (py "T") (py "Error: failed"))
  /\ trace (snd (critique_document capital_world (py "T") (py "Error: failed")
                   initial_state)) = [].
Proof. split; reflexivity. Qed.

(** ** Python strings *)

Lemma startswith_iff (s p : str) :
  startswith s p = true <-> exists t, s = p ++ t.
Proof.
  revert s; induction p as [|a p IH]; intros s; simpl.
  - split; [intros _; now exists s | reflexivity].
  - destruct s as [|b s].
    + split; [discriminate | intros [t H]; discriminate].
    + rewrite andb_true_iff, Ascii.eqb_eq, IH. split.
      * intros [-> [t ->]]. eauto.
      * intros [t H]. injection H as -> ->. eauto.
Qed.

Lemma startswith_app (p t : str) : startswith (p ++ t) p = true.
Proof. apply startswith_iff. eauto. Qed.

Lemma startswith_nil_l (p : str) : p <> [] -> startswith [] p = false.
Proof. destruct p; [congruence | reflexivity]. Qed.

Lemma startswith_firstn (n : nat) (s p : str) :
  startswith (firstn n s) p = true -> startswith s p = true.
Proof.
  rewrite !startswith_iff. intros [t H].
  exists (t ++ skipn n s).
  rewrite <- (firstn_skipn n s) at 1. rewrite H. now rewrite app_assoc.
Qed.

Lemma startswith_length (s p : str) :
  startswith s p = true -> length p <= length s.
Proof.
  rewrite startswith_iff. intros [t ->]. rewrite length_app. lia.
Qed.

Lemma find_nil (sub : str) : sub <> [] -> find [] sub = None.
Proof. intros H. simpl. now rewrite startswith_nil_l. Qed.

Lemma find_Some (s sub : str) (i : nat) :
  find s sub = Some i ->
  exists pre post, s = pre ++ sub ++ post /\ length pre = i.
Proof.
  revert i; induction s as [|c t IH]; intros i; simpl.
  - destruct (startswith [] sub) eqn:E; [|discriminate].
    intros [= <-]. apply startswith_iff in E. destruct E as [x E].
    exists [], x. now split.
  - destruct (startswith (c :: t) sub) eqn:E.
    + intros [= <-]. apply startswith_iff in E. destruct E as [x E].
      exists [], x. now split.
    + destruct (find t sub) as [j|]; [|discriminate].
      intros [= <-]. destruct (IH j eq_refl) as (pre & post & -> & Hl).
      exists (c :: pre), post. simpl. now rewrite Hl.
Qed.

Lemma find_parts (s sub : str) (i : nat) :
  find s sub = Some i ->
  s = firstn i s ++ sub ++ skipn (i + length sub) s
  /\ i + length sub <= length s.
Proof.
  intros H. destruct (find_Some _ _ _ H) as (pre & post & -> & <-).
  rewrite firstn_app, firstn_all, Nat.sub_diag, firstn_O, app_nil_r.
  rewrite skipn_app, skipn_all2 by lia.
  replace (length pre + length sub - length pre) with (length sub) by lia.
  rewrite skipn_app, skipn_all, Nat.sub_diag, skipn_O. simpl.
  split; [reflexivity | rewrite !length_app; lia].
Qed.

Lemma is_in_iff (sub s : str) :
  is_in sub s = true <-> exists pre post, s = pre ++ sub ++ post.
Proof.
  unfold is_in. split.
  - destruct (find s sub) as [i|] eqn:E; [|discriminate].
    intros _. destruct (find_Some _ _ _ E) as (pre & post & H & _). eauto.
  - intros (pre & post & ->).
    induction pre as [|c pre IH]; simpl.
    + destruct (sub ++ post) as [|c t] eqn:E; simpl.
      * destruct sub; [reflexivity | discriminate].
      * rewrite <- E, startswith_app. reflexivity.
    + destruct (startswith (c :: pre ++ sub ++ post) sub); [reflexivity|].
      destruct (find (pre ++ sub ++ post) sub); [reflexivity | discriminate].
Qed.

Lemma is_in_false_iff (sub s : str) :
  is_in sub s = false <-> forall pre post, s <> pre ++ sub ++ post.
Proof.
  rewrite <- not_true_iff_false, is_in_iff. split.
  - intros H pre post E. apply H. eauto.
  - intros H (pre & post & E). exact (H _ _ E).
Qed.

Lemma is_in_find_None (sub s : str) : is_in sub s = false <-> find s sub = None.
Proof. unfold is_in. destruct (find s sub); split; congruence. Qed.

Lemma is_in_length (sub s : str) : is_in sub s = true -> length sub <= length s.
Proof.
  rewrite is_in_iff. intros (pre & post & ->). rewrite !length_app. lia.
Qed.

Lemma is_in_app_l (sub a b : str) : is_in sub a = true -> is_in sub (a ++ b) = true.
Proof.
  rewrite !is_in_iff. intros (pre & post & ->).
  exists pre, (post ++ b). now rewrite <- !app_assoc.
Qed.

Lemma is_in_app_r (sub a b : str) : is_in sub b = true -> is_in sub (a ++ b) = true.
Proof.
  rewrite !is_in_iff. intros (pre & post & ->).
  exists (a ++ pre), post. now rewrite <- !app_assoc.
Qed.

Lemma is_in_char (c : ascii) (rest s : str) :
  is_in (c :: rest) s = true -> In c s.
Proof.
  rewrite is_in_iff. intros (pre & post & ->).
  apply in_or_app. right. now left.
Qed.

Lemma is_in_single (c : ascii) (s : str) : is_in [c] s = true <-> In c s.
Proof.
  split; [apply is_in_char|].
  intros H. apply in_split in H. destruct H as (a & b & ->).
  apply is_in_iff. now exists a, b.
Qed.

Lemma not_in_single (c : ascii) (s : str) : is_in [c] s = false <-> ~ In c s.
Proof. rewrite <- is_in_single. now destruct (is_in [c] s). Qed.

(** The text before the leftmost occurrence holds no occurrence. *)
Lemma find_before (s sub : str) (i : nat) :
  sub <> [] -> find s sub = Some i -> is_in sub (firstn i s) = false.
Proof.
  intros Hsub. revert i; induction s as [|c t IH]; intros i; simpl.
  - destruct (startswith [] sub); [|discriminate]. intros [= <-].
    apply is_in_find_None, find_nil, Hsub.
  - destruct (startswith (c :: t) sub) eqn:E.
    + intros [= <-]. apply is_in_find_None, find_nil, Hsub.
    + destruct (find t sub) as [j|] eqn:F; [|discriminate].
      intros [= <-]. apply is_in_find_None. simpl.
      destruct (startswith (c :: firstn j t) sub) eqn:E'.
      * apply (startswith_firstn (S j) (c :: t) sub) in E'. congruence.
      * specialize (IH j eq_refl). apply is_in_find_None in IH. now rewrite IH.
Qed.

Lemma split_fuel_enough (sep : str) (f1 f2 : nat) (s : str) :
  sep <> [] -> length s < f1 -> length s < f2 ->
  split_fuel f1 s sep = split_fuel f2 s sep.
Proof.
  intros Hsep. revert f2 s.
  induction f1 as [|f1 IH]; intros f2 s H1 H2; [lia|].
  destruct f2 as [|f2]; [lia|]. simpl.
  destruct (find s sep) as [i|] eqn:E; [|reflexivity].
  f_equal. destruct (find_parts _ _ _ E) as [_ Hle].
  assert (length sep <> 0) by (destruct sep; simpl; congruence).
  apply IH; rewrite length_skipn; lia.
Qed.

(** The equation of [split]: the fuel never runs out. *)
Lemma split_eq (s sep : str) :
  sep <> [] ->
  split s sep =
  match find s sep with
  | None => [s]
  | Some i => firstn i s :: split (skipn (i + length sep) s) sep
  end.
Proof.
  intros Hsep. unfold split at 1. simpl.
  destruct (find s sep) as [i|] eqn:E; [|reflexivity].
  f_equal. destruct (find_parts _ _ _ E) as [_ Hle].
  assert (length sep <> 0) by (destruct sep; simpl; congruence).
  apply split_fuel_enough; trivial; rewrite length_skipn; lia.
Qed.

(** Induction along the cuts of [split]. *)
Lemma split_ind (sep : str) (P : str -> list str -> Prop) :
  sep <> [] ->
  (forall s, find s sep = None -> P s [s]) ->
  (forall s i, find s sep = Some i ->
     P (skipn (i + length sep) s) (split (skipn (i + length sep) s) sep) ->
     P s (firstn i s :: split (skipn (i + length sep) s) sep)) ->
  forall s, P s (split s sep).
Proof.
  intros Hsep Hnone Hsome s.
  remember (length s) as n eqn:Hn. revert s Hn.
  induction n as [n IH] using lt_wf_ind. intros s Hn.
  rewrite split_eq by assumption.
  destruct (find s sep) as [i|] eqn:E; [|now apply Hnone].
  apply Hsome; [assumption|].
  destruct (find_parts _ _ _ E) as [_ Hle].
  assert (length sep <> 0) by (destruct sep; simpl; congruence).
  apply (IH (length (skipn (i + length sep) s))); [|reflexivity].
  rewrite length_skipn. lia.
Qed.

Lemma split_not_nil (s sep : str) : sep <> [] -> split s sep <> [].
Proof.
  intros Hsep. rewrite split_eq by assumption.
  destruct (find s sep); discriminate.
Qed.

Lemma split_absent (s sep : str) :
  sep <> [] -> is_in sep s = false -> split s sep = [s].
Proof.
  intros Hsep H. rewrite split_eq by assumption.
  apply is_in_find_None in H. now rewrite H.
Qed.

Lemma item0_split_find (s sep : str) (i : nat) :
  sep <> [] -> find s sep = Some i -> item 0 (split s sep) = firstn i s.
Proof. intros Hsep E. rewrite split_eq by assumption. now rewrite E. Qed.

(** [s.split(sep)[0]] holds no [sep]. *)
Lemma item0_split_clean (s sep : str) :
  sep <> [] -> is_in sep s = true -> is_in sep (item 0 (split s sep)) = false.
Proof.
  intros Hsep H. unfold is_in in H.
  destruct (find s sep) as [i|] eqn:E; [|discriminate].
  rewrite (item0_split_find _ _ _ Hsep E). now apply find_before.
Qed.

Lemma join_cons (sep x : str) (l : list str) :
  l <> [] -> join sep (x :: l) = x ++ sep ++ join sep l.
Proof. destruct l; [congruence | reflexivity]. Qed.


(** No piece of a split holds the separator. *)
Lemma split_pieces_clean (s sep : str) :
  sep <> [] -> Forall (fun p => is_in sep p = false) (split s sep).
Proof.
  intros Hsep.
  apply (split_ind sep (fun _ l => Forall (fun p => is_in sep p = false) l)); trivial.
  - intros s0 E. constructor; [now apply is_in_find_None | constructor].
  - intros s0 i E IH. constructor; [now apply find_before | exact IH].
Qed.

(** Every piece of a split is made of characters of the text. *)
Lemma split_pieces_incl (s sep : str) :
  sep <> [] -> Forall (fun p => incl p s) (split s sep).
Proof.
  intros Hsep.
  apply (split_ind sep (fun s l => Forall (fun p => incl p s) l)); trivial.
  - intros s0 _. constructor; [apply incl_refl | constructor].
  - intros s0 i E IH. constructor.
    + intros x Hx. rewrite <- (firstn_skipn i s0). apply in_or_app. now left.
    + eapply Forall_impl; [|exact IH]. intros p Hp x Hx.
      rewrite <- (firstn_skipn (i + length sep) s0). apply in_or_app. right.
      now apply Hp.
Qed.

(** The last piece of a split is a suffix of the text and holds no
    separator. *)
Lemma split_last (s sep : str) :
  sep <> [] ->
  (exists pre, s = pre ++ last (split s sep) [])
  /\ is_in sep (last (split s sep) []) = false.
Proof.
  intros Hsep.
  apply (split_ind sep (fun s l => (exists pre, s = pre ++ last l [])
                                    /\ is_in sep (last l []) = false)); trivial.
  - intros s0 E. simpl. split; [now exists [] | now apply is_in_find_None].
  - intros s0 i E [[pre Hpre] Hclean].
    assert (Hne := split_not_nil (skipn (i + length sep) s0) sep Hsep).
    destruct (split (skipn (i + length sep) s0) sep) as [|x l] eqn:Es; [congruence|].
    change (last (firstn i s0 :: x :: l) []) with (last (x :: l) []).
    split; [|exact Hclean].
    exists (firstn (i + length sep) s0 ++ pre).
    rewrite <- app_assoc, <- Hpre. symmetry. apply firstn_skipn.
Qed.

Lemma find_char (c : ascii) (a b : str) :
  ~ In c a -> find (a ++ c :: b) [c] = Some (length a).
Proof.
  induction a as [|x a IH]; intros H; simpl.
  - now rewrite Ascii.eqb_refl.
  - destruct (Ascii.eqb c x) eqn:E.
    + apply Ascii.eqb_eq in E. subst. exfalso. apply H. now left.
    + simpl. rewrite IH; [reflexivity|]. intros Hin. apply H. now right.
Qed.

Lemma split_char_app (c : ascii) (a b : str) :
  ~ In c a -> split (a ++ c :: b) [c] = a :: split b [c].
Proof.
  intros H. rewrite split_eq by discriminate. rewrite (find_char _ _ b H).
  rewrite firstn_app, firstn_all, Nat.sub_diag, firstn_O, app_nil_r.
  rewrite skipn_app, skipn_all2 by (simpl; lia).
  replace (length a + length [c] - length a) with 1 by (simpl; lia).
  reflexivity.
Qed.

Lemma split_char_absent (c : ascii) (s : str) : ~ In c s -> split s [c] = [s].
Proof. intros H. apply split_absent; [discriminate | now apply not_in_single]. Qed.

Lemma split_join_char (c : ascii) (l : list str) :
  l <> [] -> Forall (fun p => ~ In c p) l -> split (join [c] l) [c] = l.
Proof.
  induction l as [|x l IH]; [congruence|]. intros _ H.
  inversion H as [|? ? Hx Hl]; subst.
  destruct l as [|y l].
  - simpl. now apply split_char_absent.
  - rewrite join_cons by discriminate. simpl app.
    rewrite split_char_app by assumption. f_equal. apply IH; [discriminate | assumption].
Qed.

Lemma in_join (x : ascii) (sep : str) (l : list str) :
  In x (join sep l) -> In x sep \/ exists p, In p l /\ In x p.
Proof.
  induction l as [|y l IH]; simpl; [contradiction|].
  destruct l as [|z l].
  - intros H. right. exists y. auto.
  - intros H. apply in_app_or in H. destruct H as [H|H].
    + right. exists y. auto.
    + apply in_app_or in H. destruct H as [H|H]; [now left|].
      destruct (IH H) as [H'|(p & Hp & Hx)]; [now left|].
      right. exists p. split; [now right | assumption].
Qed.

(** A character that occurs once cuts a text in one way only. *)
Lemma app_char_unique (c : ascii) (a b a' b' : str) :
  ~ In c a -> ~ In c b -> a ++ c :: b = a' ++ c :: b' -> a = a' /\ b = b'.
Proof.
  revert a'. induction a as [|x a IH]; intros a' Ha Hb H.
  - destruct a' as [|y a']; simpl in H.
    + now injection H as ->.
    + injection H as -> ->. exfalso. apply Hb. apply in_or_app. right. now left.
  - destruct a' as [|y a']; simpl in H.
    + injection H as -> _. exfalso. apply Ha. now left.
    + injection H as -> H. destruct (IH a') as [-> ->]; auto.
      intros Hin. apply Ha. now right.
Qed.

Lemma startswith_app_char (c : ascii) (q p x : str) :
  ~ In c q -> startswith (p ++ c :: x) q = true -> startswith p q = true.
Proof.
  revert p. induction q as [|a q IH]; intros p Hc H; [reflexivity|].
  destruct p as [|b p]; simpl in H |- *.
  - apply andb_true_iff in H. destruct H as [H _].
    apply Ascii.eqb_eq in H. subst. exfalso. apply Hc. now left.
  - apply andb_true_iff in H. destruct H as [H1 H2]. rewrite H1. simpl.
    apply IH; [|assumption]. intros Hin. apply Hc. now right.
Qed.

Lemma startswith_join_head (c : ascii) (q p : str) (l : list str) :
  ~ In c q -> startswith (join [c] (p :: l)) q = true -> startswith p q = true.
Proof.
  intros Hc H. destruct l as [|y l]; [exact H|].
  rewrite join_cons in H by discriminate.
  now apply (startswith_app_char c q p (join [c] (y :: l))).
Qed.

Lemma startswith_trans (s p q : str) :
  startswith s p = true -> startswith p q = true -> startswith s q = true.
Proof.
  rewrite !startswith_iff. intros [t ->] [t' ->].
  exists (t' ++ t). now rewrite app_assoc.
Qed.

Lemma filter_all (A : Type) (f : A -> bool) (l : list A) :
  Forall (fun x => f x = true) l -> filter f l = l.
Proof.
  induction 1 as [|x l Hx _ IH]; simpl; [reflexivity|]. now rewrite Hx, IH.
Qed.

Lemma filter_true (A : Type) (f : A -> bool) (l : list A) :
  Forall (fun x => f x = true) (filter f l).
Proof. apply Forall_forall. intros x Hx. now apply filter_In in Hx. Qed.

Lemma filter_Forall (A : Type) (P : A -> Prop) (f : A -> bool) (l : list A) :
  Forall P l -> Forall P (filter f l).
Proof.
  intros H. apply Forall_forall. intros x Hx. apply filter_In in Hx.
  rewrite Forall_forall in H. now apply H.
Qed.

(** ** The citation aggregator: normalisation *)

Lemma clean_url_unfold (url : str) :
  clean_url url =
  if is_in UTM_SOURCE url then item 0 (split url UTM_SOURCE)
  else if has_tracked_query url then
    match filter (fun p => negb (tracking_param p))
            (split (item 1 (split url [QMARK])) [AMP]) with
    | [] => item 0 (split url [QMARK])
    | _ :: _ =>
        item 0 (split url [QMARK]) ++ [QMARK]
          ++ join [AMP] (filter (fun p => negb (tracking_param p))
                           (split (item 1 (split url [QMARK])) [AMP]))
    end
  else url.
Proof. reflexivity. Qed.

(** A URL that neither branch touches is its own normal form. *)
Lemma clean_url_fixed (r : str) :
  is_in UTM_SOURCE r = false -> has_tracked_query r = false -> clean_url r = r.
Proof. intros H1 H2. rewrite clean_url_unfold. now rewrite H1, H2. Qed.

Lemma no_qmark_no_source (r : str) : ~ In QMARK r -> is_in UTM_SOURCE r = false.
Proof.
  intros H. apply not_true_iff_false. intros Hin. apply H.
  exact (is_in_char _ _ _ Hin).
Qed.

Lemma no_qmark_untracked (r : str) : ~ In QMARK r -> has_tracked_query r = false.
Proof.
  intros H. unfold has_tracked_query.
  change (py "?") with [QMARK]. apply not_in_single in H. now rewrite H.
Qed.

Lemma tracked_has_qmark (u : str) : has_tracked_query u = true -> In QMARK u.
Proof.
  unfold has_tracked_query. intros H. apply andb_true_iff in H.
  destruct H as [H _]. now apply is_in_single.
Qed.

(** The shape of a URL that holds a question mark: the base, the first
    query segment, and what [split] makes of them. *)
Lemma split_qmark (u : str) :
  In QMARK u ->
  exists base seg : str,
    item 0 (split u [QMARK]) = base /\ item 1 (split u [QMARK]) = seg
    /\ ~ In QMARK base /\ ~ In QMARK seg.
Proof.
  intros H. apply is_in_single in H.
  assert (Hc := split_pieces_clean u [QMARK] ltac:(discriminate)).
  unfold is_in in H. destruct (find u [QMARK]) as [i|] eqn:E; [|discriminate].
  rewrite split_eq in Hc |- * by discriminate. rewrite E in Hc |- *.
  assert (Hne := split_not_nil (skipn (i + length [QMARK]) u) [QMARK] ltac:(discriminate)).
  destruct (split (skipn (i + length [QMARK]) u) [QMARK]) as [|seg l]; [congruence|].
  exists (firstn i u), seg. simpl.
  inversion Hc as [|? ? H0 Hc']; subst. inversion Hc' as [|? ? H1 _]; subst.
  repeat split; trivial; now apply not_in_single.
Qed.

Section TrackedQuery.

Variables (base seg : str).
Hypothesis base_clean : ~ In QMARK base.
Hypothesis seg_clean : ~ In QMARK seg.

Let kept : list str :=
  filter (fun p => negb (tracking_param p)) (split seg [AMP]).

Lemma kept_no_amp : Forall (fun p => ~ In AMP p) kept.
Proof.
  apply filter_Forall.
  eapply Forall_impl; [|apply (split_pieces_clean seg [AMP]); discriminate].
  intros p Hp. now apply not_in_single.
Qed.

Lemma kept_no_qmark : Forall (fun p => ~ In QMARK p) kept.
Proof.
  apply filter_Forall.
  eapply Forall_impl; [|apply (split_pieces_incl seg [AMP]); discriminate].
  intros p Hp Hin. apply seg_clean. now apply Hp.
Qed.

Lemma kept_untracked : Forall (fun p => negb (tracking_param p) = true) kept.
Proof. apply filter_true. Qed.

Lemma joined_no_qmark : ~ In QMARK (join [AMP] kept).
Proof.
  intros H. apply in_join in H. destruct H as [H|(p & Hp & Hin)].
  - destruct H as [H|[]]. discriminate.
  - pose proof kept_no_qmark as K. rewrite Forall_forall in K.
    exact (K p Hp Hin).
Qed.

(** The rebuilt URL holds no [?utm_source=]. *)
Lemma rebuilt_no_source (p : str) (l : list str) :
  kept = p :: l ->
  is_in UTM_SOURCE (base ++ [QMARK] ++ join [AMP] kept) = false.
Proof.
  intros Hk. apply not_true_iff_false. intros H.
  apply is_in_iff in H. destruct H as (pre & post & H).
  change (pre ++ UTM_SOURCE ++ post)
    with (pre ++ QMARK :: (py "utm_source=" ++ post)) in H.
  simpl app in H.
  apply app_char_unique in H; [|exact base_clean|exact joined_no_qmark].
  destruct H as [_ H].
  assert (S1 : startswith (join [AMP] kept) (py "utm_") = true).
  { rewrite H. apply startswith_iff. now exists (py "source=" ++ post). }
  rewrite Hk in S1.
  apply (startswith_join_head AMP (py "utm_") p l) in S1.
  - pose proof kept_untracked as K. rewrite Hk in K.
    inversion K as [|? ? Hp _]; subst.
    unfold tracking_param in Hp. rewrite S1 in Hp. discriminate.
  - cbv. intros [E|[E|[E|[E|[]]]]]; discriminate.
Qed.

(** The rebuilt URL is its own normal form. *)
Lemma rebuilt_fixed (p : str) (l : list str) :
  kept = p :: l ->
  clean_url (base ++ [QMARK] ++ join [AMP] kept) = base ++ [QMARK] ++ join [AMP] kept.
Proof.
  intros Hk. rewrite clean_url_unfold at 1.
  rewrite (rebuilt_no_source p l Hk).
  destruct (has_tracked_query (base ++ [QMARK] ++ join [AMP] kept)); [|reflexivity].
  change ([QMARK] ++ join [AMP] kept) with (QMARK :: join [AMP] kept).
  rewrite (split_char_app QMARK base (join [AMP] kept) base_clean).
  rewrite (split_char_absent QMARK _ joined_no_qmark).
  change (item 0 [base; join [AMP] kept]) with base.
  change (item 1 [base; join [AMP] kept]) with (join [AMP] kept).
  rewrite (split_join_char AMP kept); [|rewrite Hk; discriminate|exact kept_no_amp].
  rewrite (filter_all _ _ _ kept_untracked).
  rewrite Hk. reflexivity.
Qed.

End TrackedQuery.

(** On a URL without [?utm_source=], one pass reaches a normal form. *)
Lemma clean_url_idempotent_no_source (u : str) :
  is_in UTM_SOURCE u = false -> clean_url (clean_url u) = clean_url u.
Proof.
  intros Hs. rewrite (clean_url_unfold u). rewrite Hs.
  destruct (has_tracked_query u) eqn:Ht; [|now apply clean_url_fixed].
  destruct (split_qmark u (tracked_has_qmark u Ht)) as (base & seg & -> & -> & Hb & Hg).
  destruct (filter (fun p => negb (tracking_param p)) (split seg [AMP])) as [|p l] eqn:Hk.
  - apply clean_url_fixed; [now apply no_qmark_no_source | now apply no_qmark_untracked].
  - rewrite <- Hk. now apply (rebuilt_fixed base seg Hb Hg p l).
Qed.

(** One pass always removes every [?utm_source=]. *)
Lemma clean_url_no_source (u : str) : is_in UTM_SOURCE (clean_url u) = false.
Proof.
  rewrite clean_url_unfold.
  destruct (is_in UTM_SOURCE u) eqn:Hs.
  - apply item0_split_clean; [discriminate | assumption].
  - destruct (has_tracked_query u) eqn:Ht; [|assumption].
    destruct (split_qmark u (tracked_has_qmark u Ht)) as (base & seg & -> & -> & Hb & Hg).
    destruct (filter (fun p => negb (tracking_param p)) (split seg [AMP])) as [|p l] eqn:Hk.
    + now apply no_qmark_no_source.
    + rewrite <- Hk. now apply (rebuilt_no_source base seg Hb Hg p l).
Qed.

(** X1: two passes of the normalisation always reach a normal form. *)
Lemma clean_url_stable_after_two (u : str) :
  clean_url (clean_url (clean_url u)) = clean_url (clean_url u).
Proof. apply clean_url_idempotent_no_source, clean_url_no_source. Qed.

(** ** The citation aggregator: deduplication *)

Lemma str_eqb_eq (a b : str) : str_eqb a b = true <-> a = b.
Proof. unfold str_eqb. destruct (list_eq_dec ascii_dec a b); split; congruence. Qed.

Lemma str_eqb_refl (a : str) : str_eqb a a = true.
Proof. now apply str_eqb_eq. Qed.

Lemma str_eqb_neq (a b : str) : str_eqb a b = false <-> a <> b.
Proof. unfold str_eqb. destruct (list_eq_dec ascii_dec a b); split; congruence. Qed.

Lemma is_empty_true (s : str) : is_empty s = true <-> s = [].
Proof. destruct s; split; simpl; congruence. Qed.

Lemma is_empty_false (s : str) : is_empty s = false <-> s <> [].
Proof. destruct s; split; simpl; congruence. Qed.

Lemma has_key_app (k k' : str) (v : citation) (d : list (str * citation)) :
  has_key k (d ++ [(k', v)]) = has_key k d || str_eqb k k'.
Proof.
  unfold has_key. rewrite existsb_app. simpl. now rewrite orb_false_r.
Qed.

Lemma dedupe_cons (c : citation) (rest : list citation) (d : list (str * citation)) :
  dedupe (c :: rest) d =
  if negb (is_empty (normal_url c)) && negb (has_key (normal_url c) d)
  then dedupe rest (d ++ [(normal_url c, stored_entry c)])
  else dedupe rest d.
Proof. reflexivity. Qed.

(** What is stored stays stored. *)
Lemma dedupe_keeps (cs : list citation) (d : list (str * citation)) (kv : str * citation) :
  In kv d -> In kv (dedupe cs d).
Proof.
  revert d. induction cs as [|c cs IH]; intros d H; [exact H|].
  rewrite dedupe_cons.
  destruct (negb (is_empty (normal_url c)) && negb (has_key (normal_url c) d)).
  - apply IH. apply in_or_app. now left.
  - now apply IH.
Qed.

(** A citation with a non-empty cleaned URL that no earlier citation and no
    stored key shares is stored. *)
Lemma dedupe_first (cs : list citation) (d : list (str * citation))
    (i : nat) (c : citation) :
  nth_error cs i = Some c ->
  normal_url c <> [] ->
  has_key (normal_url c) d = false ->
  (forall j c', j < i -> nth_error cs j = Some c' -> normal_url c' <> normal_url c) ->
  In (normal_url c, stored_entry c) (dedupe cs d).
Proof.
  revert d i. induction cs as [|c0 cs IH]; intros d i Hi Hne Hk Hfirst.
  - destruct i; discriminate.
  - rewrite dedupe_cons. destruct i as [|i]; simpl in Hi.
    + injection Hi as ->. apply is_empty_false in Hne. rewrite Hne, Hk. simpl.
      apply dedupe_keeps. apply in_or_app. right. now left.
    + assert (H0 : normal_url c0 <> normal_url c) by (apply (Hfirst 0); [lia | reflexivity]).
      assert (Hrest : forall j c', j < i -> nth_error cs j = Some c' ->
                                   normal_url c' <> normal_url c).
      { intros j c' Hj Hc'. apply (Hfirst (S j)); [lia | exact Hc']. }
      destruct (negb (is_empty (normal_url c0)) && negb (has_key (normal_url c0) d)).
      * apply (IH _ i); trivial. rewrite has_key_app, Hk. simpl.
        apply str_eqb_neq. congruence.
      * now apply (IH _ i).
Qed.

(** Every stored entry is the entry of a citation of the input, or was
    stored before. *)
Lemma dedupe_from (cs : list citation) (d : list (str * citation)) (kv : str * citation) :
  In kv (dedupe cs d) ->
  In kv d \/ exists c, In c cs /\ kv = (normal_url c, stored_entry c) /\ normal_url c <> [].
Proof.
  revert d. induction cs as [|c cs IH]; intros d H; [now left|].
  rewrite dedupe_cons in H.
  destruct (negb (is_empty (normal_url c)) && negb (has_key (normal_url c) d)) eqn:E.
  - apply IH in H. destruct H as [H|(c' & Hc' & Hkv)].
    + apply in_app_or in H. destruct H as [H|[H|[]]]; [now left|].
      right. exists c. split; [now left|]. split; [now symmetry|].
      apply andb_true_iff in E. destruct E as [E _].
      apply negb_true_iff in E. now apply is_empty_false.
    + right. exists c'. split; [now right | exact Hkv].
  - apply IH in H. destruct H as [H|(c' & Hc' & Hkv)]; [now left|].
    right. exists c'. split; [now right | exact Hkv].
Qed.

Lemma insert_sorted_In (x y : citation) (l : list citation) :
  In y (insert_sorted x l) <-> y = x \/ In y l.
Proof.
  induction l as [|z l IH]; simpl.
  - intuition congruence.
  - destruct (str_leb (sort_key x) (sort_key z)); simpl; [intuition congruence|].
    rewrite IH. intuition congruence.
Qed.

(** Sorting neither adds nor loses an entry. *)
Lemma sorted_In (y : citation) (l : list citation) : In y (sorted l) <-> In y l.
Proof.
  induction l as [|x l IH]; simpl; [tauto|].
  rewrite insert_sorted_In, IH. intuition congruence.
Qed.

Lemma insert_sorted_length (x : citation) (l : list citation) :
  length (insert_sorted x l) = S (length l).
Proof.
  induction l as [|z l IH]; simpl; [reflexivity|].
  destruct (str_leb (sort_key x) (sort_key z)); simpl; congruence.
Qed.

Lemma sorted_length (l : list citation) : length (sorted l) = length l.
Proof.
  induction l as [|x l IH]; simpl; [reflexivity|].
  now rewrite insert_sorted_length, IH.
Qed.

Lemma merge_citations_In (e : citation) (cs : list citation) :
  In e (merge_citations cs) <-> exists k, In (k, e) (dedupe cs []).
Proof.
  unfold merge_citations. rewrite sorted_In, in_map_iff. split.
  - intros ([k e'] & <- & H). now exists k.
  - intros [k H]. now exists (k, e).
Qed.

(** ** The plan task extractor *)

Lemma dropwhile_split (f : ascii -> bool) (s : str) :
  exists a, s = a ++ dropwhile f s /\ forallb f a = true.
Proof.
  induction s as [|c s (a & Ha & Hf)]; simpl.
  - now exists [].
  - destruct (f c) eqn:E.
    + exists (c :: a). simpl. rewrite E, Hf. split; [now f_equal | reflexivity].
    + now exists [].
Qed.

Lemma dropwhile_app_all (f : ascii -> bool) (a b : str) :
  forallb f a = true -> dropwhile f (a ++ b) = dropwhile f b.
Proof.
  induction a as [|c a IH]; simpl; [reflexivity|].
  intros H. apply andb_true_iff in H. destruct H as [-> H]. now apply IH.
Qed.

Lemma dropwhile_stop (f : ascii -> bool) (c : ascii) (s : str) :
  f c = false -> dropwhile f (c :: s) = c :: s.
Proof. intros H. simpl. now rewrite H. Qed.

Lemma dropwhile_cons_app (f : ascii -> bool) (s t s' : str) (c : ascii) :
  dropwhile f s = c :: s' -> dropwhile f (s ++ t) = c :: s' ++ t.
Proof.
  induction s as [|x s IH]; simpl; [discriminate|].
  destruct (f x); [exact IH|]. intros [= -> ->]. reflexivity.
Qed.

Lemma dropwhile_idem (f : ascii -> bool) (s : str) :
  dropwhile f (dropwhile f s) = dropwhile f s.
Proof.
  induction s as [|c s IH]; simpl; [reflexivity|].
  destruct (f c) eqn:E; [exact IH|]. simpl. now rewrite E.
Qed.


(** A text is its [rstrip] followed by white space. *)
Lemma rstrip_split (s : str) : exists t, s = rstrip s ++ t.
Proof.
  unfold rstrip. destruct (dropwhile_split isspace (rev s)) as (a & Ha & _).
  exists (rev a). rewrite <- rev_app_distr, <- Ha. now rewrite rev_involutive.
Qed.

Lemma forallb_not_in (f : ascii -> bool) (c : ascii) (a : str) :
  f c = false -> forallb f a = true -> ~ In c a.
Proof.
  intros Hc Ha Hin. rewrite forallb_forall in Ha. specialize (Ha c Hin). congruence.
Qed.

(** The first occurrence of a character cuts a text in one way only. *)
Lemma app_first_char (c : ascii) (a b a' b' : str) :
  ~ In c a -> ~ In c a' -> a ++ c :: b = a' ++ c :: b' -> a = a' /\ b = b'.
Proof.
  revert a'. induction a as [|x a IH]; intros a' Ha Ha' H.
  - destruct a' as [|y a']; simpl in H.
    + now injection H as ->.
    + injection H as -> _. exfalso. apply Ha'. now left.
  - destruct a' as [|y a']; simpl in H.
    + injection H as -> _. exfalso. apply Ha. now left.
    + injection H as -> H. destruct (IH a') as [-> ->]; auto.
      * intros Hin. apply Ha. now right.
      * intros Hin. apply Ha'. now right.
Qed.

Lemma ci_eqb_refl (c : ascii) : ci_eqb c c = true.
Proof. apply Ascii.eqb_refl. Qed.

Lemma eat_ci_app (lit rest : str) : eat_ci lit (lit ++ rest) = Some rest.
Proof.
  induction lit as [|c lit IH]; simpl; [reflexivity|]. now rewrite ci_eqb_refl.
Qed.




Lemma before_dot_split (s : str) :
  exists a, s = a ++ before_dot s /\ ~ In DOT a.
Proof.
  unfold before_dot, lstrip.
  destruct (dropwhile_split isspace s) as (a1 & H1 & F1).
  destruct (dropwhile_split is_decimal (dropwhile isspace s)) as (a2 & H2 & F2).
  exists (a1 ++ a2). split.
  - rewrite <- app_assoc, <- H2. exact H1.
  - intros Hin. apply in_app_or in Hin. destruct Hin as [Hin|Hin].
    + now apply (forallb_not_in isspace DOT a1).
    + now apply (forallb_not_in is_decimal DOT a2).
Qed.

Lemma tag_prefix_unfold (s : str) :
  tag_prefix s =
  match before_dot s with
  | c :: s1 =>
      if Ascii.eqb c DOT then option_map lstrip (eat_ci RESEARCH_TAG (lstrip s1))
      else None
  | [] => None
  end.
Proof. reflexivity. Qed.

(** The pattern needs a dot. *)
Lemma tag_prefix_dot (s r : str) : tag_prefix s = Some r -> In DOT s.
Proof.
  rewrite tag_prefix_unfold. destruct (before_dot_split s) as (a & Ha & _).
  destruct (before_dot s) as [|c s1]; [discriminate|].
  destruct (Ascii.eqb c DOT) eqn:E; [|discriminate]. intros _.
  apply Ascii.eqb_eq in E. subst c. rewrite Ha. apply in_or_app. right. now left.
Qed.

(** Before the first dot of a text, the pattern can only match up to that
    dot. *)
Lemma tag_prefix_first_dot (b x : str) :
  ~ In DOT b ->
  tag_prefix (b ++ DOT :: x) = None
  \/ tag_prefix (b ++ DOT :: x) = tag_prefix (DOT :: x).
Proof.
  intros Hb. rewrite (tag_prefix_unfold (b ++ DOT :: x)).
  destruct (before_dot_split (b ++ DOT :: x)) as (a & Ha & Hna).
  destruct (before_dot (b ++ DOT :: x)) as [|c s1]; [now left|].
  destruct (Ascii.eqb c DOT) eqn:E; [|now left]. right.
  apply Ascii.eqb_eq in E. subst c.
  destruct (app_first_char DOT b x a s1 Hb Hna Ha) as [_ <-].
  reflexivity.
Qed.


Lemma re_search_Some (A : Type) (m : str -> option A) (s : str) (v : A) :
  re_search m s = Some v -> exists a b, s = a ++ b /\ m b = Some v.
Proof.
  induction s as [|c s IH]; simpl.
  - destruct (m []) eqn:E; [|discriminate]. intros [= ->]. now exists [], [].
  - destruct (m (c :: s)) eqn:E.
    + intros [= ->]. now exists [], (c :: s).
    + intros H. destruct (IH H) as (a & b & -> & Hb). now exists (c :: a), b.
Qed.

(** If every start position before [s] either fails or gives [v], and the
    match at [s] gives [v], the search gives [v]. *)
Lemma re_search_first (A : Type) (m : str -> option A) (pre s : str) (v : A) :
  (forall a b, pre = a ++ b -> m (b ++ s) = None \/ m (b ++ s) = Some v) ->
  m s = Some v ->
  re_search m (pre ++ s) = Some v.
Proof.
  intros Hpre Hs. induction pre as [|c pre IH]; simpl.
  - destruct s; simpl; now rewrite Hs.
  - destruct (Hpre [] (c :: pre) eq_refl) as [E|E]; simpl in E; rewrite E; [|reflexivity].
    apply IH. intros a b ->. apply (Hpre (c :: a) b). reflexivity.
Qed.



Lemma lstrip_incl (s : str) : incl (lstrip s) s.
Proof.
  unfold lstrip. destruct (dropwhile_split isspace s) as (a & Ha & _).
  intros x Hx. rewrite Ha. apply in_or_app. now right.
Qed.

Section NumberedLine.

Variables (pre ws rest : str).
Hypothesis pre_no_dot : ~ In DOT pre.
Hypothesis ws_space : forallb isspace ws = true.
Hypothesis rest_one_line : ~ In "010"%char rest.

Let tail : str := ws ++ RESEARCH_TAG ++ rest.

Lemma tag_prefix_at_dot : tag_prefix (DOT :: tail) = Some (lstrip rest).
Proof.
  rewrite tag_prefix_unfold. unfold before_dot, lstrip.
  rewrite (dropwhile_stop isspace DOT tail eq_refl).
  rewrite (dropwhile_stop is_decimal DOT tail eq_refl).
  rewrite Ascii.eqb_refl. unfold tail.
  rewrite (dropwhile_app_all isspace ws _ ws_space).
  change (RESEARCH_TAG ++ rest) with ("["%char :: (py "ResearchAgent]" ++ rest)).
  rewrite dropwhile_stop by reflexivity.
  change ("["%char :: (py "ResearchAgent]" ++ rest)) with (RESEARCH_TAG ++ rest).
  now rewrite eat_ci_app.
Qed.





End NumberedLine.

(** X4: a line without a dot matches neither pattern and is taken whole. *)
Lemma task_description_without_dot (line : str) :
  ~ In DOT line -> task_description line = line.
Proof.
  intros H. unfold task_description.
  destruct (re_search specific_search_pattern line) as [q|] eqn:E1.
  - exfalso. apply re_search_Some in E1. destruct E1 as (a & b & -> & Hb).
    unfold specific_search_pattern in Hb.
    destruct (tag_prefix b) as [r|] eqn:T; [|discriminate].
    apply H, in_or_app. right. exact (tag_prefix_dot _ _ T).
  - destruct (re_search general_task_pattern line) as [q|] eqn:E2; [|reflexivity].
    exfalso. apply re_search_Some in E2. destruct E2 as (a & b & -> & Hb).
    unfold general_task_pattern in Hb.
    destruct (tag_prefix b) as [r|] eqn:T; [|discriminate].
    apply H, in_or_app. right. exact (tag_prefix_dot _ _ T).
Qed.

Lemma task_description_without_dot_witness :
  task_description (py "- [ResearchAgent] Summarize trends")
  = py "- [ResearchAgent] Summarize trends".
Proof.
  apply (task_description_without_dot (py "- [ResearchAgent] Summarize trends")).
  vm_compute. intuition discriminate.
Defined.

(** ** The pipeline monad *)

#[export] Instance same_heap_frame : frame_rel same_heap.
Proof. split; unfold same_heap; [reflexivity | congruence]. Qed.

#[export] Instance same_trace_frame : frame_rel same_trace.
Proof. split; unfold same_trace; [reflexivity | congruence]. Qed.

#[export] Instance frozen_frame (n : nat) : frame_rel (frozen n).
Proof.
  split; unfold frozen.
  - intros st H. split; [exact H | reflexivity].
  - intros a b c Hab Hbc H. destruct (Hab H) as [H1 E1].
    destruct (Hbc H1) as [H2 E2]. split; [exact H2|].
    intros l Hl. now rewrite E2, E1.
Qed.

#[export] Instance emits_frame (P : event -> Prop) : frame_rel (emits P).
Proof.
  split; unfold emits.
  - intros st. exists []. now rewrite app_nil_r.
  - intros a b c (e1 & -> & F1) (e2 & -> & F2). exists (e1 ++ e2).
    split; [now rewrite app_assoc | now apply Forall_app].
Qed.

Section Preserves.

Context (R : state -> state -> Prop) `{frame_rel R}.

Lemma preserves_ret (A : Type) (a : A) : preserves R (ret a).
Proof. intros st. apply frame_refl. Qed.

Lemma preserves_raise (A : Type) (e : exn) : preserves R (@raise A e).
Proof. intros st. apply frame_refl. Qed.

Lemma preserves_history : preserves R history.
Proof. intros st. apply frame_refl. Qed.

Lemma preserves_load (l : loc) : preserves R (load l).
Proof. intros st. apply frame_refl. Qed.

Lemma preserves_bind (A B : Type) (m : M A) (k : A -> M B) :
  preserves R m -> (forall a, preserves R (k a)) -> preserves R (bind m k).
Proof.
  intros Hm Hk st. unfold bind. specialize (Hm st).
  destruct (m st) as [[a|e] st1]; simpl in Hm |- *; [|exact Hm].
  eapply frame_trans; [exact Hm | apply Hk].
Qed.

End Preserves.

Lemma total_ret (A : Type) (a : A) : total (ret a).
Proof. intros st. now exists a. Qed.

Lemma total_bind (A B : Type) (m : M A) (k : A -> M B) :
  total m -> (forall a, total (k a)) -> total (bind m k).
Proof.
  intros Hm Hk st. unfold bind. destruct (Hm st) as [a Ha].
  destruct (m st) as [r st1]. simpl in Ha. subst r. apply Hk.
Qed.

Lemma total_emit (e : event) : total (emit e).
Proof. intros st. now exists tt. Qed.

Lemma total_history : total history.
Proof. intros st. now exists (trace st). Qed.

Lemma total_alloc (v : list citation) : total (alloc v).
Proof. intros st. now exists (length (heap st)). Qed.

Lemma total_load (l : loc) : total (load l).
Proof. intros st. now exists (read (heap st) l). Qed.

Lemma total_extend (l : loc) (v : list citation) : total (extend l v).
Proof. intros st. now exists tt. Qed.

(** A run that does not raise, with its value and its final state. *)
Lemma total_run (A : Type) (m : M A) (st : state) :
  total m -> exists a st', m st = (Ok a, st').
Proof.
  intros H. destruct (H st) as [a Ha]. exists a, (snd (m st)).
  destruct (m st) as [r st']. simpl in *. now subst.
Qed.

Lemma bind_Ok (A B : Type) (m : M A) (k : A -> M B) (st st' : state) (b : B) :
  bind m k st = (Ok b, st') ->
  exists a st1, m st = (Ok a, st1) /\ k a st1 = (Ok b, st').
Proof.
  unfold bind. destruct (m st) as [[a|e] st1]; [|discriminate].
  intros H. now exists a, st1.
Qed.

Lemma bind_run (A B : Type) (m : M A) (k : A -> M B) (st st1 : state) (a : A) :
  m st = (Ok a, st1) -> bind m k st = k a st1.
Proof. intros H. unfold bind. now rewrite H. Qed.

Lemma emit_same_heap (e : event) : preserves same_heap (emit e).
Proof. intros st. reflexivity. Qed.

Lemma emit_frozen (n : nat) (e : event) : preserves (frozen n) (emit e).
Proof. intros st Hn. simpl. split; [exact Hn | reflexivity]. Qed.

Lemma emit_emits (P : event -> Prop) (e : event) : P e -> preserves (emits P) (emit e).
Proof. intros H st. exists [e]. split; [reflexivity | now constructor]. Qed.

Lemma alloc_same_trace (v : list citation) : preserves same_trace (alloc v).
Proof. intros st. reflexivity. Qed.

Lemma extend_same_trace (l : loc) (v : list citation) : preserves same_trace (extend l v).
Proof. intros st. reflexivity. Qed.

Lemma alloc_emits (P : event -> Prop) (v : list citation) : preserves (emits P) (alloc v).
Proof. intros st. exists []. simpl. now rewrite app_nil_r. Qed.

Lemma extend_emits (P : event -> Prop) (l : loc) (v : list citation) :
  preserves (emits P) (extend l v).
Proof. intros st. exists []. simpl. now rewrite app_nil_r. Qed.

Lemma read_app_old (h : list (list citation)) (v : list citation) (l : loc) :
  l < length h -> read (h ++ [v]) l = read h l.
Proof. intros H. unfold read. now rewrite app_nth1. Qed.

Lemma read_app_new (h : list (list citation)) (v : list citation) :
  read (h ++ [v]) (length h) = v.
Proof. unfold read. now rewrite nth_middle. Qed.

Lemma update_length (h : list (list citation)) (l : loc) (v : list citation) :
  length (update h l v) = length h.
Proof.
  revert l. induction h as [|x h IH]; intros l; simpl; [reflexivity|].
  destruct l; simpl; [reflexivity | now rewrite IH].
Qed.

Lemma read_update_other (h : list (list citation)) (l l' : loc) (v : list citation) :
  l <> l' -> read (update h l v) l' = read h l'.
Proof.
  unfold read. revert l l'. induction h as [|x h IH]; intros l l' Hne; simpl.
  - reflexivity.
  - destruct l, l'; simpl; trivial; [congruence | apply IH; congruence].
Qed.

Lemma read_update_same (h : list (list citation)) (l : loc) (v : list citation) :
  l < length h -> read (update h l v) l = v.
Proof.
  unfold read. revert l. induction h as [|x h IH]; intros l Hl; simpl in *; [lia|].
  destruct l; simpl; [reflexivity | apply IH; lia].
Qed.

Lemma alloc_frozen (n : nat) (v : list citation) : preserves (frozen n) (alloc v).
Proof.
  intros st Hn. simpl. rewrite length_app. split; [lia|].
  intros l Hl. apply read_app_old. lia.
Qed.

(** Extending a list outside the frozen part leaves that part alone. *)
Lemma extend_frozen (n : nat) (target : loc) (v : list citation) :
  n <= target -> preserves (frozen n) (extend target v).
Proof.
  intros Ht st Hn. simpl. rewrite update_length. split; [exact Hn|].
  intros l Hl. apply read_update_other. lia.
Qed.

Lemma preserves_bind_returns (R : state -> state -> Prop) `{frame_rel R}
    (A B : Type) (P : A -> Prop) (m : M A) (k : A -> M B) :
  preserves R m -> returns P m -> (forall a, P a -> preserves R (k a)) ->
  preserves R (bind m k).
Proof.
  intros Hm Hp Hk st. unfold bind. specialize (Hm st). specialize (Hp st).
  destruct (m st) as [[a|e] st1]; simpl in Hm |- *; [|exact Hm].
  eapply frame_trans; [exact Hm | apply Hk]. now apply (Hp a st1).
Qed.

Lemma preserves_weaken (R R' : state -> state -> Prop) (A : Type) (m : M A) :
  (forall st st', R st st' -> R' st st') -> preserves R m -> preserves R' m.
Proof. intros HR Hm st. apply HR, Hm. Qed.

Lemma same_heap_frozen (n : nat) (st st' : state) : same_heap st st' -> frozen n st st'.
Proof. unfold same_heap, frozen. intros -> Hn. now split. Qed.

Lemma same_trace_emits (P : event -> Prop) (st st' : state) :
  same_trace st st' -> emits P st st'.
Proof. unfold same_trace. intros E. exists []. now rewrite app_nil_r. Qed.

Create HintDb pipeline.

#[export] Hint Resolve preserves_ret preserves_raise preserves_history preserves_load
  emit_same_heap emit_frozen alloc_frozen alloc_emits extend_emits
  alloc_same_trace extend_same_trace
  total_ret total_emit total_history total_alloc total_load total_extend : pipeline.

(** One step through the structure of a computation. *)
Ltac pipeline_step :=
  lazymatch goal with
  | |- preserves _ (bind _ _) => apply preserves_bind; [typeclasses eauto | | intros ?]
  | |- total (bind _ _) => apply total_bind; [| intros ?]
  | |- preserves _ (match ?x with _ => _ end) => destruct x
  | |- total (match ?x with _ => _ end) => destruct x
  | |- preserves _ (emit _) => first [ solve [auto with pipeline] | apply emit_emits; exact I ]
  | |- _ => solve [auto with pipeline typeclass_instances]
  end.

Ltac pipeline_auto := repeat pipeline_step.

Section AgentFacts.

Variable W : world.

Lemma invoke_same_heap (p f : string) (args : list (string * str)) :
  preserves same_heap (invoke W p f args).
Proof. unfold invoke. pipeline_auto. Qed.

Lemma invoke_emits (P : event -> Prop) (p f : string) (args : list (string * str)) :
  P (KernelInvoke p f args) -> preserves (emits P) (invoke W p f args).
Proof.
  intros HP. unfold invoke.
  apply preserves_bind; [typeclasses eauto | pipeline_step | intros h].
  apply preserves_bind; [typeclasses eauto | now apply emit_emits | intros _].
  pipeline_step.
Qed.

Lemma invoke_total (p f : string) (args : list (string * str)) :
  total (invoke W p f args).
Proof. unfold invoke. pipeline_auto. Qed.

Hint Resolve invoke_same_heap invoke_total : pipeline.

Lemma invoke_guidance_free (p f : string) (args : list (string * str)) :
  preserves (emits guidance_free) (invoke W p f args).
Proof. now apply invoke_emits. Qed.

Hint Resolve invoke_guidance_free : pipeline.

Lemma critique_document_same_heap (t d : str) :
  preserves same_heap (critique_document W t d).
Proof. unfold critique_document. pipeline_auto. Qed.

Lemma critique_document_total (t d : str) : total (critique_document W t d).
Proof. unfold critique_document. pipeline_auto. Qed.

Lemma critique_document_guidance_free (t d : str) :
  preserves (emits guidance_free) (critique_document W t d).
Proof. unfold critique_document. pipeline_auto. Qed.

Lemma synthesise_research_same_heap (q : str) (docs : list dict) :
  preserves same_heap (synthesise_research W q docs).
Proof. unfold synthesise_research. pipeline_auto. Qed.

Lemma synthesise_research_total (q : str) (docs : list dict) :
  total (synthesise_research W q docs).
Proof. unfold synthesise_research. pipeline_auto. Qed.

Lemma synthesise_research_guidance_free (q : str) (docs : list dict) :
  preserves (emits guidance_free) (synthesise_research W q docs).
Proof. unfold synthesise_research. pipeline_auto. Qed.

Lemma format_report_same_heap (q r : str) :
  preserves same_heap (format_report_as_markdown W q r).
Proof. unfold format_report_as_markdown. pipeline_auto. Qed.

Lemma format_report_total (q r : str) : total (format_report_as_markdown W q r).
Proof. unfold format_report_as_markdown. pipeline_auto. Qed.

Lemma format_report_guidance_free (q r : str) :
  preserves (emits guidance_free) (format_report_as_markdown W q r).
Proof. unfold format_report_as_markdown. pipeline_auto. Qed.

Lemma save_report_guidance_free (r q : str) :
  preserves (emits guidance_free) (save_report W r q).
Proof. unfold save_report. pipeline_auto. Qed.

Lemma generate_plan_guidance_free (q : str) :
  preserves (emits guidance_free) (generate_plan W q).
Proof. unfold generate_plan. pipeline_auto. Qed.

Lemma clarify_query_guidance_free (q p : str) :
  preserves (emits guidance_free) (clarify_query W q p).
Proof. unfold clarify_query. pipeline_auto. Qed.

Lemma clarifying_questions_guidance_free (q : str) :
  preserves (emits guidance_free) (generate_clarifying_questions W q).
Proof. unfold generate_clarifying_questions. pipeline_auto. Qed.

Lemma ui_guidance_free (q : str) :
  preserves (emits guidance_free) (ui_get_clarification_responses W q).
Proof. unfold ui_get_clarification_responses. pipeline_auto. Qed.

End AgentFacts.

#[export] Hint Resolve invoke_same_heap invoke_total invoke_guidance_free
  critique_document_same_heap critique_document_total critique_document_guidance_free
  synthesise_research_same_heap synthesise_research_total
  synthesise_research_guidance_free
  format_report_same_heap format_report_total format_report_guidance_free
  save_report_guidance_free generate_plan_guidance_free clarify_query_guidance_free
  clarifying_questions_guidance_free ui_guidance_free : pipeline.

(** ** The phases *)

Lemma update_update (h : list (list citation)) (l : loc) (a b : list citation) :
  update (update h l a) l b = update h l b.
Proof.
  revert l. induction h as [|x h IH]; intros l; simpl; [reflexivity|].
  destruct l; simpl; [reflexivity | now rewrite IH].
Qed.

Lemma update_app_last (h : list (list citation)) (a b : list citation) :
  update (h ++ [a]) (length h) b = h ++ [b].
Proof. induction h as [|x h IH]; simpl; [reflexivity | now rewrite IH]. Qed.

Lemma collected_citations_update (h : list (list citation)) (l : loc)
    (v : list citation) (docs : list critiqued_document) :
  Forall (fun doc => citations doc <> l) docs ->
  collected_citations (update h l v) docs = collected_citations h docs.
Proof.
  intros H. unfold collected_citations. f_equal. apply map_ext_in.
  intros d Hd. rewrite Forall_forall in H. apply read_update_other.
  intros E. apply (H d Hd). now symmetry.
Qed.

Lemma collected_citations_app (h : list (list citation)) (v : list citation)
    (docs : list critiqued_document) :
  Forall (fun doc => citations doc < length h) docs ->
  collected_citations (h ++ [v]) docs = collected_citations h docs.
Proof.
  intros H. unfold collected_citations. f_equal. apply map_ext_in.
  intros d Hd. rewrite Forall_forall in H. apply read_app_old. now apply H.
Qed.

Lemma update_same (h : list (list citation)) (l : loc) :
  l < length h -> update h l (read h l) = h.
Proof.
  revert l. induction h as [|x h IH]; intros l Hl; simpl in *; [lia|].
  destruct l; [reflexivity|]. unfold read in *. simpl. f_equal. apply IH. lia.
Qed.

Section PhaseFacts.

Variable W : world.

(** The critique phase never raises; it appends one document per research
    output, in order, with the output's task, text and citation list, and
    leaves the heap alone. *)
Lemma critique_loop_run (outs : list research_output)
    (acc : list critiqued_document) (st : state) :
  exists docs st',
    critique_loop W outs acc st = (Ok (acc ++ docs), st')
    /\ map task docs = map r_task outs
    /\ map original docs = map r_content outs
    /\ map citations docs = map r_citations outs
    /\ heap st' = heap st.
Proof.
  revert acc st. induction outs as [|o outs IH]; intros acc st.
  - exists [], st. simpl. rewrite app_nil_r. repeat split; reflexivity.
  - destruct (total_run _ (critique_document W (r_task o) (r_content o)) st
                (critique_document_total W _ _)) as (c & st1 & E).
    pose proof (critique_document_same_heap W (r_task o) (r_content o) st) as Hh.
    rewrite E in Hh. simpl in Hh. unfold same_heap in Hh.
    destruct (IH (acc ++ [{| task := r_task o; original := r_content o;
                            critique := c; citations := r_citations o |}]) st1)
      as (docs & st' & E' & Ht & Ho & Hc & Hheap).
    exists ({| task := r_task o; original := r_content o;
               critique := c; citations := r_citations o |} :: docs), st'.
    simpl. unfold bind. rewrite E, E', <- app_assoc. simpl.
    rewrite Ht, Ho, Hc, Hheap, Hh. repeat split; reflexivity.
Qed.

Lemma collect_citations_run (docs : list critiqued_document) (l : loc) (st : state) :
  l < length (heap st) ->
  Forall (fun doc => citations doc <> l) docs ->
  collect_citations docs l st =
  (Ok tt, {| heap := update (heap st) l
                       (read (heap st) l ++ collected_citations (heap st) docs);
             trace := trace st |}).
Proof.
  revert st. induction docs as [|d docs IH]; intros st Hl Hd.
  - simpl. unfold ret, collected_citations. simpl. rewrite app_nil_r.
    rewrite update_same by assumption. now destruct st.
  - inversion Hd as [|? ? Hne Hrest]; subst. simpl. unfold bind, load, extend. simpl.
    rewrite IH; simpl.
    + rewrite update_update, read_update_same by assumption.
      rewrite collected_citations_update by assumption.
      unfold collected_citations. simpl. now rewrite <- app_assoc.
    + now rewrite update_length.
    + exact Hrest.
Qed.

(** The synthesis phase on a non-empty list of documents: the synthesiser's
    answer, with the collected citations attached. *)
Lemma synthesis_phase_run (q : str) (docs : list critiqued_document) (st : state) :
  docs <> [] ->
  Forall (fun doc => citations doc < length (heap st)) docs ->
  exists s st',
    synthesise_research W q (map doc_for_synthesis docs)
      {| heap := heap st ++ [collected_citations (heap st) docs]; trace := trace st |}
    = (Ok s, st')
    /\ _handle_synthesis_phase W q docs st
       = (Ok (attach_citations s (collected_citations (heap st) docs)), st').
Proof.
  intros Hne Hv.
  set (st1 := {| heap := heap st ++ [collected_citations (heap st) docs];
                 trace := trace st |}).
  destruct (total_run _ (synthesise_research W q (map doc_for_synthesis docs)) st1
              (synthesise_research_total W _ _)) as (s & st' & E).
  exists s, st'. split; [exact E|].
  pose proof (synthesise_research_same_heap W q (map doc_for_synthesis docs) st1) as Hh.
  rewrite E in Hh. simpl in Hh. unfold same_heap in Hh.
  unfold _handle_synthesis_phase.
  erewrite bind_run by reflexivity.
  erewrite bind_run.
  2:{ apply collect_citations_run; simpl.
      - rewrite length_app. simpl. lia.
      - eapply Forall_impl; [|exact Hv]. simpl. intros d Hd. lia. }
  simpl heap. simpl trace.
  rewrite read_app_new, collected_citations_app, update_app_last by assumption.
  simpl app. fold st1.
  destruct docs as [|d docs]; [congruence|].
  change (map doc_for_synthesis (d :: docs))
    with (doc_for_synthesis d :: map doc_for_synthesis docs) in E |- *.
  cbv iota. erewrite bind_run by exact E.
  unfold bind, load, ret. rewrite Hh. unfold st1. simpl heap.
  now rewrite read_app_new.
Qed.

End PhaseFacts.

(** * The claims *)

(** ** URL normalisation (C6) *)

(** A [?utm_source=] suffix is cut off at its first occurrence. *)
Lemma clean_url_strips_source (u : str) :
  is_in UTM_SOURCE u = true ->
  exists post, u = clean_url u ++ UTM_SOURCE ++ post.
Proof.
  intros H. rewrite clean_url_unfold, H. unfold is_in in H.
  destruct (find u UTM_SOURCE) as [i|] eqn:E; [|discriminate].
  rewrite (item0_split_find u UTM_SOURCE i ltac:(discriminate) E).
  exists (skipn (i + length UTM_SOURCE) u). apply (find_parts _ _ _ E).
Qed.

(** A URL without question mark is its own normal form. *)
Lemma clean_url_plain (u : str) : ~ In QMARK u -> clean_url u = u.
Proof.
  intros H. apply clean_url_fixed;
    [now apply no_qmark_no_source | now apply no_qmark_untracked].
Qed.

(** C6, counterexample: a URL whose text before [?utm_source=] holds a
    query with a tracking parameter.  The first pass cuts the suffix, the
    second removes the tracking parameter: two passes differ from one. *)
Lemma clean_url_not_idempotent :
  clean_url (py "http://a.com/p?x=1&utm_medium=e?utm_source=foo")
    = py "http://a.com/p?x=1&utm_medium=e"
  /\ clean_url (clean_url (py "http://a.com/p?x=1&utm_medium=e?utm_source=foo"))
    = py "http://a.com/p?x=1"
  /\ clean_url (clean_url (py "http://a.com/p?x=1&utm_medium=e?utm_source=foo"))
     <> clean_url (py "http://a.com/p?x=1&utm_medium=e?utm_source=foo").
Proof. vm_compute. repeat split; discriminate. Qed.

(** C6, amended: normalisation is idempotent on every URL in which the text
    before the first [?utm_source=], if there is one, does not hold both a
    question mark and a [&utm_] or [&amp;utm_]; and a [?utm_source=] suffix
    is cut off outright. *)
Theorem clean_url_idempotent (u : str) :
  (is_in UTM_SOURCE u = true ->
   has_tracked_query (item 0 (split u UTM_SOURCE)) = false) ->
  clean_url (clean_url u) = clean_url u
  /\ (is_in UTM_SOURCE u = true -> exists post, u = clean_url u ++ UTM_SOURCE ++ post).
Proof.
  intros H. split; [|apply clean_url_strips_source].
  destruct (is_in UTM_SOURCE u) eqn:E.
  - rewrite (clean_url_unfold u), E. apply clean_url_fixed.
    + apply item0_split_clean; [discriminate | exact E].
    + now apply H.
  - now apply clean_url_idempotent_no_source.
Qed.

Lemma clean_url_idempotent_witness :
  clean_url (clean_url (py "http://a.com/p?utm_source=foo"))
    = clean_url (py "http://a.com/p?utm_source=foo")
  /\ (is_in UTM_SOURCE (py "http://a.com/p?utm_source=foo") = true ->
      exists post, py "http://a.com/p?utm_source=foo"
                   = clean_url (py "http://a.com/p?utm_source=foo") ++ UTM_SOURCE ++ post).
Proof.
  apply (clean_url_idempotent (py "http://a.com/p?utm_source=foo")).
  intros _. vm_compute. reflexivity.
Defined.

(** ** Citation merge (C7) *)

(** C7, counterexample: the only citation of the list has an empty URL; it
    is dropped although no citation occurred before it. *)
Lemma merge_drops_citation_without_url :
  merge_citations [url_less_citation] = []
  /\ ~ In (stored_entry url_less_citation) (merge_citations [url_less_citation]).
Proof. vm_compute. split; [reflexivity | tauto]. Qed.

(** C7, amended: a citation is kept, under its cleaned URL, whenever that
    URL is not empty and no earlier citation of the list has the same
    cleaned URL; a URL without question mark is its own cleaned form. *)
Theorem merge_keeps_first_occurrence (cs : list citation) (i : nat) (c : citation) :
  nth_error cs i = Some c ->
  normal_url c <> [] ->
  (forall j c', j < i -> nth_error cs j = Some c' -> normal_url c' <> normal_url c) ->
  In (stored_entry c) (merge_citations cs)
  /\ (~ In QMARK (get_or [] (url c)) -> normal_url c = get_or [] (url c)).
Proof.
  intros Hi Hne Hfirst. split.
  - apply merge_citations_In. exists (normal_url c).
    now apply (dedupe_first cs [] i c).
  - intros Hq. now apply clean_url_plain.
Qed.

Lemma merge_keeps_first_occurrence_witness :
  In (stored_entry plain_citation) (merge_citations three_citations)
  /\ (~ In QMARK (get_or [] (url plain_citation)) ->
      normal_url plain_citation = get_or [] (url plain_citation)).
Proof.
  apply (merge_keeps_first_occurrence three_citations 2 plain_citation).
  - reflexivity.
  - vm_compute. discriminate.
  - intros j c' Hj Hc'. destruct j as [|[|j]]; [| |lia];
      simpl in Hc'; injection Hc' as <-; vm_compute; discriminate.
Defined.

(** The merged list holds the entries of the input's citations only, each
    with a non-empty URL. *)
Lemma merge_from_input (cs : list citation) (e : citation) :
  In e (merge_citations cs) ->
  exists c, In c cs /\ e = stored_entry c /\ normal_url c <> [].
Proof.
  intros H. apply merge_citations_In in H. destruct H as [k H].
  apply dedupe_from in H. destruct H as [[]|(c & Hc & E & Hne)].
  exists c. split; [exact Hc|]. split; [congruence | exact Hne].
Qed.

(** ** Task extraction (C8) *)

Lemma strip_incl (s : str) : incl (strip s) s.
Proof.
  intros x Hx. apply lstrip_incl. unfold strip in Hx.
  destruct (rstrip_split (lstrip s)) as [t Ht]. rewrite Ht.
  apply in_or_app. now left.
Qed.




(** ** The citations section of the synthesis (C3) *)

Lemma attach_citations_error (s : str) (cs : list citation) :
  startswith s (py "Error:") = true -> attach_citations s cs = s.
Proof. intros H. unfold attach_citations. now rewrite H. Qed.

(** Without collected citations nothing is attached. *)
Lemma attach_citations_none (s : str) : attach_citations s [] = s.
Proof. unfold attach_citations. now rewrite andb_false_r. Qed.

Lemma attach_citations_notice (s : str) (cs : list citation) :
  startswith s (py "Error:") = false -> cs <> [] -> merge_citations cs = [] ->
  attach_citations s cs = s ++ NL ++ NL ++ SOURCES_HEADING ++ NL ++ NL ++ NO_CITATIONS_NOTICE.
Proof.
  intros He Hc Hm. unfold attach_citations. rewrite He, Hm.
  destruct cs; [congruence|]. simpl. now rewrite <- !app_assoc.
Qed.

(** C3, counterexample: the end-to-end scenario.  The research result has
    no citation, the synthesis succeeds, and the synthesised report is the
    synthesiser's text as it is: no citations section, no notice. *)
Lemma synthesis_without_citations_has_no_section :
  fst (_handle_synthesis_phase capital_world (py "capital of France")
         [capital_document] capital_state)
    = Ok (py "Paris is the capital of France.")
  /\ merge_citations (collected_citations (heap capital_state) [capital_document]) = []
  /\ is_in SOURCES_HEADING (py "Paris is the capital of France.") = false.
Proof. vm_compute. repeat split; reflexivity. Qed.

(** C3, amended: whenever the synthesis returns a non-error report, at least
    one citation was collected from the documents and the merged set is
    empty, the report is the synthesiser's text followed by the citations
    heading and the notice. *)
Theorem synthesis_adds_notice (W : world) (q : str) (docs : list critiqued_document)
    (st st' : state) (report : str) :
  _handle_synthesis_phase W q docs st = (Ok report, st') ->
  Forall (fun doc => citations doc < length (heap st)) docs ->
  startswith report (py "Error:") = false ->
  collected_citations (heap st) docs <> [] ->
  merge_citations (collected_citations (heap st) docs) = [] ->
  exists s,
    synthesise_research W q (map doc_for_synthesis docs)
      {| heap := heap st ++ [collected_citations (heap st) docs]; trace := trace st |}
    = (Ok s, st')
    /\ startswith s (py "Error:") = false
    /\ report = s ++ NL ++ NL ++ SOURCES_HEADING ++ NL ++ NL ++ NO_CITATIONS_NOTICE.
Proof.
  intros Hrun Hv Herr Hc Hm.
  assert (Hne : docs <> []) by (intros ->; now apply Hc).
  destruct (synthesis_phase_run W q docs st Hne Hv) as (s & st2 & Es & Ep).
  rewrite Ep in Hrun. injection Hrun as <- <-. exists s.
  destruct (startswith s (py "Error:")) eqn:E.
  - rewrite attach_citations_error in Herr by assumption. congruence.
  - repeat split; trivial. now apply attach_citations_notice.
Qed.

Lemma synthesis_adds_notice_witness :
  exists s,
    synthesise_research capital_world (py "capital of France")
      (map doc_for_synthesis [capital_document])
      {| heap := heap url_less_state
                   ++ [collected_citations (heap url_less_state) [capital_document]];
         trace := trace url_less_state |}
    = (Ok s, snd (_handle_synthesis_phase capital_world (py "capital of France")
                    [capital_document] url_less_state))
    /\ startswith s (py "Error:") = false
    /\ py "Paris is the capital of France." ++ NL ++ NL ++ SOURCES_HEADING ++ NL ++ NL
         ++ NO_CITATIONS_NOTICE
       = s ++ NL ++ NL ++ SOURCES_HEADING ++ NL ++ NL ++ NO_CITATIONS_NOTICE.
Proof.
  apply (synthesis_adds_notice capital_world (py "capital of France")
           [capital_document] url_less_state).
  - vm_compute. reflexivity.
  - repeat constructor.
  - vm_compute. reflexivity.
  - vm_compute. discriminate.
  - vm_compute. reflexivity.
Defined.

(** ** The writing phase (C5) *)

Lemma occurs_in_refl (s : str) : occurs_in s s.
Proof. exists [], []. now rewrite app_nil_r. Qed.

Lemma occurs_in_trans (a b c : str) : occurs_in a b -> occurs_in b c -> occurs_in a c.
Proof.
  intros (p1 & q1 & ->) (p2 & q2 & ->). exists (p2 ++ p1), (q1 ++ q2).
  now rewrite <- !app_assoc.
Qed.

Lemma occurs_in_is_in (x t s : str) :
  occurs_in t s -> is_in x s = false -> is_in x t = false.
Proof.
  intros (pre & post & ->) H. apply not_true_iff_false. intros Hx.
  apply not_true_iff_false in H. apply H.
  apply is_in_app_r, is_in_app_l, Hx.
Qed.

Lemma strip_occurs (s : str) : occurs_in (strip s) s.
Proof.
  unfold strip, lstrip. destruct (dropwhile_split isspace s) as (a & Ha & _).
  destruct (rstrip_split (dropwhile isspace s)) as [t Ht].
  exists a, t. now rewrite <- Ht.
Qed.











(** ** The critique phase (C10) *)

Lemma bind_ext (A B : Type) (m : M A) (k1 k2 : A -> M B) (st : state) :
  (forall a st1, m st = (Ok a, st1) -> k1 a st1 = k2 a st1) ->
  bind m k1 st = bind m k2 st.
Proof.
  intros H. unfold bind. destruct (m st) as [[a|e] st1]; [|reflexivity].
  now apply H.
Qed.

(** The critique phase of a non-empty list of research outputs returns a
    non-empty list. *)
Lemma critique_phase_not_empty (W : world) (o : research_output)
    (outs : list research_output) (st st' : state) (docs : list critiqued_document) :
  _handle_critique_phase W (o :: outs) st = (Ok docs, st') -> docs <> [].
Proof.
  intros H. unfold _handle_critique_phase in H.
  destruct (critique_loop_run W (o :: outs) [] st) as (docs' & st2 & E & Ht & _).
  rewrite E in H. injection H as <- _. simpl. destruct docs'; discriminate.
Qed.

(** The halt on an empty list of critiqued documents is dead code: the
    pipeline runs the same whatever stands in its place. *)
Lemma no_critiques_halt_unreachable (W : world) (halt : M pipeline_result)
    (q : str) (st : state) :
  pipeline_with W halt q st = execute_research_pipeline W q st.
Proof.
  unfold execute_research_pipeline, pipeline_with.
  apply bind_ext. intros [cq ci] st1 _.
  apply bind_ext. intros [plan|plan ins] st2 _; [|reflexivity].
  destruct (startswith plan (py "Error:")); [reflexivity|].
  apply bind_ext. intros [|o outs] st3 _; [reflexivity|].
  apply bind_ext. intros [|d docs] st4 E; [|reflexivity].
  exfalso. exact (critique_phase_not_empty W o outs st3 st4 [] E eq_refl).
Qed.

(** C10: for a non-empty list of research outputs the critique phase
    returns, without raising, one critiqued document per output, in order,
    each with the output's task, text and citation list; the list is
    therefore not empty, and the halt of the pipeline on an empty list of
    critiqued documents is never taken: the pipeline behaves the same
    whatever is put in the place of that halt. *)
Theorem critique_phase_keeps_every_output (W : world) (outs : list research_output)
    (st : state) :
  outs <> [] ->
  exists docs st',
    _handle_critique_phase W outs st = (Ok docs, st')
    /\ length docs = length outs
    /\ map task docs = map r_task outs
    /\ map original docs = map r_content outs
    /\ map citations docs = map r_citations outs
    /\ docs <> []
    /\ forall halt q st0,
         pipeline_with W halt q st0 = execute_research_pipeline W q st0.
Proof.
  intros Hne. unfold _handle_critique_phase.
  destruct (critique_loop_run W outs [] st) as (docs & st' & E & Ht & Ho & Hc & _).
  exists docs, st'. simpl in E. repeat split; trivial.
  - rewrite <- (length_map task docs), Ht. apply length_map.
  - intros ->. destruct outs; [congruence | discriminate].
  - intros halt q st0. apply no_critiques_halt_unreachable.
Qed.

Lemma critique_phase_keeps_every_output_witness :
  exists docs st',
    _handle_critique_phase capital_world [capital_output] capital_state = (Ok docs, st')
    /\ length docs = length [capital_output]
    /\ map task docs = map r_task [capital_output]
    /\ map original docs = map r_content [capital_output]
    /\ map citations docs = map r_citations [capital_output]
    /\ docs <> []
    /\ forall halt q st0,
         pipeline_with capital_world halt q st0
         = execute_research_pipeline capital_world q st0.
Proof.
  apply (critique_phase_keeps_every_output capital_world [capital_output] capital_state).
  discriminate.
Defined.

(** ** Citation lists are never changed (C9) *)

Lemma collect_citations_frozen (n : nat) (docs : list critiqued_document) (l : loc) :
  n <= l -> preserves (frozen n) (collect_citations docs l).
Proof.
  intros Hl. induction docs as [|d docs IH]; simpl.
  - pipeline_auto.
  - apply preserves_bind; [typeclasses eauto | pipeline_step | intros cs].
    apply preserves_bind; [typeclasses eauto | now apply extend_frozen | intros _].
    exact IH.
Qed.

Lemma agent_frozen (n : nat) (A : Type) (m : M A) :
  preserves same_heap m -> preserves (frozen n) m.
Proof. apply preserves_weaken. apply same_heap_frozen. Qed.

(** The synthesis phase leaves every list that exists when it starts as it
    is: it writes to the list that it creates only. *)
Lemma synthesis_phase_frozen (W : world) (q : str) (docs : list critiqued_document)
    (st : state) :
  frozen (length (heap st)) st (snd (_handle_synthesis_phase W q docs st)).
Proof.
  unfold _handle_synthesis_phase.
  erewrite bind_run by reflexivity.
  set (n := length (heap st)).
  set (st1 := {| heap := heap st ++ [[]]; trace := trace st |}).
  apply (frame_trans (R := frozen n)) with (b := st1).
  - apply (alloc_frozen n [] st).
  - clearbody st1. revert st1. change (preserves (frozen n)
      (bind (collect_citations docs n)
         (fun _ => match map doc_for_synthesis docs with
                   | [] => ret (py "Error: No critiqued documents provided for synthesis.")
                   | _ :: _ =>
                       bind (synthesise_research W q (map doc_for_synthesis docs))
                         (fun s => bind (load n)
                                     (fun c => ret (attach_citations s c)))
                   end))).
    apply preserves_bind; [typeclasses eauto | now apply collect_citations_frozen | intros _].
    destruct (map doc_for_synthesis docs); [pipeline_auto|].
    apply preserves_bind; [typeclasses eauto | | intros s; pipeline_auto].
    apply agent_frozen, synthesise_research_same_heap.
Qed.

(** C9: a critiqued document carries the very citation list of the research
    output it was made from, and no later phase changes a list that
    exists: after the critique phase, after the synthesis phase (which
    collects into a list of its own) and after the writing phase, every
    list of the heap reads as before. *)
Theorem citation_lists_are_never_changed (W : world) (outs : list research_output)
    (q r : str) (st st1 : state) (docs : list critiqued_document) (l : loc) :
  _handle_critique_phase W outs st = (Ok docs, st1) ->
  l < length (heap st) ->
  map citations docs = map r_citations outs
  /\ read (heap st1) l = read (heap st) l
  /\ read (heap (snd (_handle_synthesis_phase W q docs st1))) l = read (heap st) l
  /\ read (heap (snd (_handle_writing_phase W q r
                        (snd (_handle_synthesis_phase W q docs st1))))) l
     = read (heap st) l.
Proof.
  intros Hc Hl. unfold _handle_critique_phase in Hc.
  destruct (critique_loop_run W outs [] st) as (docs' & st' & E & _ & _ & Hcit & Hheap).
  rewrite E in Hc. injection Hc as <- <-. simpl.
  pose proof (synthesis_phase_frozen W q docs' st') as Hs.
  destruct (Hs (le_n _)) as [_ Hs']. rewrite Hheap in Hs'.
  pose proof (format_report_same_heap W q r
                (snd (_handle_synthesis_phase W q docs' st'))) as Hw.
  unfold same_heap in Hw. unfold _handle_writing_phase. rewrite Hw, Hheap.
  repeat split; auto.
Qed.

Lemma citation_lists_are_never_changed_witness :
  map citations
      (match fst (_handle_critique_phase capital_world [capital_output] cited_state) with
       | Ok docs => docs
       | Raise _ => []
       end)
    = map r_citations [capital_output]
  /\ read (heap (snd (_handle_critique_phase capital_world [capital_output] cited_state))) 0
     = read (heap cited_state) 0
  /\ read (heap (snd (_handle_synthesis_phase capital_world (py "q")
                        (match fst (_handle_critique_phase capital_world
                                      [capital_output] cited_state) with
                         | Ok docs => docs
                         | Raise _ => []
                         end)
                        (snd (_handle_critique_phase capital_world
                                [capital_output] cited_state))))) 0
     = read (heap cited_state) 0
  /\ read (heap (snd (_handle_writing_phase capital_world (py "q") (py "report")
                        (snd (_handle_synthesis_phase capital_world (py "q")
                                (match fst (_handle_critique_phase capital_world
                                              [capital_output] cited_state) with
                                 | Ok docs => docs
                                 | Raise _ => []
                                 end)
                                (snd (_handle_critique_phase capital_world
                                        [capital_output] cited_state))))))) 0
     = read (heap cited_state) 0.
Proof.
  apply (citation_lists_are_never_changed capital_world [capital_output]
           (py "q") (py "report") cited_state).
  - vm_compute. reflexivity.
  - vm_compute. lia.
Defined.

(** ** The prompt of the synthesiser (C1, C2) *)

(** The orchestrator stores the critique under ["content"]; the synthesiser
    reads ["critique_text"].  The block of a document therefore never holds
    its critique, nor the skip notice: it holds [N/A]. *)
Lemma formatted_block_ignores_critique (i : nat) (doc : critiqued_document) :
  format_critique i (doc_for_synthesis doc)
  = py "Critiqued Document " ++ str_of_nat (i + 1) ++ py ":" ++ NL
      ++ py "Original Task: " ++ task doc ++ NL
      ++ (py "Critique:" ++ NL ++ py "N/A" ++ NL)
      ++ py "---" ++ NL.
Proof. reflexivity. Qed.

Lemma ends_app (A : Type) (x y s : list A) :
  (exists g, y = g ++ s) -> exists g, x ++ y = g ++ s.
Proof. intros [g ->]. exists (x ++ g). apply app_assoc. Qed.

Lemma format_critiques_ends (i : nat) (docs : list dict) :
  docs <> [] -> exists g, format_critiques_from i docs = g ++ py "---" ++ NL.
Proof.
  revert i. induction docs as [|d docs IH]; intros i Hne; [congruence|].
  destruct docs as [|d' docs].
  - change (format_critiques_from i [d]) with (format_critique i d ++ []).
    rewrite app_nil_r. unfold format_critique.
    do 8 apply ends_app. now exists [].
  - destruct (IH (S i) ltac:(discriminate)) as [g Hg].
    exists (format_critique i d ++ g).
    change (format_critiques_from i (d :: d' :: docs))
      with (format_critique i d ++ format_critiques_from (S i) (d' :: docs)).
    rewrite Hg. now rewrite app_assoc.
Qed.

Lemma app_eq_suffix (A : Type) (pre t g u : list A) :
  pre ++ t = g ++ u -> length u <= length t -> exists x, t = x ++ u.
Proof.
  intros H Hl.
  assert (Hlen : length pre + length t = length g + length u)
    by (rewrite <- !length_app; now rewrite H).
  exists (skipn (length pre) g).
  assert (E : t = skipn (length pre) (pre ++ t)).
  { rewrite skipn_app, skipn_all, Nat.sub_diag. reflexivity. }
  rewrite E at 1. rewrite H, skipn_app.
  replace (length pre - length g) with 0 by lia. reflexivity.
Qed.

Lemma forallb_last_false (A : Type) (f : A -> bool) (l : list A) (d : A) :
  l <> [] -> f (last l d) = false -> forallb f l = false.
Proof.
  induction l as [|x l IH]; [congruence|]. intros _ H.
  destruct l as [|y l]; simpl in *.
  - now rewrite H.
  - rewrite IH; [apply andb_false_r | discriminate | exact H].
Qed.

(** A piece without rule at the end of a text that ends with a rule and a
    newline is too short to hold the status line. *)
Lemma short_last_piece (f g pre t : str) :
  f = g ++ py "---" ++ NL -> f = pre ++ t -> is_in (py "---") t = false ->
  is_in SKIPPED_STATUS t = false.
Proof.
  intros Hg Hpre Hclean.
  destruct (is_in SKIPPED_STATUS t) eqn:E; [|reflexivity].
  apply is_in_length in E. change (length SKIPPED_STATUS) with 35 in E.
  destruct (app_eq_suffix _ pre t g (py "---" ++ NL)) as [x Hx].
  - now rewrite <- Hpre.
  - change (length (py "---" ++ NL)) with 4. lia.
  - exfalso. apply not_true_iff_false in Hclean. apply Hclean.
    apply is_in_iff. exists x, NL. exact Hx.
Qed.

(** The test for skipped critiques never succeeds: the formatted text ends
    with a rule and a newline, so its last piece between rules cannot hold
    the status line. *)
Lemma all_critiques_skipped_never (docs : list dict) :
  docs <> [] -> all_critiques_skipped (_format_critiques_for_prompt docs) = false.
Proof.
  intros Hne. unfold all_critiques_skipped, _format_critiques_for_prompt.
  destruct docs as [|d docs]; [congruence|].
  destruct (format_critiques_ends 0 (d :: docs) Hne) as [g Hg].
  apply (forallb_last_false _ _ _ []); [apply split_not_nil; discriminate|].
  destruct (split_last (format_critiques_from 0 (d :: docs)) (py "---")
              ltac:(discriminate)) as [[pre Hpre] Hclean].
  exact (short_last_piece _ g pre _ Hg Hpre Hclean).
Qed.

(** X3: whatever the critiques are, the synthesiser calls the language
    model on a non-empty list of documents. *)
Lemma synthesise_research_always_invokes (W : world) (q : str) (d : dict)
    (docs : list dict) (st : state) :
  trace (snd (synthesise_research W q (d :: docs) st))
  = trace st ++ [KernelInvoke "SynthesiserAgent" "SynthesiseCritiques"
                   [("overall_user_query"%string, q);
                    ("formatted_critiques"%string,
                     _format_critiques_for_prompt (d :: docs))]].
Proof.
  unfold synthesise_research.
  rewrite (all_critiques_skipped_never (d :: docs) ltac:(discriminate)).
  unfold invoke, bind, history, emit, ret. simpl.
  destruct (kernel_invoke W (trace st) _ _ _); reflexivity.
Qed.

(** C1, at the failing input: one critiqued document with a real critique.
    The text handed to the synthesis capability holds the task, but
    [N/A] in the place of the critique. *)
Theorem synthesis_prompt_omits_critique :
  trace (snd (_handle_synthesis_phase capital_world (py "capital of France")
                [capital_document] capital_state))
  = [KernelInvoke "SynthesiserAgent" "SynthesiseCritiques"
       [("overall_user_query"%string, py "capital of France");
        ("formatted_critiques"%string,
         py "Critiqued Document 1:" ++ NL ++ py "Original Task: capital of France" ++ NL
           ++ py "Critique:" ++ NL ++ py "N/A" ++ NL ++ py "---" ++ NL)]]
  /\ is_in (critique capital_document)
       (_format_critiques_for_prompt (map doc_for_synthesis [capital_document])) = false.
Proof. vm_compute. split; reflexivity. Qed.

(** C2, at the failing input: two documents, both critiques being the skip
    placeholder.  The synthesis phase calls the synthesis capability and
    returns its answer; no error is reported. *)
Theorem all_skipped_still_invokes_synthesis :
  forallb (fun doc => startswith (critique doc) SKIP_PREFIX) skipped_documents = true
  /\ fst (_handle_synthesis_phase capital_world (py "q") skipped_documents skipped_state)
     = Ok (py "Paris is the capital of France.")
  /\ trace (snd (_handle_synthesis_phase capital_world (py "q") skipped_documents
                   skipped_state))
     = [KernelInvoke "SynthesiserAgent" "SynthesiseCritiques"
          [("overall_user_query"%string, py "q");
           ("formatted_critiques"%string,
            _format_critiques_for_prompt (map doc_for_synthesis skipped_documents))]].
Proof. vm_compute. repeat split; reflexivity. Qed.

(** ** Guidance hints (C4) *)

Lemma dropwhile_keeps (f : ascii -> bool) (x y : str) (c : ascii) :
  f c = false -> dropwhile f (x ++ c :: y) <> [].
Proof.
  intros Hc. induction x as [|a x IH]; simpl.
  - rewrite Hc. discriminate.
  - destruct (f a); [exact IH | discriminate].
Qed.

Lemma strip_not_empty (c : ascii) (t : str) :
  isspace c = false -> strip (c :: t) <> [].
Proof.
  intros Hc. unfold strip, lstrip, rstrip. rewrite dropwhile_stop by assumption.
  simpl rev. intros H. apply (f_equal (@rev ascii)) in H.
  rewrite rev_involutive in H. simpl in H.
  exact (dropwhile_keeps isspace (rev t) [] c Hc H).
Qed.

(** A reply that starts with [QUESTIONS:] always gives hints. *)
Lemma insights_not_empty (reply : str) :
  startswith reply (py "QUESTIONS:") = true ->
  is_empty (extract_clarification_insights reply) = false.
Proof.
  intros H. apply startswith_iff in H. destruct H as [t ->].
  unfold extract_clarification_insights.
  change (py "QUESTIONS:" ++ t) with ("Q"%char :: (py "UESTIONS:" ++ t)).
  destruct (strip ("Q"%char :: py "UESTIONS:" ++ t)) eqn:E.
  - exfalso. exact (strip_not_empty "Q"%char _ eq_refl E).
  - reflexivity.
Qed.

Section Guidance.

Variable W : world.

Lemma clarification_insights_empty (q : str) :
  returns (fun p => snd p = []) (_handle_clarification_phase W q).
Proof.
  intros st [cq ci] st' H. unfold _handle_clarification_phase, bind in H.
  destruct (generate_clarifying_questions W q st) as [[questions|e] st1]; [|discriminate].
  destruct (startswith questions (py "Error:")).
  - unfold ret in H. now injection H as _ <- _.
  - destruct (ui_get_clarification_responses W questions st1) as [[uc|e] st2];
      [|discriminate].
    unfold ret in H. now injection H as _ <- _.
Qed.

Lemma research_call_guidance_free (t : str) :
  preserves (emits guidance_free) (researcher_perform_research_task W t None []).
Proof.
  unfold researcher_perform_research_task.
  apply preserves_bind; [typeclasses eauto | pipeline_step | intros h].
  apply preserves_bind; [typeclasses eauto | | intros _; pipeline_step].
  apply emit_emits. reflexivity.
Qed.

Lemma research_loop_guidance_free (tasks : list str) (acc : list research_output) :
  preserves (emits guidance_free) (research_loop W tasks [] acc).
Proof.
  revert acc. induction tasks as [|t tasks IH]; intros acc; simpl.
  - pipeline_step.
  - apply preserves_bind;
      [typeclasses eauto | apply research_call_guidance_free | intros reply].
    destruct reply;
      (apply preserves_bind; [typeclasses eauto | pipeline_step | intros l; apply IH]).
Qed.

Lemma critique_loop_guidance_free (outs : list research_output)
    (acc : list critiqued_document) :
  preserves (emits guidance_free) (critique_loop W outs acc).
Proof.
  revert acc. induction outs as [|o outs IH]; intros acc; simpl.
  - pipeline_step.
  - apply preserves_bind; [typeclasses eauto | pipeline_step | intros c; apply IH].
Qed.

Lemma collect_citations_guidance_free (docs : list critiqued_document) (l : loc) :
  preserves (emits guidance_free) (collect_citations docs l).
Proof.
  induction docs as [|d docs IH]; simpl.
  - pipeline_step.
  - apply preserves_bind; [typeclasses eauto | pipeline_step | intros cs].
    apply preserves_bind; [typeclasses eauto | pipeline_step | intros _; exact IH].
Qed.

Hint Resolve research_loop_guidance_free critique_loop_guidance_free
  collect_citations_guidance_free : pipeline.

Lemma handle_error_guidance_free (q msg : str) :
  preserves (emits guidance_free) (_handle_error W q msg).
Proof. unfold _handle_error. pipeline_auto. Qed.

Hint Resolve handle_error_guidance_free : pipeline.

(** X2: in every run, every call of the research capability is made with
    an empty guidance: the hints never reach it. *)
Lemma pipeline_guidance_free (q : str) :
  preserves (emits guidance_free) (execute_research_pipeline W q).
Proof.
  unfold execute_research_pipeline, pipeline_with.
  apply (preserves_bind_returns (emits guidance_free) _ _
           (fun p => snd p = []) _ _);
    [ unfold _handle_clarification_phase; pipeline_auto
    | apply clarification_insights_empty | intros [cq ci] Hci ].
  simpl in Hci. subst ci.
  apply preserves_bind; [typeclasses eauto | | intros plan].
  - unfold _handle_planning_phase. pipeline_auto.
  - destruct plan as [plan|plan ins]; [|pipeline_step].
    destruct (startswith plan (py "Error:")); [pipeline_step|].
    apply preserves_bind; [typeclasses eauto | | intros outs].
    + unfold _handle_research_phase.
      destruct (extract_research_tasks_from_plan plan); pipeline_step.
    + destruct outs as [|o outs]; [pipeline_step|].
      apply preserves_bind; [typeclasses eauto | | intros docs].
      * unfold _handle_critique_phase. pipeline_step.
      * destruct docs as [|d docs]; [pipeline_step|].
        apply preserves_bind; [typeclasses eauto | | intros report].
        -- unfold _handle_synthesis_phase. pipeline_auto.
        -- destruct (startswith report (py "Error:")); [pipeline_step|].
           unfold _handle_writing_phase. pipeline_auto.
Qed.

(** X5: whenever the plan-clarity capability answers with questions, the
    run ends there with an [AttributeError]: the planning phase returns a
    tuple and the pipeline calls [startswith] on it. *)
Lemma questions_reply_raises (q cq ci plan out : str) (st st1 st2 st3 : state) :
  _handle_clarification_phase W q st = (Ok (cq, ci), st1) ->
  generate_plan W cq st1 = (Ok plan, st2) ->
  startswith plan (py "Error:") = false ->
  clarify_query W cq plan st2 = (Ok out, st3) ->
  startswith out (py "QUESTIONS:") = true ->
  is_in (py "CLARIFICATION_NOT_NEEDED") out = false ->
  execute_research_pipeline W q st = (Raise AttributeError, st3).
Proof.
  intros H1 H2 Hp H3 Hq Hn.
  unfold execute_research_pipeline, pipeline_with.
  erewrite bind_run by exact H1. cbv beta iota.
  unfold _handle_planning_phase.
  unfold bind at 1. unfold bind at 1. rewrite H2, Hp.
  unfold bind at 1. rewrite H3, Hn, Hq, (insights_not_empty out Hq).
  reflexivity.
Qed.

End Guidance.

Lemma questions_reply_raises_witness :
  execute_research_pipeline questions_world (py "capital of France") initial_state
  = (Raise AttributeError,
     snd (execute_research_pipeline questions_world (py "capital of France")
            initial_state)).
Proof.
  apply (questions_reply_raises questions_world (py "capital of France")
           (py "capital of France") []
           (py "1. [ResearchAgent] Search for: 'capital of France'")
           (py "QUESTIONS: 1. What time period are you interested in?")
           initial_state
           (snd (_handle_clarification_phase questions_world (py "capital of France")
                   initial_state))
           (snd (generate_plan questions_world (py "capital of France")
                   (snd (_handle_clarification_phase questions_world
                           (py "capital of France") initial_state)))));
    vm_compute; reflexivity.
Defined.

(** C4, at the failing input: the plan-clarity capability asks one question.
    Hints are extracted from it, but the run ends with an [AttributeError]
    before any research call is made. *)
Theorem questions_reply_aborts_run :
  fst (execute_research_pipeline questions_world (py "capital of France") initial_state)
    = Raise AttributeError
  /\ existsb is_research_call
       (trace (snd (execute_research_pipeline questions_world (py "capital of France")
                      initial_state))) = false
  /\ extract_clarification_insights
       (py "QUESTIONS: 1. What time period are you interested in?")
     = INSIGHTS_HEADER ++ py "- Consider exploring: time, period" ++ NL.
Proof. vm_compute. repeat split; reflexivity. Qed.

(** The end-to-end scenario runs to its end; its final report holds no
    citations section. *)
Example capital_run :
  fst (execute_research_pipeline capital_world (py "capital of France") initial_state)
  = Ok {| initial_query := py "capital of France"; error := None;
          final_report := py "# Capital of France" ++ NL ++ NL ++ py "Paris.";
          file_paths := (py "reports/r.md", py "reports/r.md") |}.
Proof. vm_compute. reflexivity. Qed.

(** * Further facts *)

(** ** The plan task extractor, line by line *)

Lemma split_pieces_occur (s sep : str) :
  sep <> [] -> Forall (fun p => occurs_in p s) (split s sep).
Proof.
  intros Hsep.
  apply (split_ind sep (fun s l => Forall (fun p => occurs_in p s) l) Hsep).
  - intros s0 _. constructor; [apply occurs_in_refl | constructor].
  - intros s0 i E IH.
    destruct (find_parts _ _ _ E) as [Hs _].
    constructor.
    + exists [], (sep ++ skipn (i + length sep) s0). simpl. exact Hs.
    + eapply Forall_impl; [| exact IH].
      intros p Hp. apply (occurs_in_trans _ _ _ Hp).
      exists (firstn i s0 ++ sep), []. rewrite app_nil_r, <- app_assoc. exact Hs.
Qed.

Lemma tasks_of_line_no_tag (raw_line : str) :
  is_in RESEARCH_TAG raw_line = false -> tasks_of_line raw_line = [].
Proof.
  intros H. unfold tasks_of_line.
  rewrite (occurs_in_is_in RESEARCH_TAG _ _ (strip_occurs raw_line) H). reflexivity.
Qed.

Lemma flat_map_nil (A B : Type) (f : A -> list B) (l : list A) :
  Forall (fun x => f x = []) l -> flat_map f l = [].
Proof.
  induction 1 as [| x l Hx _ IH]; simpl; [reflexivity |].
  rewrite Hx, IH. reflexivity.
Qed.

(** X6: a plan in which the tag [[ResearchAgent]] does not occur (as it is
    written, capitals included) yields no research task. *)
Theorem plan_without_tag_has_no_task (plan_text : str) :
  is_in RESEARCH_TAG plan_text = false ->
  extract_research_tasks_from_plan plan_text = [].
Proof.
  intros H. unfold extract_research_tasks_from_plan.
  destruct (is_empty plan_text || startswith plan_text (py "Error:")); [reflexivity |].
  apply flat_map_nil.
  assert (Hnl : NL <> []) by discriminate.
  eapply Forall_impl; [| exact (split_pieces_occur (strip plan_text) NL Hnl)].
  intros p Hp. apply tasks_of_line_no_tag.
  apply (occurs_in_is_in RESEARCH_TAG p plan_text); [| exact H].
  exact (occurs_in_trans _ _ _ Hp (strip_occurs plan_text)).
Qed.

Lemma plan_without_tag_has_no_task_witness :
  extract_research_tasks_from_plan
    (py "1. [researchagent] Search for: 'solar cells'" ++ NL
       ++ py "2. [CritiqueAgent] Evaluate the sources.") = [].
Proof. apply plan_without_tag_has_no_task. reflexivity. Defined.

(** *** What a task looks like *)

Lemma rstrip_cons_nonspace (c : ascii) (x : str) :
  isspace c = false -> exists y, rstrip (c :: x) = c :: y.
Proof.
  intros Hc. unfold rstrip. simpl rev.
  destruct (dropwhile isspace (rev x)) as [| d r] eqn:E.
  - destruct (dropwhile_split isspace (rev x)) as [a [Ha Hall]].
    rewrite E, app_nil_r in Ha. rewrite Ha.
    rewrite (dropwhile_app_all isspace a [c] Hall).
    rewrite dropwhile_stop by assumption. exists []. reflexivity.
  - rewrite (dropwhile_cons_app isspace (rev x) [c] r d E).
    exists (rev r ++ [d]). simpl. rewrite rev_app_distr. reflexivity.
Qed.

Lemma rstrip_idem (s : str) : rstrip (rstrip s) = rstrip s.
Proof.
  unfold rstrip. rewrite rev_involutive, dropwhile_idem. reflexivity.
Qed.

Lemma lstrip_head (s : str) :
  lstrip s = [] \/ exists c t, lstrip s = c :: t /\ isspace c = false.
Proof.
  unfold lstrip. induction s as [| c t IH]; simpl; [left; reflexivity |].
  destruct (isspace c) eqn:E; [exact IH |].
  right. exists c, t. split; [reflexivity | exact E].
Qed.

Lemma strip_idem (s : str) : strip (strip s) = strip s.
Proof.
  unfold strip.
  destruct (lstrip_head s) as [E | [c [t [E Hc]]]]; rewrite E.
  - reflexivity.
  - destruct (rstrip_cons_nonspace c t Hc) as [y Hy].
    rewrite Hy. unfold lstrip. rewrite dropwhile_stop by assumption.
    rewrite <- Hy. apply rstrip_idem.
Qed.

Lemma eat_ci_incl (lit s r : str) : eat_ci lit s = Some r -> incl r s.
Proof.
  revert s. induction lit as [| a lit IH]; intros s H.
  - destruct s; simpl in H; injection H as <-; apply incl_refl.
  - destruct s as [| b s]; simpl in H; [discriminate |].
    destruct (ci_eqb a b); [| discriminate].
    apply incl_tl. exact (IH _ H).
Qed.

Lemma dropwhile_incl (f : ascii -> bool) (s : str) : incl (dropwhile f s) s.
Proof.
  induction s as [| c t IH]; simpl; [apply incl_refl |].
  destruct (f c); [apply incl_tl; exact IH | apply incl_refl].
Qed.

Lemma takewhile_incl (f : ascii -> bool) (s : str) : incl (takewhile f s) s.
Proof.
  induction s as [| c t IH]; simpl; [apply incl_refl |].
  destruct (f c).
  - intros x [Hx | Hx]; [left; exact Hx | right; exact (IH x Hx)].
  - intros x [].
Qed.

Lemma quoted_incl (s q : str) : quoted s = Some q -> incl q s.
Proof.
  revert q. induction s as [| c t IH]; intros q H; simpl in H; [discriminate |].
  destruct (is_quote c); [injection H as <-; intros x [] |].
  destruct (is_newline c); [discriminate |].
  destruct (quoted t) as [q' |]; [| discriminate].
  injection H as <-. intros x [Hx | Hx]; [left; exact Hx | right; exact (IH q' eq_refl x Hx)].
Qed.

Lemma search_for_incl (s q : str) : search_for s = Some q -> incl q s.
Proof.
  unfold search_for. intros H.
  destruct (eat_ci (py "Search for:") s) as [s1 |] eqn:E1; [| discriminate].
  destruct (lstrip s1) as [| c s2] eqn:E2; [discriminate |].
  destruct (is_quote c); [| discriminate].
  intros x Hx. apply (eat_ci_incl _ _ _ E1). apply (lstrip_incl s1).
  rewrite E2. right. exact (quoted_incl _ _ H x Hx).
Qed.

Lemma tag_prefix_incl (s r : str) : tag_prefix s = Some r -> incl r s.
Proof.
  unfold tag_prefix. intros H.
  destruct (dropwhile is_decimal (lstrip s)) as [| c s1] eqn:E; [discriminate |].
  destruct (Ascii.eqb c "."%char); [| discriminate].
  destruct (eat_ci RESEARCH_TAG (lstrip s1)) as [r1 |] eqn:E1; [| discriminate].
  injection H as <-.
  intros x Hx. apply (lstrip_incl s). apply (dropwhile_incl is_decimal).
  rewrite E. right. apply (lstrip_incl s1). apply (eat_ci_incl _ _ _ E1).
  exact (lstrip_incl r1 x Hx).
Qed.

Lemma re_search_incl (A : Type) (m : str -> option A) (P : A -> Prop) (s : str) (v : A) :
  (forall b w, m b = Some w -> incl b s -> P w) ->
  re_search m s = Some v -> P v.
Proof.
  intros Hm H. destruct (re_search_Some A m s v H) as [a [b [Hs Hb]]].
  apply (Hm b v Hb). subst s. apply incl_appr, incl_refl.
Qed.

Lemma task_description_incl (line : str) : incl (task_description line) line.
Proof.
  unfold task_description.
  destruct (re_search specific_search_pattern line) as [query |] eqn:E1.
  - apply (re_search_incl _ specific_search_pattern (fun w => incl (strip w) line) line query);
      [| exact E1].
    intros b w Hb Hincl. unfold specific_search_pattern in Hb.
    destruct (tag_prefix b) as [r |] eqn:Et; [| discriminate].
    intros x Hx. apply Hincl. apply (tag_prefix_incl _ _ Et).
    apply (search_for_incl _ _ Hb). exact (strip_incl w x Hx).
  - destruct (re_search general_task_pattern line) as [t |] eqn:E2; [| apply incl_refl].
    assert (Ht : incl t line).
    { apply (re_search_incl _ general_task_pattern (fun w => incl w line) line t);
        [| exact E2].
      intros b w Hb Hincl. unfold general_task_pattern in Hb.
      destruct (tag_prefix b) as [r |] eqn:Et; [| discriminate].
      injection Hb as <-. intros x Hx. apply Hincl. apply (tag_prefix_incl _ _ Et).
      exact (takewhile_incl _ r x Hx). }
    destruct (search_for (strip t)) as [query |] eqn:E3.
    + intros x Hx. apply Ht. apply (strip_incl t).
      apply (search_for_incl _ _ E3). exact (strip_incl query x Hx).
    + intros x Hx. apply Ht. exact (strip_incl t x Hx).
Qed.

Lemma task_description_stripped (raw_line : str) :
  strip (task_description (strip raw_line)) = task_description (strip raw_line).
Proof.
  unfold task_description.
  destruct (re_search specific_search_pattern (strip raw_line)); [apply strip_idem |].
  destruct (re_search general_task_pattern (strip raw_line)) as [t |]; [| apply strip_idem].
  destruct (search_for (strip t)); apply strip_idem.
Qed.

Lemma tasks_of_line_well_formed (raw_line : str) :
  ~ In "010"%char raw_line -> Forall well_formed_task (tasks_of_line raw_line).
Proof.
  intros Hnl. unfold tasks_of_line.
  destruct (is_in RESEARCH_TAG (strip raw_line)); [| constructor].
  destruct (is_empty (task_description (strip raw_line))) eqn:E; constructor; [| constructor].
  split; [apply is_empty_false; exact E |].
  split; [apply task_description_stripped |].
  intros H. apply Hnl. apply (strip_incl raw_line).
  exact (task_description_incl _ _ H).
Qed.

(** X7: every extracted task is a non-empty text of one line, without
    white space at either end. *)
Theorem extracted_tasks_are_well_formed (plan_text : str) :
  Forall well_formed_task (extract_research_tasks_from_plan plan_text).
Proof.
  unfold extract_research_tasks_from_plan.
  destruct (is_empty plan_text || startswith plan_text (py "Error:")); [constructor |].
  apply Forall_flat_map.
  assert (Hnl : NL <> []) by discriminate.
  eapply Forall_impl; [| exact (split_pieces_clean (strip plan_text) NL Hnl)].
  intros p Hp. apply tasks_of_line_well_formed.
  apply not_in_single. exact Hp.
Qed.

(** *** A quoted search query *)

Lemma quoted_plain (query rest : str) (q : ascii) :
  forallb plain_char query = true -> is_quote q = true ->
  quoted (query ++ q :: rest) = Some query.
Proof.
  intros Hq Hquote. induction query as [| c t IH]; simpl.
  - rewrite Hquote. reflexivity.
  - simpl in Hq. apply andb_prop in Hq. destruct Hq as [Hc Ht].
    unfold plain_char in Hc. apply andb_prop in Hc. destruct Hc as [H1 H2].
    apply negb_true_iff in H1, H2. rewrite H1, H2, (IH Ht). reflexivity.
Qed.

Lemma lstrip_space_app (ws s : str) :
  forallb isspace ws = true -> lstrip (ws ++ s) = lstrip s.
Proof. intros H. apply dropwhile_app_all. exact H. Qed.

Lemma quote_not_space (q : ascii) : is_quote q = true -> isspace q = false.
Proof.
  unfold is_quote. intros H. apply orb_prop in H.
  destruct H as [H | H]; apply Ascii.eqb_eq in H; subst q; reflexivity.
Qed.

Section QuotedQuery.

Variables (pre ws ws2 ws3 query rest : str) (q1 q2 : ascii).
Hypothesis pre_no_dot : ~ In DOT pre.
Hypothesis ws_space : forallb isspace ws = true.
Hypothesis ws2_space : forallb isspace ws2 = true.
Hypothesis ws3_space : forallb isspace ws3 = true.
Hypothesis q1_quote : is_quote q1 = true.
Hypothesis q2_quote : is_quote q2 = true.
Hypothesis query_plain : forallb plain_char query = true.

Let request : str := py "Search for:" ++ ws3 ++ q1 :: query ++ q2 :: rest.
Let tail : str := ws ++ RESEARCH_TAG ++ ws2 ++ request.

Lemma search_for_request : search_for request = Some query.
Proof.
  unfold search_for, request. rewrite eat_ci_app.
  rewrite (lstrip_space_app ws3 _ ws3_space).
  unfold lstrip. rewrite dropwhile_stop by (apply quote_not_space; exact q1_quote).
  rewrite q1_quote. apply quoted_plain; assumption.
Qed.

Lemma specific_at_dot : specific_search_pattern (DOT :: tail) = Some query.
Proof.
  unfold specific_search_pattern, tail.
  rewrite (tag_prefix_at_dot ws (ws2 ++ request) ws_space).
  rewrite (lstrip_space_app ws2 _ ws2_space).
  unfold lstrip, request. simpl dropwhile. exact search_for_request.
Qed.

Lemma specific_before_dot (a b : str) :
  pre = a ++ b ->
  specific_search_pattern (b ++ DOT :: tail) = None
  \/ specific_search_pattern (b ++ DOT :: tail) = Some query.
Proof.
  intros Hpre.
  assert (Hb : ~ In DOT b).
  { intros H. apply pre_no_dot. rewrite Hpre. apply in_or_app. right. exact H. }
  unfold specific_search_pattern at 1 2.
  destruct (tag_prefix_first_dot b tail Hb) as [E | E]; rewrite E.
  - left. reflexivity.
  - right. exact specific_at_dot.
Qed.

Lemma specific_search : re_search specific_search_pattern (pre ++ DOT :: tail) = Some query.
Proof.
  apply re_search_first.
  - intros a b Hpre. exact (specific_before_dot a b Hpre).
  - exact specific_at_dot.
Qed.

Lemma description_of_quoted_query : task_description (pre ++ DOT :: tail) = strip query.
Proof. unfold task_description. rewrite specific_search. reflexivity. Qed.

End QuotedQuery.

(** X8: a numbered line [N. [ResearchAgent] Search for: 'query' ...] yields
    the quoted query, stripped, whatever follows the closing quote; the two
    quotes may differ. *)
Theorem tasks_of_line_quoted_query (raw_line pre ws ws2 ws3 query rest : str)
    (q1 q2 : ascii) :
  strip raw_line
    = pre ++ DOT :: ws ++ RESEARCH_TAG ++ ws2 ++ py "Search for:" ++ ws3
        ++ q1 :: query ++ q2 :: rest ->
  ~ In DOT pre ->
  forallb isspace ws = true -> forallb isspace ws2 = true ->
  forallb isspace ws3 = true ->
  is_quote q1 = true -> is_quote q2 = true ->
  forallb plain_char query = true ->
  tasks_of_line raw_line = if is_empty (strip query) then [] else [strip query].
Proof.
  intros Hline Hpre Hws Hws2 Hws3 Hq1 Hq2 Hquery.
  unfold tasks_of_line. rewrite Hline.
  assert (Hin : is_in RESEARCH_TAG
                  (pre ++ DOT :: ws ++ RESEARCH_TAG ++ ws2 ++ py "Search for:" ++ ws3
                     ++ q1 :: query ++ q2 :: rest) = true).
  { apply is_in_iff. exists (pre ++ DOT :: ws), (ws2 ++ py "Search for:" ++ ws3
                     ++ q1 :: query ++ q2 :: rest).
    rewrite <- app_assoc. reflexivity. }
  rewrite Hin.
  rewrite (description_of_quoted_query pre ws ws2 ws3 query rest q1 q2
             Hpre Hws Hws2 Hws3 Hq1 Hq2 Hquery).
  reflexivity.
Qed.

Lemma tasks_of_line_quoted_query_witness :
  tasks_of_line (py "  1. [ResearchAgent] Search for: 'perovskite solar cells' and sum up")
  = [py "perovskite solar cells"].
Proof.
  apply (tasks_of_line_quoted_query
           (py "  1. [ResearchAgent] Search for: 'perovskite solar cells' and sum up")
           (py "1") (py " ") (py " ") (py " ") (py "perovskite solar cells")
           (py " and sum up") SQUOTE SQUOTE); try reflexivity.
  vm_compute. intros H. repeat (destruct H as [H | H]; [discriminate |]). exact H.
Defined.

(** *** The plan is read line by line *)

Lemma split_char_cons (c d : ascii) (t : str) :
  c <> d ->
  split (c :: t) [d] = (c :: hd [] (split t [d])) :: tl (split t [d]).
Proof.
  intros Hcd.
  assert (Hsep : [d] <> []) by discriminate.
  rewrite (split_eq (c :: t) [d] Hsep), (split_eq t [d] Hsep).
  assert (Hf : find (c :: t) [d] = option_map S (find t [d])).
  { simpl. destruct (Ascii.eqb d c) eqn:E; [| reflexivity].
    apply Ascii.eqb_eq in E. congruence. }
  rewrite Hf. destruct (find t [d]) as [i |]; reflexivity.
Qed.

Lemma split_newline_cons (t : str) : split ("010"%char :: t) NL = [] :: split t NL.
Proof. exact (split_char_app "010"%char [] t (fun H => H)). Qed.

Lemma forallb_rev (A : Type) (f : A -> bool) (l : list A) :
  forallb f l = true -> forallb f (rev l) = true.
Proof.
  intros H. apply forallb_forall. intros x Hx.
  apply (proj1 (forallb_forall f l) H). apply in_rev. exact Hx.
Qed.

Lemma forallb_incl (A : Type) (f : A -> bool) (l l' : list A) :
  incl l' l -> forallb f l = true -> forallb f l' = true.
Proof.
  intros Hi H. apply forallb_forall. intros x Hx.
  exact (proj1 (forallb_forall f l) H x (Hi x Hx)).
Qed.

Lemma lstrip_blank (w : str) : forallb isspace w = true -> lstrip w = [].
Proof.
  intros H. rewrite <- (app_nil_r w). unfold lstrip.
  rewrite (dropwhile_app_all isspace w [] H). reflexivity.
Qed.

Lemma strip_blank (w : str) : forallb isspace w = true -> strip w = [].
Proof. intros H. unfold strip. rewrite (lstrip_blank w H). reflexivity. Qed.

Lemma rstrip_app_space (s w : str) :
  forallb isspace w = true -> rstrip (s ++ w) = rstrip s.
Proof.
  intros H. unfold rstrip. rewrite rev_app_distr.
  rewrite (dropwhile_app_all isspace (rev w) (rev s) (forallb_rev _ _ _ H)).
  reflexivity.
Qed.

Lemma strip_app_space (s w : str) :
  forallb isspace w = true -> strip (s ++ w) = strip s.
Proof.
  intros H. unfold strip.
  destruct (lstrip s) as [| c t] eqn:E.
  - destruct (dropwhile_split isspace s) as [a [Ha Hall]].
    fold (lstrip s) in Ha. rewrite E, app_nil_r in Ha.
    rewrite lstrip_blank; [reflexivity |].
    rewrite forallb_app, H, andb_true_r, Ha. exact Hall.
  - unfold lstrip in *. rewrite (dropwhile_cons_app isspace s w t c E).
    exact (rstrip_app_space (c :: t) w H).
Qed.

Lemma tasks_of_line_blank (w : str) : forallb isspace w = true -> tasks_of_line w = [].
Proof. intros H. unfold tasks_of_line. rewrite (strip_blank w H). reflexivity. Qed.

Lemma tasks_of_line_lead (c : ascii) (s : str) :
  isspace c = true -> tasks_of_line (c :: s) = tasks_of_line s.
Proof.
  intros H. unfold tasks_of_line, strip, lstrip. simpl dropwhile. rewrite H. reflexivity.
Qed.

Lemma tasks_of_line_trail (s w : str) :
  forallb isspace w = true -> tasks_of_line (s ++ w) = tasks_of_line s.
Proof. intros H. unfold tasks_of_line. rewrite (strip_app_space s w H). reflexivity. Qed.

Lemma tasks_of_blank_text (w : str) :
  forallb isspace w = true -> flat_map tasks_of_line (split w NL) = [].
Proof.
  intros H. apply flat_map_nil.
  assert (Hnl : NL <> []) by discriminate.
  eapply Forall_impl; [| exact (split_pieces_incl w NL Hnl)].
  intros p Hp. apply tasks_of_line_blank. exact (forallb_incl _ _ _ _ Hp H).
Qed.

(** White space before the text adds no task. *)
Lemma tasks_after_space (w s : str) :
  forallb isspace w = true ->
  flat_map tasks_of_line (split (w ++ s) NL) = flat_map tasks_of_line (split s NL).
Proof.
  intros H. induction w as [| c w IH]; [reflexivity |].
  simpl in H. apply andb_prop in H. destruct H as [Hc Hw].
  simpl app. destruct (ascii_dec c "010"%char) as [-> | Hne].
  - rewrite split_newline_cons. simpl. exact (IH Hw).
  - unfold NL. rewrite (split_char_cons c "010"%char (w ++ s) Hne).
    fold NL. rewrite <- (IH Hw).
    destruct (split (w ++ s) NL) as [| h r]; simpl.
    + rewrite app_nil_r. apply tasks_of_line_lead. exact Hc.
    + rewrite (tasks_of_line_lead c h Hc). reflexivity.
Qed.

(** White space after the text: the last line grows, blank lines follow. *)
Lemma split_before_space (w : str) (s : str) :
  split (s ++ w) NL
  = removelast (split s NL)
      ++ (last (split s NL) [] ++ hd [] (split w NL)) :: tl (split w NL).
Proof.
  assert (Hnl : NL <> []) by discriminate.
  induction s as [| c s IH].
  - simpl app. change (split [] NL) with [([] : str)]. simpl.
    destruct (split w NL) as [| h r] eqn:E; [| reflexivity].
    exfalso. exact (split_not_nil w NL Hnl E).
  - simpl app. destruct (ascii_dec c "010"%char) as [-> | Hne].
    + rewrite !split_newline_cons. rewrite IH.
      destruct (split s NL) as [| h r] eqn:E; [exfalso; exact (split_not_nil s NL Hnl E) |].
      reflexivity.
    + unfold NL at 1 2 4. rewrite !(split_char_cons c "010"%char _ Hne). fold NL.
      rewrite IH.
      destruct (split s NL) as [| h r] eqn:E; [exfalso; exact (split_not_nil s NL Hnl E) |].
      destruct r as [| h' r']; reflexivity.
Qed.

Lemma tasks_before_space (s w : str) :
  forallb isspace w = true ->
  flat_map tasks_of_line (split (s ++ w) NL) = flat_map tasks_of_line (split s NL).
Proof.
  intros H.
  assert (Hnl : NL <> []) by discriminate.
  rewrite split_before_space.
  assert (Hw : Forall (fun p => incl p w) (split w NL)) by exact (split_pieces_incl w NL Hnl).
  destruct (split w NL) as [| w0 rest] eqn:E; [exfalso; exact (split_not_nil w NL Hnl E) |].
  inversion Hw as [| ? ? Hw0 Hrest]; subst.
  simpl hd. simpl tl.
  assert (Hnil : flat_map tasks_of_line rest = []).
  { apply flat_map_nil. eapply Forall_impl; [| exact Hrest].
    intros p Hp. apply tasks_of_line_blank. exact (forallb_incl _ _ _ _ Hp H). }
  rewrite flat_map_app.
  change (flat_map tasks_of_line ((last (split s NL) [] ++ w0) :: rest))
    with (tasks_of_line (last (split s NL) [] ++ w0) ++ flat_map tasks_of_line rest).
  rewrite (tasks_of_line_trail _ w0 (forallb_incl _ _ _ _ Hw0 H)), Hnil.
  transitivity (flat_map tasks_of_line (removelast (split s NL) ++ [last (split s NL) []])).
  - rewrite flat_map_app. reflexivity.
  - rewrite <- app_removelast_last by (apply split_not_nil; exact Hnl). reflexivity.
Qed.

Lemma rstrip_split_space (s : str) :
  exists w, s = rstrip s ++ w /\ forallb isspace w = true.
Proof.
  destruct (dropwhile_split isspace (rev s)) as [a [Ha Hall]].
  exists (rev a). split.
  - unfold rstrip. rewrite <- rev_app_distr, <- Ha, rev_involutive. reflexivity.
  - apply forallb_rev. exact Hall.
Qed.

(** Stripping the plan before it is cut into lines changes no task. *)
Lemma tasks_of_stripped_plan (plan_text : str) :
  flat_map tasks_of_line (split (strip plan_text) NL)
  = flat_map tasks_of_line (split plan_text NL).
Proof.
  destruct (dropwhile_split isspace plan_text) as [a [Ha Hall]].
  fold (lstrip plan_text) in Ha.
  destruct (rstrip_split_space (lstrip plan_text)) as [w [Hw Hspace]].
  fold (strip plan_text) in Hw.
  pose proof (tasks_before_space (strip plan_text) w Hspace) as H1.
  rewrite <- Hw in H1.
  pose proof (tasks_after_space a (lstrip plan_text) Hall) as H2.
  rewrite <- Ha in H2.
  rewrite H2, H1. reflexivity.
Qed.

(** X9: the tasks of a plan are the tasks of its lines, in the order of the
    lines: a plan made of the lines [l1, ..., ln] that is not empty and does
    not start with [Error:] yields the tasks of [l1], then those of [l2],
    and so on. *)
Theorem tasks_are_extracted_line_by_line (lines : list str) :
  Forall (fun l => ~ In "010"%char l) lines ->
  is_empty (join NL lines) || startswith (join NL lines) (py "Error:") = false ->
  extract_research_tasks_from_plan (join NL lines) = flat_map tasks_of_line lines.
Proof.
  intros Hlines Hplan. unfold extract_research_tasks_from_plan. rewrite Hplan.
  rewrite tasks_of_stripped_plan.
  destruct lines as [| l ls]; [discriminate Hplan |].
  unfold NL. rewrite split_join_char; [reflexivity | discriminate | exact Hlines].
Qed.

Lemma tasks_are_extracted_line_by_line_witness :
  extract_research_tasks_from_plan
    (join NL [py "Plan:"; py "1. [ResearchAgent] Search for: 'tides'"; [];
              py "2. [ResearchAgent] Explain spring tides  "])
  = flat_map tasks_of_line
      [py "Plan:"; py "1. [ResearchAgent] Search for: 'tides'"; [];
       py "2. [ResearchAgent] Explain spring tides  "].
Proof.
  apply tasks_are_extracted_line_by_line; [| reflexivity].
  repeat constructor; vm_compute; intros H;
    repeat (destruct H as [H | H]; [discriminate |]); exact H.
Defined.

(** ** The merged citations *)

Lemma has_key_false (k : str) (d : list (str * citation)) :
  has_key k d = false <-> ~ In k (map fst d).
Proof.
  unfold has_key. induction d as [| [k' v] d IH]; simpl.
  - split; [intros _ [] | reflexivity].
  - rewrite orb_false_iff, IH, str_eqb_neq. split.
    + intros [Hne Hd] [H | H]; [apply Hne; symmetry; exact H | exact (Hd H)].
    + intros H. split.
      * intros E. apply H. left. symmetry. exact E.
      * intros Hd. apply H. right. exact Hd.
Qed.

Lemma NoDup_snoc (A : Type) (l : list A) (x : A) :
  NoDup l -> ~ In x l -> NoDup (l ++ [x]).
Proof.
  intros Hl Hx. apply NoDup_app; [exact Hl | repeat constructor; intros [] |].
  intros a Ha [E | []]. subst a. exact (Hx Ha).
Qed.

Lemma dedupe_keyed (cs : list citation) (d : list (str * citation)) :
  keyed d -> keyed (dedupe cs d).
Proof.
  revert d. induction cs as [| c cs IH]; intros d Hd; [exact Hd |].
  rewrite dedupe_cons.
  destruct (negb (is_empty (normal_url c)) && negb (has_key (normal_url c) d)) eqn:E;
    [| exact (IH d Hd)].
  apply IH. apply andb_prop in E. destruct E as [_ Hk].
  apply negb_true_iff, has_key_false in Hk.
  destruct Hd as [Hnd Hall]. split.
  - rewrite map_app. apply NoDup_snoc; assumption.
  - apply Forall_app. split; [exact Hall |]. repeat constructor.
Qed.

Lemma keyed_urls (d : list (str * citation)) :
  keyed d -> NoDup (map url (map snd d)).
Proof.
  intros [Hnd Hall].
  assert (E : map url (map snd d) = map Some (map fst d)).
  { rewrite !map_map. apply map_ext_in. intros kv Hkv.
    exact (proj1 (Forall_forall _ d) Hall kv Hkv). }
  rewrite E. clear E Hall.
  induction Hnd as [| k l Hk _ IH]; simpl; constructor; [| exact IH].
  intros H. apply in_map_iff in H. destruct H as [k' [E H]].
  injection E as ->. exact (Hk H).
Qed.

Lemma insert_sorted_perm (x : citation) (l : list citation) :
  Permutation (insert_sorted x l) (x :: l).
Proof.
  induction l as [| y l IH]; simpl; [apply Permutation_refl |].
  destruct (str_leb (sort_key x) (sort_key y)); [apply Permutation_refl |].
  apply (perm_trans (perm_skip y IH)). apply perm_swap.
Qed.

Lemma sorted_perm (l : list citation) : Permutation (sorted l) l.
Proof.
  induction l as [| x l IH]; simpl; [apply perm_nil |].
  apply (perm_trans (insert_sorted_perm x (sorted l))). apply perm_skip. exact IH.
Qed.

(** X10: the merged citations have pairwise distinct URLs, and each is the
    stored entry of a citation of the input whose cleaned URL is not empty
    and holds no [?utm_source=]. *)
Theorem merged_urls_are_distinct (cs : list citation) :
  NoDup (map url (merge_citations cs))
  /\ Forall (fun e => exists c, In c cs /\ e = stored_entry c
                                /\ url e = Some (normal_url c)
                                /\ normal_url c <> []
                                /\ is_in UTM_SOURCE (normal_url c) = false)
       (merge_citations cs).
Proof.
  split.
  - unfold merge_citations.
    apply (Permutation_NoDup
             (Permutation_sym (Permutation_map url (sorted_perm (map snd (dedupe cs [])))))).
    apply keyed_urls, dedupe_keyed. split; constructor.
  - apply Forall_forall. intros e He.
    destruct (merge_from_input cs e He) as [c [Hc [E Hne]]].
    exists c. split; [exact Hc |]. split; [exact E |].
    split; [rewrite E; reflexivity |]. split; [exact Hne |].
    apply clean_url_no_source.
Qed.

(** *** The order of the merged citations *)

Lemma str_leb_refl (a : str) : str_leb a a = true.
Proof.
  induction a as [| x a IH]; simpl; [reflexivity |].
  rewrite Nat.ltb_irrefl. exact IH.
Qed.

Lemma code_inj (x y : ascii) : code x = code y -> x = y.
Proof.
  unfold code. intros H.
  rewrite <- (ascii_nat_embedding x), <- (ascii_nat_embedding y), H. reflexivity.
Qed.

Lemma str_leb_total (a b : str) : str_leb a b = false -> str_leb b a = true.
Proof.
  revert b. induction a as [| x a IH]; intros [| y b]; simpl; try discriminate;
    [reflexivity |].
  destruct (code x <? code y) eqn:E1; [discriminate |].
  destruct (code y <? code x) eqn:E2; [reflexivity |].
  apply IH.
Qed.

Lemma str_leb_trans (a b c : str) :
  str_leb a b = true -> str_leb b c = true -> str_leb a c = true.
Proof.
  revert b c. induction a as [| x a IH]; intros [| y b] [| z c]; simpl;
    try discriminate; try reflexivity.
  destruct (code x <? code y) eqn:Exy.
  - intros _. destruct (code y <? code z) eqn:Eyz.
    + intros _. apply Nat.ltb_lt in Exy, Eyz.
      assert (H : code x < code z) by lia. apply Nat.ltb_lt in H. rewrite H. reflexivity.
    + destruct (code z <? code y) eqn:Ezy; [discriminate |].
      intros _. apply Nat.ltb_lt in Exy. apply Nat.ltb_ge in Eyz, Ezy.
      assert (H : code x < code z) by lia. apply Nat.ltb_lt in H. rewrite H. reflexivity.
  - destruct (code y <? code x) eqn:Eyx; [discriminate |].
    intros Hab. apply Nat.ltb_ge in Exy, Eyx.
    assert (Hxy : code x = code y) by lia. rewrite Hxy.
    destruct (code y <? code z); [reflexivity |].
    destruct (code z <? code y); [discriminate |].
    exact (IH b c Hab).
Qed.

Lemma insert_sorted_sorted (x : citation) (l : list citation) :
  StronglySorted title_le l -> StronglySorted title_le (insert_sorted x l).
Proof.
  induction 1 as [| y l Hl IH Hy]; simpl; [repeat constructor |].
  destruct (str_leb (sort_key x) (sort_key y)) eqn:E.
  - constructor; [constructor; assumption |].
    constructor; [exact E |].
    eapply Forall_impl; [| exact Hy].
    intros z Hz. exact (str_leb_trans _ _ _ E Hz).
  - constructor; [exact IH |].
    apply Forall_forall. intros z Hz. apply insert_sorted_In in Hz.
    destruct Hz as [-> | Hz].
    + exact (str_leb_total _ _ E).
    + exact (proj1 (Forall_forall _ l) Hy z Hz).
Qed.

Lemma sorted_sorted (l : list citation) : StronglySorted title_le (sorted l).
Proof.
  induction l as [| x l IH]; simpl; [constructor |].
  apply insert_sorted_sorted. exact IH.
Qed.

Lemma insert_sorted_stable (k : str) (x : citation) (l : list citation) :
  with_key k (insert_sorted x l) = with_key k (x :: l).
Proof.
  unfold with_key. induction l as [| y l IH]; [reflexivity |].
  simpl insert_sorted.
  destruct (str_leb (sort_key x) (sort_key y)) eqn:E; [reflexivity |].
  simpl filter in *. rewrite IH.
  destruct (str_eqb (sort_key x) k) eqn:Ex; [| reflexivity].
  destruct (str_eqb (sort_key y) k) eqn:Ey; [| reflexivity].
  apply str_eqb_eq in Ex, Ey. rewrite Ex, Ey, str_leb_refl in E. discriminate.
Qed.

Lemma sorted_stable (k : str) (l : list citation) : with_key k (sorted l) = with_key k l.
Proof.
  induction l as [| x l IH]; [reflexivity |].
  simpl sorted. rewrite insert_sorted_stable.
  unfold with_key in *. simpl. rewrite IH. reflexivity.
Qed.

(** X11: the merged citations come sorted by lower-cased title, and the
    sort is stable: citations with the same lower-cased title keep the order
    in which their URLs were first met. *)
Theorem merged_citations_are_sorted (cs : list citation) :
  StronglySorted title_le (merge_citations cs)
  /\ forall k, with_key k (merge_citations cs) = with_key k (map snd (dedupe cs [])).
Proof.
  split; [apply sorted_sorted | intros k; apply sorted_stable].
Qed.

(** ** From the synthesis phase to the writer *)

Lemma startswith_app_l (s p y : str) :
  startswith s p = true -> startswith (s ++ y) p = true.
Proof.
  intros H. apply startswith_iff in H. destruct H as [t ->].
  rewrite <- app_assoc. apply startswith_app.
Qed.

Lemma startswith_head_absent (c : ascii) (b sep : str) :
  sep <> [] -> ~ In c sep -> startswith (c :: b) sep = false.
Proof.
  intros Hsep Hc. destruct sep as [| d sep]; [congruence |]. simpl.
  destruct (Ascii.eqb d c) eqn:E; [| reflexivity].
  apply Ascii.eqb_eq in E. subst d. exfalso. apply Hc. left. reflexivity.
Qed.

(** A character that the separator does not hold cuts the search in two. *)
Lemma find_app_char (c : ascii) (a b sep : str) :
  sep <> [] -> ~ In c sep ->
  find (a ++ c :: b) sep =
  match find a sep with
  | Some i => Some i
  | None => option_map (fun j => length a + 1 + j) (find b sep)
  end.
Proof.
  intros Hsep Hc. induction a as [| x a IH].
  - rewrite (find_nil sep Hsep). simpl app.
    change (find (c :: b) sep)
      with (if startswith (c :: b) sep then Some 0 else option_map S (find b sep)).
    rewrite (startswith_head_absent c b sep Hsep Hc).
    destruct (find b sep); reflexivity.
  - change (find ((x :: a) ++ c :: b) sep)
      with (if startswith ((x :: a) ++ c :: b) sep then Some 0
            else option_map S (find (a ++ c :: b) sep)).
    change (find (x :: a) sep)
      with (if startswith (x :: a) sep then Some 0 else option_map S (find a sep)).
    destruct (startswith (x :: a) sep) eqn:E.
    + rewrite (startswith_app_l _ _ (c :: b) E). reflexivity.
    + destruct (startswith ((x :: a) ++ c :: b) sep) eqn:E'.
      * rewrite (startswith_app_char c sep (x :: a) b Hc E') in E. discriminate.
      * rewrite IH. destruct (find a sep); [reflexivity |].
        destruct (find b sep); reflexivity.
Qed.

Lemma is_in_app_char (c : ascii) (a b sep : str) :
  sep <> [] -> ~ In c sep ->
  is_in sep (a ++ c :: b) = is_in sep a || is_in sep b.
Proof.
  intros Hsep Hc. unfold is_in. rewrite (find_app_char c a b sep Hsep Hc).
  destruct (find a sep); [reflexivity |]. destruct (find b sep); reflexivity.
Qed.











(** ** The writer's cleaning step *)

Lemma is_in_tail (sub : str) (c : ascii) (t : str) :
  is_in sub (c :: t) = false -> is_in sub t = false.
Proof.
  intros H. destruct (is_in sub t) eqn:E; [| reflexivity].
  pose proof (is_in_app_r sub [c] t E) as H'. simpl app in H'.
  rewrite H' in H. discriminate.
Qed.

Lemma is_in_startswith (s p : str) : startswith s p = true -> is_in p s = true.
Proof.
  intros H. apply startswith_iff in H. destruct H as [t ->].
  apply is_in_iff. exists [], t. reflexivity.
Qed.

(** A pattern that opens with a literal matches nowhere in a text that does
    not hold the literal. *)
Lemma re_search_absent (A : Type) (m : str -> option A) (lit text : str) :
  (forall s, startswith s lit = false -> m s = None) ->
  is_in lit text = false -> re_search m text = None.
Proof.
  intros Hm. induction text as [| c t IH]; intros H.
  - simpl. rewrite Hm; [reflexivity |].
    destruct (startswith [] lit) eqn:E; [| reflexivity].
    rewrite (is_in_startswith _ _ E) in H. discriminate.
  - simpl. rewrite Hm.
    + apply IH. exact (is_in_tail lit c t H).
    + destruct (startswith (c :: t) lit) eqn:E; [| reflexivity].
      rewrite (is_in_startswith _ _ E) in H. discriminate.
Qed.

Lemma completion_pattern_absent (text : str) :
  is_in (py "ChatCompletionMessage(content=") text = false ->
  re_search completion_pattern text = None.
Proof.
  apply re_search_absent. intros s H. unfold completion_pattern, eat. rewrite H.
  reflexivity.
Qed.

Lemma markdown_block_absent (text : str) :
  is_in (py "```markdown") text = false -> re_search markdown_block text = None.
Proof.
  apply re_search_absent. intros s H. unfold markdown_block, eat. rewrite H.
  reflexivity.
Qed.

Lemma json_content_not_object (W : world) (text : str) :
  startswith (strip text) (py "{") = false -> json_content W text = None.
Proof. intros H. unfold json_content. rewrite H. reflexivity. Qed.

Lemma strip_head (c : ascii) (t : str) :
  isspace c = false -> exists y, strip (c :: t) = c :: y.
Proof.
  intros H. unfold strip, lstrip. rewrite dropwhile_stop by assumption.
  exact (rstrip_cons_nonspace c t H).
Qed.

(** X13: a text that does not open with a brace or with one of the four
    response prefixes, and holds neither a [ChatCompletionMessage(content=]
    nor a [```markdown] marker, passes the cleaning step unchanged. *)
Theorem clean_json_format_keeps_plain_text (W : world) (text : str) :
  startswith (strip text) (py "{") = false ->
  is_in (py "ChatCompletionMessage(content=") text = false ->
  is_in (py "```markdown") text = false ->
  opens_with_response_prefix text = false ->
  _clean_json_format W text = text.
Proof.
  intros Hjson Hcompletion Hfence Hprefix. unfold _clean_json_format.
  rewrite (json_content_not_object W text Hjson).
  rewrite (completion_pattern_absent text Hcompletion).
  rewrite (markdown_block_absent text Hfence).
  unfold strip_response_prefix. unfold opens_with_response_prefix in Hprefix.
  cbn [existsb] in Hprefix. cbn [map first_some].
  destruct (eat_ci (py "Here is") text); [discriminate Hprefix |].
  destruct (eat_ci (py "I've formatted") text); [discriminate Hprefix |].
  destruct (eat_ci (py "The following is") text); [discriminate Hprefix |].
  destruct (eat_ci (py "Here's") text); [discriminate Hprefix |].
  reflexivity.
Qed.

Lemma clean_json_format_keeps_plain_text_witness :
  _clean_json_format capital_world (py "# Tides" ++ NL ++ NL ++ py "Here is why: the Moon.")
  = py "# Tides" ++ NL ++ NL ++ py "Here is why: the Moon.".
Proof. apply clean_json_format_keeps_plain_text; reflexivity. Defined.

Lemma after_colon_first (mid rest : str) :
  forallb inline_char mid = true -> after_colon (mid ++ ":"%char :: rest) = Some rest.
Proof.
  intros H. induction mid as [| c t IH]; [reflexivity |].
  simpl in H. apply andb_prop in H. destruct H as [Hc Ht].
  unfold inline_char in Hc. apply andb_prop in Hc. destruct Hc as [H1 H2].
  apply negb_true_iff in H1, H2. simpl. rewrite H1, H2. exact (IH Ht).
Qed.

Lemma prefix_is_dropped (W : world) (alt r mid ws body : str) :
  (exists c y, alt = c :: y /\ isspace c = false /\ Ascii.eqb "{"%char c = false) ->
  first_some (map (fun a => eat_ci a (alt ++ r))
                [py "Here is"; py "I've formatted"; py "The following is"; py "Here's"])
    = Some r ->
  r = mid ++ ":"%char :: ws ++ body ->
  forallb inline_char mid = true -> forallb isspace ws = true -> lstrip body = body ->
  is_in (py "ChatCompletionMessage(content=") (alt ++ r) = false ->
  is_in (py "```markdown") (alt ++ r) = false ->
  _clean_json_format W (alt ++ r) = body.
Proof.
  intros [c [y [Halt [Hc Hbrace]]]] Hfirst Hr Hmid Hws Hbody Hcompletion Hfence.
  unfold _clean_json_format.
  rewrite json_content_not_object.
  - rewrite (completion_pattern_absent _ Hcompletion), (markdown_block_absent _ Hfence).
    unfold strip_response_prefix. rewrite Hfirst, Hr, (after_colon_first mid _ Hmid).
    rewrite (lstrip_space_app ws body Hws). exact Hbody.
  - rewrite Halt. simpl app. destruct (strip_head c (y ++ r) Hc) as [z ->].
    change (startswith (c :: z) (py "{")) with (Ascii.eqb "{"%char c && true).
    rewrite Hbrace. reflexivity.
Qed.

(** X14: an answer that opens with one of the four response prefixes has
    everything up to the first colon of its first line removed, with the
    white space that follows the colon. *)
Theorem clean_json_format_drops_response_prefix (W : world) (alt mid ws body : str) :
  In alt [py "Here is"; py "I've formatted"; py "The following is"; py "Here's"] ->
  forallb inline_char mid = true ->
  forallb isspace ws = true ->
  lstrip body = body ->
  is_in (py "ChatCompletionMessage(content=") (alt ++ mid ++ ":"%char :: ws ++ body) = false ->
  is_in (py "```markdown") (alt ++ mid ++ ":"%char :: ws ++ body) = false ->
  _clean_json_format W (alt ++ mid ++ ":"%char :: ws ++ body) = body.
Proof.
  intros Halt Hmid Hws Hbody Hcompletion Hfence.
  apply (prefix_is_dropped W alt (mid ++ ":"%char :: ws ++ body) mid ws body);
    try assumption; try reflexivity.
  - destruct Halt as [<- | [<- | [<- | [<- | []]]]];
      eexists _, _; (split; [reflexivity | split; reflexivity]).
  - cbn [map first_some].
    destruct Halt as [<- | [<- | [<- | [<- | []]]]].
    + rewrite eat_ci_app. reflexivity.
    + change (eat_ci (py "Here is") (py "I've formatted" ++ mid ++ ":"%char :: ws ++ body))
        with (@None str).
      rewrite eat_ci_app. reflexivity.
    + change (eat_ci (py "Here is") (py "The following is" ++ mid ++ ":"%char :: ws ++ body))
        with (@None str).
      change (eat_ci (py "I've formatted")
                (py "The following is" ++ mid ++ ":"%char :: ws ++ body))
        with (@None str).
      rewrite eat_ci_app. reflexivity.
    + change (eat_ci (py "Here is") (py "Here's" ++ mid ++ ":"%char :: ws ++ body))
        with (@None str).
      change (eat_ci (py "I've formatted") (py "Here's" ++ mid ++ ":"%char :: ws ++ body))
        with (@None str).
      change (eat_ci (py "The following is") (py "Here's" ++ mid ++ ":"%char :: ws ++ body))
        with (@None str).
      rewrite eat_ci_app. reflexivity.
Qed.

Lemma clean_json_format_drops_response_prefix_witness :
  _clean_json_format capital_world
    (py "Here's" ++ py " the formatted report" ++ ":"%char :: (NL ++ NL) ++ py "# Tides")
  = py "# Tides".
Proof.
  apply clean_json_format_drops_response_prefix; try reflexivity.
  right. right. right. left. reflexivity.
Defined.

(** *** A fenced answer *)

Lemma re_search_here (A : Type) (m : str -> option A) (s : str) (v : A) :
  m s = Some v -> re_search m s = Some v.
Proof. intros H. destruct s; simpl; rewrite H; reflexivity. Qed.

Lemma eat_app (lit r : str) : eat lit (lit ++ r) = Some r.
Proof.
  unfold eat. rewrite startswith_app.
  rewrite skipn_app, skipn_all, Nat.sub_diag. reflexivity.
Qed.

Lemma until_fence_body (b rest : str) :
  (forall b1 b2, b = b1 ++ b2 -> b2 <> [] ->
     startswith (lstrip (b2 ++ rest)) FENCE = false) ->
  startswith (lstrip rest) FENCE = true ->
  until_fence (b ++ rest) = Some b.
Proof.
  intros Hb Hrest. induction b as [| c b IH].
  - simpl app. destruct rest as [| c t]; [discriminate Hrest |].
    change (until_fence (c :: t))
      with (if startswith (lstrip (c :: t)) FENCE then Some []
            else option_map (cons c) (until_fence t)).
    rewrite Hrest. reflexivity.
  - change (until_fence ((c :: b) ++ rest))
      with (if startswith (lstrip ((c :: b) ++ rest)) FENCE then Some []
            else option_map (cons c) (until_fence (b ++ rest))).
    rewrite (Hb [] (c :: b) eq_refl ltac:(discriminate)).
    rewrite IH; [reflexivity |].
    intros b1 b2 E Hne. apply (Hb (c :: b1) b2); [rewrite E; reflexivity | exact Hne].
Qed.

Lemma rstrip_last (x : str) (c : ascii) :
  rstrip (x ++ [c]) = x ++ [c] -> isspace c = false.
Proof.
  unfold rstrip. rewrite rev_app_distr.
  change (rev [c] ++ rev x) with (c :: rev x).
  destruct (isspace c) eqn:E; [| reflexivity].
  change (dropwhile isspace (c :: rev x))
    with (if isspace c then dropwhile isspace (rev x) else c :: rev x).
  rewrite E. intros H.
  apply (f_equal (@length ascii)) in H.
  rewrite length_rev, length_app in H. simpl in H.
  destruct (dropwhile_split isspace (rev x)) as [a [Ha _]].
  apply (f_equal (@length ascii)) in Ha. rewrite length_rev, length_app in Ha. lia.
Qed.

Lemma strip_fixed_rstrip (s : str) : strip s = s -> rstrip s = s.
Proof. intros H. rewrite <- H at 1. unfold strip. rewrite rstrip_idem. exact H. Qed.

Lemma suffix_last (b1 b2 : str) :
  b2 <> [] -> exists x c, b2 = x ++ [c] /\ b1 ++ b2 = (b1 ++ x) ++ [c].
Proof.
  intros H. destruct (exists_last H) as [x [c ->]].
  exists x, c. split; [reflexivity | apply app_assoc].
Qed.

Lemma endswith_last (x : str) (c : ascii) : endswith (x ++ [c]) [c] = true.
Proof.
  unfold endswith. rewrite rev_app_distr. simpl. rewrite Ascii.eqb_refl. reflexivity.
Qed.

Lemma startswith_cons_inv (d a : ascii) (s p : str) :
  startswith (d :: s) (a :: p) = true -> d = a /\ startswith s p = true.
Proof.
  simpl. intros H. apply andb_prop in H. destruct H as [H1 H2].
  apply Ascii.eqb_eq in H1. split; [symmetry; exact H1 | exact H2].
Qed.

Section FencedAnswer.

Variables (body ws2 outro : str).
Hypothesis ws2_space : forallb isspace ws2 = true.
Hypothesis body_stripped : strip body = body.
Hypothesis body_no_fence : is_in FENCE body = false.
Hypothesis body_end : endswith body (py "`") = false.

Let closing : str := ws2 ++ FENCE ++ outro.

Lemma closing_fence : startswith (lstrip closing) FENCE = true.
Proof.
  unfold closing. rewrite (lstrip_space_app ws2 _ ws2_space).
  unfold lstrip. change (dropwhile isspace (FENCE ++ outro)) with (FENCE ++ outro).
  apply startswith_app.
Qed.

Lemma no_fence_inside (b1 b2 : str) :
  body = b1 ++ b2 -> b2 <> [] -> startswith (lstrip (b2 ++ closing)) FENCE = false.
Proof.
  intros Hbody Hne.
  destruct (suffix_last b1 b2 Hne) as [x [c [Hb2 Hall]]].
  assert (Hc : isspace c = false).
  { apply (rstrip_last (b1 ++ x) c). rewrite <- Hall, <- Hbody.
    exact (strip_fixed_rstrip body body_stripped). }
  destruct (dropwhile_split isspace b2) as [a [Ha _]].
  destruct (dropwhile isspace b2) as [| d t] eqn:E.
  { exfalso. rewrite Hb2 in E. exact (dropwhile_keeps isspace x [] c Hc E). }
  unfold lstrip. rewrite (dropwhile_cons_app isspace b2 closing t d E).
  destruct (startswith (d :: t ++ closing) FENCE) eqn:Hsw; [exfalso | reflexivity].
  assert (Hbody' : body = (b1 ++ a) ++ d :: t).
  { rewrite Hbody, Ha, app_assoc. reflexivity. }
  apply (startswith_cons_inv d "`"%char) in Hsw. destruct Hsw as [-> Hsw].
  assert (Hend : forall u, body <> u ++ ["`"%char]).
  { intros u Hu. pose proof body_end as H. rewrite Hu in H.
    change (py "`") with ["`"%char] in H. rewrite endswith_last in H. discriminate. }
  destruct t as [| e [| f t]].
  - exact (Hend (b1 ++ a) Hbody').
  - apply (startswith_cons_inv e "`"%char) in Hsw. destruct Hsw as [-> _].
    apply (Hend ((b1 ++ a) ++ ["`"%char])). rewrite Hbody'.
    rewrite <- (app_assoc (b1 ++ a) ["`"%char] ["`"%char]). reflexivity.
  - apply (startswith_cons_inv e "`"%char) in Hsw. destruct Hsw as [-> Hsw].
    apply (startswith_cons_inv f "`"%char) in Hsw. destruct Hsw as [-> _].
    assert (Hin : is_in FENCE body = true).
    { apply is_in_iff. exists (b1 ++ a), t. exact Hbody'. }
    rewrite Hin in body_no_fence. discriminate.
Qed.

End FencedAnswer.

Lemma fenced_body (body ws2 outro : str) :
  forallb isspace ws2 = true -> strip body = body ->
  is_in FENCE body = false -> endswith body (py "`") = false ->
  until_fence (lstrip (body ++ ws2 ++ FENCE ++ outro)) = Some body.
Proof.
  intros Hws2 Hstrip Hfence Hend.
  pose proof (no_fence_inside body ws2 outro Hstrip Hfence Hend) as Hinside.
  pose proof (closing_fence ws2 outro Hws2) as Hclose.
  destruct body as [| c t].
  - change ([] ++ ws2 ++ FENCE ++ outro) with (ws2 ++ FENCE ++ outro).
    destruct (lstrip (ws2 ++ FENCE ++ outro)) as [| c t] eqn:E; [discriminate Hclose |].
    change (until_fence (c :: t))
      with (if startswith (lstrip (c :: t)) FENCE then Some []
            else option_map (cons c) (until_fence t)).
    rewrite <- E. unfold lstrip. rewrite dropwhile_idem. fold (lstrip (ws2 ++ FENCE ++ outro)).
    rewrite E, Hclose. reflexivity.
  - assert (Hc : isspace c = false).
    { destruct (isspace c) eqn:E; [| reflexivity].
      pose proof Hstrip as H.
      apply (f_equal (@length ascii)) in H.
      unfold strip, lstrip in H.
      change (dropwhile isspace (c :: t))
        with (if isspace c then dropwhile isspace t else c :: t) in H.
      rewrite E in H.
      destruct (rstrip_split (dropwhile isspace t)) as [y Hy].
      destruct (dropwhile_split isspace t) as [a [Ha _]].
      apply (f_equal (@length ascii)) in Hy, Ha.
      rewrite length_app in Hy, Ha. simpl length in H. lia. }
    unfold lstrip. change ((c :: t) ++ ws2 ++ FENCE ++ outro)
      with (c :: t ++ ws2 ++ FENCE ++ outro).
    rewrite dropwhile_stop by assumption.
    change (c :: t ++ ws2 ++ FENCE ++ outro) with ((c :: t) ++ ws2 ++ FENCE ++ outro).
    apply until_fence_body; [exact Hinside | exact Hclose].
Qed.

(** X15: an answer wrapped in a [```markdown] fence is unwrapped: the
    result is the body between the fences, the white space around it
    removed, whatever follows the closing fence. *)
Theorem clean_json_format_unwraps_fence (W : world) (ws1 body ws2 outro : str) :
  forallb isspace ws1 = true -> forallb isspace ws2 = true ->
  strip body = body ->
  is_in FENCE body = false -> endswith body (py "`") = false ->
  is_in (py "ChatCompletionMessage(content=")
        (py "```markdown" ++ ws1 ++ body ++ ws2 ++ FENCE ++ outro) = false ->
  _clean_json_format W (py "```markdown" ++ ws1 ++ body ++ ws2 ++ FENCE ++ outro) = body.
Proof.
  intros Hws1 Hws2 Hstrip Hfence Hend Hcompletion. unfold _clean_json_format.
  rewrite json_content_not_object.
  - rewrite (completion_pattern_absent _ Hcompletion).
    assert (Hblock : markdown_block (py "```markdown" ++ ws1 ++ body ++ ws2 ++ FENCE ++ outro)
                     = Some body).
    { unfold markdown_block. rewrite eat_app, (lstrip_space_app ws1 _ Hws1).
      exact (fenced_body body ws2 outro Hws2 Hstrip Hfence Hend). }
    rewrite (re_search_here _ markdown_block _ body Hblock). reflexivity.
  - change (py "```markdown" ++ ws1 ++ body ++ ws2 ++ FENCE ++ outro)
      with ("`"%char :: (py "``markdown" ++ ws1 ++ body ++ ws2 ++ FENCE ++ outro)).
    destruct (strip_head "`"%char (py "``markdown" ++ ws1 ++ body ++ ws2 ++ FENCE ++ outro)
                eq_refl) as [z ->].
    reflexivity.
Qed.

Lemma clean_json_format_unwraps_fence_witness :
  _clean_json_format capital_world
    (py "```markdown" ++ NL ++ py "# Tides" ++ NL ++ FENCE ++ py " Done.")
  = py "# Tides".
Proof.
  apply (clean_json_format_unwraps_fence capital_world NL (py "# Tides") NL (py " Done."));
    reflexivity.
Defined.

(** ** The calls of a run *)

Section Calls.

Variable W : world.

Lemma invoke_run (p f : string) (args : list (string * str)) (st : state) :
  invoke W p f args st
  = (Ok (kernel_invoke W (trace st) p f args),
     {| heap := heap st; trace := trace st ++ [KernelInvoke p f args] |}).
Proof. reflexivity. Qed.

Lemma critique_document_run (o : research_output) (st : state) :
  exists c,
    critique_document W (r_task o) (r_content o) st
    = (Ok c, {| heap := heap st;
                trace := trace st ++ (if usable o then [critique_call o] else []) |})
    /\ (usable o = false -> c = skip_placeholder (r_task o) (r_content o)).
Proof.
  unfold critique_document, usable.
  destruct (is_empty (r_content o) || startswith (r_content o) (py "Error:")).
  - exists (skip_placeholder (r_task o) (r_content o)). split; [| reflexivity].
    unfold ret. simpl. rewrite app_nil_r. destruct st; reflexivity.
  - unfold bind. rewrite invoke_run. fold (critique_call o). simpl negb. cbv iota.
    destruct (kernel_invoke W (trace st) "CritiqueAgent" "CritiqueDocument"
                [("research_task_description"%string, r_task o);
                 ("research_document_text"%string, r_content o)]) as [text | e];
      eexists; (split; [reflexivity | discriminate]).
Qed.

Lemma critique_loop_calls (outs : list research_output)
    (acc : list critiqued_document) (st : state) :
  exists docs st',
    critique_loop W outs acc st = (Ok (acc ++ docs), st')
    /\ trace st' = trace st ++ map critique_call (filter usable outs)
    /\ Forall2 (fun o d => usable o = false ->
                           critique d = skip_placeholder (r_task o) (r_content o))
         outs docs.
Proof.
  revert acc st. induction outs as [| o outs IH]; intros acc st.
  - exists [], st. simpl. rewrite !app_nil_r. repeat split. constructor.
  - destruct (critique_document_run o st) as [c [E Hc]].
    destruct (IH (acc ++ [{| task := r_task o; original := r_content o;
                            critique := c; citations := r_citations o |}])
                {| heap := heap st;
                   trace := trace st ++ (if usable o then [critique_call o] else []) |})
      as (docs & st' & E' & Ht & Hall).
    exists ({| task := r_task o; original := r_content o;
               critique := c; citations := r_citations o |} :: docs), st'.
    split; [| split].
    + simpl critique_loop. unfold bind. rewrite E, E', <- app_assoc. reflexivity.
    + rewrite Ht. simpl trace. simpl filter.
      destruct (usable o); simpl; rewrite <- app_assoc; reflexivity.
    + constructor; [exact Hc | exact Hall].
Qed.

Lemma research_loop_calls (tasks : list str) (insights : str)
    (acc : list research_output) (st : state) :
  exists outs st',
    research_loop W tasks insights acc st = (Ok (acc ++ outs), st')
    /\ map r_task outs = tasks
    /\ trace st' = trace st ++ map (fun t => PerformResearchTask t None insights) tasks.
Proof.
  revert acc st. induction tasks as [| t tasks IH]; intros acc st.
  - exists [], st. simpl. rewrite !app_nil_r. repeat split.
  - simpl research_loop.
    unfold bind at 1. unfold researcher_perform_research_task, bind, history, emit, ret.
    cbv beta iota. simpl trace. simpl heap.
    set (st1 := {| heap := heap st;
                   trace := trace st ++ [PerformResearchTask t None insights] |}).
    destruct (perform_research_task W (trace st) t None insights) as [text cs | content].
    + unfold alloc. cbv beta iota. simpl heap. simpl trace.
      destruct (IH (acc ++ [{| r_task := t; r_content := text;
                              r_citations := length (heap st) |}])
                  {| heap := heap st ++ [cs];
                     trace := trace st ++ [PerformResearchTask t None insights] |})
        as (outs & st' & E & Ht & Htr).
      exists ({| r_task := t; r_content := text; r_citations := length (heap st) |} :: outs),
        st'.
      rewrite E, <- app_assoc. simpl. rewrite Ht, Htr. simpl trace.
      rewrite <- app_assoc. repeat split.
    + unfold alloc. cbv beta iota. simpl heap. simpl trace.
      destruct (IH (acc ++ [{| r_task := t; r_content := content;
                              r_citations := length (heap st) |}])
                  {| heap := heap st ++ [[]];
                     trace := trace st ++ [PerformResearchTask t None insights] |})
        as (outs & st' & E & Ht & Htr).
      exists ({| r_task := t; r_content := content; r_citations := length (heap st) |}
                :: outs), st'.
      rewrite E, <- app_assoc. simpl. rewrite Ht, Htr. simpl trace.
      rewrite <- app_assoc. repeat split.
Qed.

Lemma research_phase_run (q plan insights : str) (st : state) :
  exists outs st',
    _handle_research_phase W q plan insights st = (Ok outs, st')
    /\ map r_task outs = extract_research_tasks_from_plan plan
    /\ trace st' = trace st
                     ++ map (fun t => PerformResearchTask t None insights)
                          (extract_research_tasks_from_plan plan).
Proof.
  unfold _handle_research_phase.
  destruct (extract_research_tasks_from_plan plan) as [| t tasks] eqn:E.
  - exists [], st. simpl. rewrite app_nil_r. repeat split.
  - destruct (research_loop_calls (t :: tasks) insights [] st) as (outs & st' & H).
    exists outs, st'. exact H.
Qed.

End Calls.

(** X16: the critique phase never raises; it asks the critique capability
    about the outputs whose content is neither empty nor an error message,
    once each and in order, and gives every other output the skip
    placeholder. *)
Theorem critique_phase_calls (W : world) (outs : list research_output) (st : state) :
  exists docs st',
    _handle_critique_phase W outs st = (Ok docs, st')
    /\ trace st' = trace st ++ map critique_call (filter usable outs)
    /\ Forall2 (fun o d => usable o = false ->
                           critique d = skip_placeholder (r_task o) (r_content o))
         outs docs.
Proof.
  destruct (critique_loop_calls W outs [] st) as (docs & st' & E & H).
  exists docs, st'. split; [exact E | exact H].
Qed.

(** X17: the research phase never raises; it calls the research capability
    once for every task extracted from the plan, in the order of the plan,
    without a web query of its own and with the guidance it was given, and
    returns one output per task. *)
Theorem research_phase_calls (W : world) (q plan insights : str) (st : state) :
  exists outs st',
    _handle_research_phase W q plan insights st = (Ok outs, st')
    /\ map r_task outs = extract_research_tasks_from_plan plan
    /\ trace st' = trace st
                     ++ map (fun t => PerformResearchTask t None insights)
                          (extract_research_tasks_from_plan plan).
Proof. exact (research_phase_run W q plan insights st). Qed.

(** *** What a run returns *)

Section Outcome.

Variable W : world.

Lemma save_report_run (report q : str) (st st' : state) (paths : str * str) :
  save_report W report q st = (Ok paths, st') ->
  trace st' = trace st ++ [SaveReportToFile report q]
  /\ save_report_to_file W (trace st) report q = Some paths.
Proof.
  unfold save_report, bind, history, emit, ret, raise. cbv beta iota. simpl trace.
  destruct (save_report_to_file W (trace st) report q) as [p |]; intros H.
  - injection H as <- <-. split; reflexivity.
  - discriminate H.
Qed.

Lemma handle_error_outcome (q msg : str) (st st' : state) (r : pipeline_result) :
  _handle_error W q msg st = (Ok r, st') ->
  saved W q r st' /\ error r = Some msg
  /\ exists st1 st2, format_report_as_markdown W q msg st1 = (Ok (final_report r), st2).
Proof.
  unfold _handle_error. intros H.
  apply bind_Ok in H. destruct H as (report & st1 & E1 & H).
  apply bind_Ok in H. destruct H as (paths & st2 & E2 & H).
  unfold ret in H. injection H as <- <-.
  destruct (save_report_run _ _ _ _ _ E2) as [Ht Hs].
  split; [| split].
  - split; [reflexivity |]. exists (trace st1). split; [exact Ht | exact Hs].
  - reflexivity.
  - exists st, st1. exact E1.
Qed.

(** The ways in which a run can return. *)
Lemma pipeline_outcome (q : str) (st st' : state) (r : pipeline_result) :
  execute_research_pipeline W q st = (Ok r, st') ->
  saved W q r st'
  /\ (error r = None
      \/ exists msg,
           error r = Some msg
           /\ (startswith msg (py "Error:") = true \/ msg = NO_TASKS_ERROR)
           /\ exists st1 st2,
                format_report_as_markdown W q msg st1 = (Ok (final_report r), st2)).
Proof.
  unfold execute_research_pipeline, pipeline_with. intros H.
  apply bind_Ok in H. destruct H as ([cq ci] & st1 & _ & H).
  apply bind_Ok in H. destruct H as (plan & st2 & _ & H).
  destruct plan as [plan | plan ins]; [| discriminate H].
  destruct (startswith plan (py "Error:")) eqn:Eplan.
  { destruct (handle_error_outcome _ _ _ _ _ H) as (Hs & He & Hf).
    split; [exact Hs |]. right. exists plan. split; [exact He |].
    split; [left; exact Eplan | exact Hf]. }
  apply bind_Ok in H. destruct H as (outs & st3 & _ & H).
  destruct outs as [| o outs].
  { destruct (handle_error_outcome _ _ _ _ _ H) as (Hs & He & Hf).
    split; [exact Hs |]. right. exists NO_TASKS_ERROR. split; [exact He |].
    split; [right; reflexivity | exact Hf]. }
  apply bind_Ok in H. destruct H as (docs & st4 & Ec & H).
  destruct docs as [| d docs].
  { exfalso. exact (critique_phase_not_empty W o outs st3 st4 [] Ec eq_refl). }
  apply bind_Ok in H. destruct H as (report & st5 & _ & H).
  destruct (startswith report (py "Error:")) eqn:Ereport.
  { destruct (handle_error_outcome _ _ _ _ _ H) as (Hs & He & Hf).
    split; [exact Hs |]. right. exists report. split; [exact He |].
    split; [left; exact Ereport | exact Hf]. }
  apply bind_Ok in H. destruct H as (final & st6 & _ & H).
  apply bind_Ok in H. destruct H as (paths & st7 & Es & H).
  unfold ret in H. injection H as <- <-.
  destruct (save_report_run _ _ _ _ _ Es) as [Ht Hs].
  split; [| left; reflexivity].
  split; [reflexivity |]. exists (trace st6). split; [exact Ht | exact Hs].
Qed.

End Outcome.

(** X18: whatever a run returns has been written to file.  When
    [execute_research_pipeline] returns a result, also one that reports an
    error, the last call of the run is the call that saved the final report
    of the result, and the paths of the result are those that this call
    returned. *)
Theorem returned_report_was_saved (W : world) (q : str) (st st' : state)
    (r : pipeline_result) :
  execute_research_pipeline W q st = (Ok r, st') -> saved W q r st'.
Proof. intros H. exact (proj1 (pipeline_outcome W q st st' r H)). Qed.

Lemma returned_report_was_saved_witness :
  saved capital_world (py "capital of France")
    (run_result capital_world (py "capital of France"))
    (snd (execute_research_pipeline capital_world (py "capital of France") initial_state)).
Proof.
  apply (returned_report_was_saved capital_world (py "capital of France") initial_state).
  vm_compute. reflexivity.
Defined.

(** X19: a run reports three kinds of errors only: a plan that starts with
    [Error:], a plan without research task, and a synthesis that starts with
    [Error:]; the error for an empty list of critiques is never reported.
    The final report of such a run is the writer's rendering of the
    message. *)
Theorem pipeline_error_kinds (W : world) (q msg : str) (st st' : state)
    (r : pipeline_result) :
  execute_research_pipeline W q st = (Ok r, st') ->
  error r = Some msg ->
  (startswith msg (py "Error:") = true \/ msg = NO_TASKS_ERROR)
  /\ msg <> NO_CRITIQUES_ERROR
  /\ exists st1 st2, format_report_as_markdown W q msg st1 = (Ok (final_report r), st2).
Proof.
  intros H He.
  destruct (proj2 (pipeline_outcome W q st st' r H)) as [Hn | (msg' & He' & Hk & Hf)].
  - rewrite Hn in He. discriminate.
  - rewrite He in He'. injection He' as <-.
    split; [exact Hk |]. split; [| exact Hf].
    destruct Hk as [Hk | ->]; [| discriminate].
    intros ->. discriminate Hk.
Qed.

Lemma pipeline_error_kinds_witness :
  (startswith (py "Error: Could not generate plan.") (py "Error:") = true
   \/ py "Error: Could not generate plan." = NO_TASKS_ERROR)
  /\ py "Error: Could not generate plan." <> NO_CRITIQUES_ERROR
  /\ exists st1 st2,
       format_report_as_markdown failed_plan_world (py "tides")
         (py "Error: Could not generate plan.") st1
       = (Ok (final_report (run_result failed_plan_world (py "tides"))), st2).
Proof.
  apply (pipeline_error_kinds failed_plan_world (py "tides")
           (py "Error: Could not generate plan.") initial_state
           (snd (execute_research_pipeline failed_plan_world (py "tides") initial_state))
           (run_result failed_plan_world (py "tides"))).
  - vm_compute. reflexivity.
  - vm_compute. reflexivity.
Defined.

(** ** The terms of a guidance hint *)

Lemma split_ws_go_tokens (s cur : str) :
  no_space cur = true ->
  Forall (fun t => no_space t = true) (split_ws_go s cur).
Proof.
  revert cur. induction s as [| c s IH]; intros cur Hcur; simpl.
  - destruct cur; constructor; [| constructor].
    apply forallb_rev. exact Hcur.
  - destruct (isspace c) eqn:E.
    + destruct cur; [apply IH; reflexivity |].
      constructor; [apply forallb_rev; exact Hcur | apply IH; reflexivity].
    + apply IH. unfold no_space. simpl. rewrite E. exact Hcur.
Qed.

Lemma dropwhile_none (f : ascii -> bool) (s : str) :
  forallb (fun c => negb (f c)) s = true -> dropwhile f s = s.
Proof.
  destruct s as [| c t]; [reflexivity |]. simpl. intros H.
  apply andb_prop in H. destruct H as [H _]. apply negb_true_iff in H.
  rewrite H. reflexivity.
Qed.

Lemma strip_no_space (t : str) : no_space t = true -> strip t = t.
Proof.
  intros H. unfold strip, lstrip, rstrip.
  rewrite (dropwhile_none isspace t H).
  rewrite (dropwhile_none isspace (rev t) (forallb_rev _ _ _ H)).
  apply rev_involutive.
Qed.

Lemma existsb_In (x : str) (l : list str) : existsb (str_eqb x) l = true <-> In x l.
Proof.
  rewrite existsb_exists. split.
  - intros [y [Hy E]]. apply str_eqb_eq in E. subst y. exact Hy.
  - intros H. exists x. split; [exact H | apply str_eqb_refl].
Qed.

Lemma existsb_not_In (x : str) (l : list str) : existsb (str_eqb x) l = false <-> ~ In x l.
Proof.
  rewrite <- existsb_In. destruct (existsb (str_eqb x) l); split; congruence.
Qed.

(** X20: every term that a guidance hint lists is a whole word of the
    question: it holds no white space, is longer than three characters and
    is, in lower case, none of the thirteen filler words. *)
Theorem key_terms_are_content_words (q : str) :
  Forall (fun t => no_space t = true /\ 3 < length t /\ ~ In (lower t) filler_words)
         (key_terms q).
Proof.
  unfold key_terms.
  match goal with
  | |- Forall _ (map strip (filter ?f ?l)) => set (keep := f); set (terms := filter keep l)
  end.
  assert (Htok : Forall (fun t => no_space t = true) terms).
  { apply filter_Forall. apply split_ws_go_tokens. reflexivity. }
  assert (Hkeep : Forall (fun t => keep t = true) terms) by apply filter_true.
  clearbody terms.
  induction terms as [| t l IH]; [constructor |].
  inversion Htok as [| ? ? Ht Hl]; subst. inversion Hkeep as [| ? ? Kt Kl]; subst.
  simpl map. constructor; [| exact (IH Hl Kl)].
  rewrite (strip_no_space t Ht). split; [exact Ht |].
  unfold keep in Kt. apply andb_prop in Kt. destruct Kt as [K1 K2].
  split; [apply Nat.ltb_lt; exact K1 |].
  apply existsb_not_In. apply negb_true_iff. exact K2.
Qed.

(** ** Citations from annotations *)

Lemma strip_utm_source_clean (u : str) : is_in UTM_SOURCE (strip_utm_source u) = false.
Proof.
  unfold strip_utm_source. fold UTM_SOURCE.
  destruct (is_in UTM_SOURCE u) eqn:E; [| exact E].
  apply item0_split_clean; [discriminate | exact E].
Qed.

Lemma strip_utm_source_fixed (u : str) :
  is_in UTM_SOURCE u = false -> strip_utm_source u = u.
Proof. intros H. unfold strip_utm_source. fold UTM_SOURCE. rewrite H. reflexivity. Qed.

(** The loop of the agent keeps clean citations with distinct URLs, the
    URLs seen being those of the citations. *)
Lemma convert_annotations_invariant (annotations citations : list citation)
    (unique_urls : list str) :
  Forall clean_citation citations ->
  NoDup (map url citations) ->
  (forall u, In u unique_urls <-> In (Some u) (map url citations)) ->
  Forall clean_citation (convert_annotations annotations citations unique_urls)
  /\ NoDup (map url (convert_annotations annotations citations unique_urls)).
Proof.
  revert citations unique_urls.
  induction annotations as [| a annotations IH]; intros citations unique_urls Hc Hn Hu;
    [split; assumption |].
  simpl convert_annotations.
  set (clean := strip_utm_source (get_or [] (url a))).
  destruct (negb (is_empty clean) && negb (existsb (str_eqb clean) unique_urls)) eqn:E;
    [| exact (IH citations unique_urls Hc Hn Hu)].
  apply andb_prop in E. destruct E as [E1 E2].
  apply negb_true_iff in E1, E2. apply is_empty_false in E1.
  apply existsb_not_In in E2.
  apply IH.
  - apply Forall_app. split; [exact Hc |]. repeat constructor.
    exists (get_or (py "Source") (title a)), clean.
    split; [reflexivity |]. split; [exact E1 | apply strip_utm_source_clean].
  - rewrite map_app. apply NoDup_snoc; [exact Hn |].
    intros H. apply E2. apply Hu. exact H.
  - intros u. rewrite map_app, in_app_iff. simpl. rewrite <- Hu. split.
    + intros [<- | H]; [right; left; reflexivity | left; exact H].
    + intros [H | [[= <-] | []]]; [right; exact H | left; reflexivity].
Qed.

(** X21: the citations that the research agent makes of the annotations of
    a search have pairwise distinct URLs; each has a title and a URL that is
    not empty and holds no [?utm_source=]. *)
Theorem converted_citations_are_clean (annotations : list citation) :
  Forall clean_citation (_convert_annotations_to_citations annotations)
  /\ NoDup (map url (_convert_annotations_to_citations annotations)).
Proof.
  apply convert_annotations_invariant; [constructor | constructor |].
  intros u. split; intros [].
Qed.

(** Clean citations with distinct URLs, none seen so far, are all kept. *)
Lemma convert_annotations_keeps (cs citations : list citation) (unique_urls : list str) :
  Forall clean_citation cs ->
  NoDup (map url cs) ->
  (forall u, In u unique_urls -> ~ In (Some u) (map url cs)) ->
  convert_annotations cs citations unique_urls = citations ++ cs.
Proof.
  revert citations unique_urls.
  induction cs as [| c cs IH]; intros citations unique_urls Hc Hn Hu;
    [rewrite app_nil_r; reflexivity |].
  inversion Hc as [| ? ? [t [u [-> [Hu1 Hu2]]]] Hcs]; subst.
  simpl in Hn. inversion Hn as [| ? ? Hnew Hn']; subst.
  simpl convert_annotations. simpl get_or.
  rewrite (strip_utm_source_fixed u Hu2).
  assert (E1 : is_empty u = false) by (apply is_empty_false; exact Hu1).
  assert (E2 : existsb (str_eqb u) unique_urls = false).
  { apply existsb_not_In. intros H. apply (Hu u H). left. reflexivity. }
  rewrite E1, E2. simpl negb. simpl andb. cbv iota.
  rewrite (IH _ _ Hcs Hn').
  - rewrite <- app_assoc. reflexivity.
  - intros v [<- | Hv]; [exact Hnew |].
    intros H. apply (Hu v Hv). right. exact H.
Qed.

(** X22: converting is idempotent: the citations made of a list of
    annotations, read again as annotations, are converted to themselves. *)
Theorem convert_annotations_idempotent (annotations : list citation) :
  _convert_annotations_to_citations (_convert_annotations_to_citations annotations)
  = _convert_annotations_to_citations annotations.
Proof.
  destruct (convert_annotations_invariant annotations [] [] (Forall_nil _) (NoDup_nil _))
    as [Hc Hn]; [intros u; split; intros [] |].
  fold (_convert_annotations_to_citations annotations) in Hc, Hn.
  unfold _convert_annotations_to_citations at 1.
  rewrite (convert_annotations_keeps _ [] [] Hc Hn); [reflexivity |].
  intros u [].
Qed.

Lemma existsb_rev (A : Type) (f : A -> bool) (l : list A) :
  existsb f (rev l) = existsb f l.
Proof.
  destruct (existsb f l) eqn:E.
  - apply existsb_exists in E. destruct E as [x [Hx Hf]].
    apply existsb_exists. exists x. split; [apply in_rev in Hx; exact Hx | exact Hf].
  - destruct (existsb f (rev l)) eqn:E'; [| reflexivity].
    apply existsb_exists in E'. destruct E' as [x [Hx Hf]].
    assert (H : existsb f l = true).
    { apply existsb_exists. exists x. split; [apply in_rev; exact Hx | exact Hf]. }
    congruence.
Qed.

Lemma has_key_seen (k : str) (d : list (str * citation)) (seen : list str) :
  map fst d = rev seen -> has_key k d = existsb (str_eqb k) seen.
Proof.
  intros H. rewrite <- existsb_rev, <- H. unfold has_key. clear H.
  induction d as [| kv d IH]; [reflexivity |]. simpl. rewrite IH. reflexivity.
Qed.

(** The loop of the plugin and the loop of the agent run in step. *)
Lemma format_convert_in_step (same : citation -> citation -> Prop)
    (annotations : list citation) :
  (forall a u, In a annotations ->
     same {| title := Some (get_or (py "Untitled Source") (title a)); url := Some u |}
          {| title := Some (get_or (py "Source") (title a)); url := Some u |}) ->
  forall (d : list (str * citation)) (citations : list citation) (seen : list str),
  map fst d = rev seen ->
  Forall2 same (map snd d) citations ->
  Forall2 same (map snd (format_citations annotations d))
          (convert_annotations annotations citations seen).
Proof.
  induction annotations as [| a annotations IH]; intros Hsame d citations seen Hd Hc;
    [exact Hc |].
  simpl format_citations. simpl convert_annotations.
  rewrite (has_key_seen _ d seen Hd).
  set (clean := strip_utm_source (get_or [] (url a))).
  assert (Hrest : forall a' u, In a' annotations ->
            same {| title := Some (get_or (py "Untitled Source") (title a')); url := Some u |}
                 {| title := Some (get_or (py "Source") (title a')); url := Some u |}).
  { intros a' u H. apply Hsame. right. exact H. }
  destruct (negb (is_empty clean) && negb (existsb (str_eqb clean) seen));
    [| exact (IH Hrest d citations seen Hd Hc)].
  apply (IH Hrest).
  - rewrite map_app, Hd. reflexivity.
  - rewrite map_app. apply Forall2_app; [exact Hc |].
    constructor; [| constructor]. apply Hsame. left. reflexivity.
Qed.

Lemma Forall2_map_eq (A B : Type) (f : A -> B) (l l' : list A) :
  Forall2 (fun x y => f x = f y) l l' -> map f l = map f l'.
Proof. induction 1 as [| x y l l' E _ IH]; simpl; [reflexivity | rewrite E, IH; reflexivity]. Qed.

Lemma Forall2_eq (A : Type) (l l' : list A) : Forall2 eq l l' -> l = l'.
Proof. induction 1 as [| x y l l' E _ IH]; [reflexivity | rewrite E, IH; reflexivity]. Qed.

(** X23: the search plugin and the research agent make the same citations
    of the same annotations, up to the title given to an annotation that has
    none: the URLs agree, in order; the lists are equal when every
    annotation has a title; and the agent finds no citation where the plugin
    found none. *)
Theorem plugin_and_agent_agree (annotations : list citation) :
  map url (_format_citations_for_report annotations)
    = map url (_convert_annotations_to_citations annotations)
  /\ (Forall (fun a => title a <> None) annotations ->
      _format_citations_for_report annotations
        = _convert_annotations_to_citations annotations)
  /\ (_format_citations_for_report annotations = [] ->
      _convert_annotations_to_citations annotations = []).
Proof.
  assert (Hurl : map url (_format_citations_for_report annotations)
                 = map url (_convert_annotations_to_citations annotations)).
  { apply Forall2_map_eq.
    apply (format_convert_in_step (fun x y => url x = url y) annotations);
      [reflexivity | reflexivity | constructor]. }
  split; [exact Hurl |]. split.
  - intros Htitled. apply Forall2_eq.
    apply (format_convert_in_step eq annotations); [| reflexivity | constructor].
    intros a u Ha. pose proof (proj1 (Forall_forall _ annotations) Htitled a Ha) as Ht.
    destruct (title a) eqn:E; [reflexivity | congruence].
  - intros H. rewrite H in Hurl. symmetry in Hurl.
    exact (map_eq_nil _ _ Hurl).
Qed.

(** ** File names *)

Lemma lower_char_idem (c : ascii) : lower_char (lower_char c) = lower_char c.
Proof. destruct c as [[] [] [] [] [] [] [] []]; reflexivity. Qed.

Lemma word_not_separator (c : ascii) : is_word c = true -> is_separator c = false.
Proof. destruct c as [[] [] [] [] [] [] [] []]; (reflexivity || discriminate). Qed.

Lemma collapse_separators_word (s : str) :
  Forall (fun c => is_word c = true \/ is_separator c = true) s ->
  Forall (fun c => is_word c = true) (collapse_separators s).
Proof.
  induction 1 as [| c s Hc _ IH]; [constructor |].
  simpl. destruct (is_separator c) eqn:E.
  - destruct s as [| d s]; [repeat constructor |].
    destruct (is_separator d); [exact IH | constructor; [reflexivity | exact IH]].
  - destruct Hc as [Hc | Hc]; [| congruence]. constructor; assumption.
Qed.

Lemma collapse_separators_lower (s : str) :
  Forall (fun c => lower_char c = c) s ->
  Forall (fun c => lower_char c = c) (collapse_separators s).
Proof.
  induction 1 as [| c s Hc _ IH]; [constructor |].
  simpl. destruct (is_separator c).
  - destruct s as [| d s]; [repeat constructor |].
    destruct (is_separator d); [exact IH | constructor; [reflexivity | exact IH]].
  - constructor; assumption.
Qed.

Lemma collapse_separators_fixed (s : str) :
  Forall (fun c => is_word c = true) s -> collapse_separators s = s.
Proof.
  induction 1 as [| c s Hc _ IH]; [reflexivity |].
  simpl. rewrite (word_not_separator c Hc), IH. reflexivity.
Qed.

Lemma replace_problematic_fixed (s : str) :
  Forall (fun c => is_word c = true) s -> replace_problematic s = s.
Proof.
  induction 1 as [| c s Hc _ IH]; [reflexivity |].
  unfold replace_problematic in *. simpl. rewrite Hc, IH. reflexivity.
Qed.

Lemma lower_fixed (s : str) : Forall (fun c => lower_char c = c) s -> lower s = s.
Proof.
  induction 1 as [| c s Hc _ IH]; [reflexivity |].
  unfold lower in *. simpl. rewrite Hc, IH. reflexivity.
Qed.

Lemma dropwhile_Forall (P : ascii -> Prop) (f : ascii -> bool) (s : str) :
  Forall P s -> Forall P (dropwhile f s).
Proof.
  induction 1 as [| c s Hc Hs IH]; simpl; [constructor |].
  destruct (f c); [exact IH | constructor; assumption].
Qed.

Lemma Forall_rev' (P : ascii -> Prop) (s : str) : Forall P s -> Forall P (rev s).
Proof.
  intros H. apply Forall_forall. intros x Hx.
  exact (proj1 (Forall_forall P s) H x (proj2 (in_rev s x) Hx)).
Qed.

Lemma strip_chars_Forall (P : ascii -> Prop) (s chars : str) :
  Forall P s -> Forall P (strip_chars s chars).
Proof.
  intros H. unfold strip_chars, rstrip_chars, lstrip_chars.
  apply Forall_rev', dropwhile_Forall, Forall_rev', dropwhile_Forall. exact H.
Qed.

Lemma dropwhile_head (f : ascii -> bool) (s : str) :
  dropwhile f s = [] \/ exists c t, dropwhile f s = c :: t /\ f c = false.
Proof.
  induction s as [| c t IH]; simpl; [left; reflexivity |].
  destruct (f c) eqn:E; [exact IH |]. right. exists c, t. split; [reflexivity | exact E].
Qed.

Lemma rev_dropwhile_head (f : ascii -> bool) (c : ascii) (x : str) :
  f c = false -> exists y, rev (dropwhile f (rev (c :: x))) = c :: y.
Proof.
  intros Hc. simpl rev.
  destruct (dropwhile f (rev x)) as [| d r] eqn:E.
  - destruct (dropwhile_split f (rev x)) as [a [Ha Hall]].
    rewrite E, app_nil_r in Ha. rewrite Ha.
    rewrite (dropwhile_app_all f a [c] Hall).
    rewrite dropwhile_stop by assumption. exists []. reflexivity.
  - rewrite (dropwhile_cons_app f (rev x) [c] r d E).
    exists (rev r ++ [d]). simpl. rewrite rev_app_distr. reflexivity.
Qed.

(** Both ends of a text stripped of [chars] are outside [chars]. *)
Lemma strip_chars_ends (s chars : str) :
  lstrip_chars (strip_chars s chars) chars = strip_chars s chars
  /\ rstrip_chars (strip_chars s chars) chars = strip_chars s chars.
Proof.
  unfold strip_chars. split.
  - pose proof (dropwhile_head (char_in chars) s) as Hx.
    fold (lstrip_chars s chars) in Hx.
    destruct Hx as [E | [c [t [E Hc]]]]; rewrite E.
    + reflexivity.
    + unfold rstrip_chars.
      destruct (rev_dropwhile_head (char_in chars) c t Hc) as [y Hy].
      rewrite Hy. unfold lstrip_chars. apply dropwhile_stop. exact Hc.
  - unfold rstrip_chars. rewrite rev_involutive, dropwhile_idem. reflexivity.
Qed.

Lemma strip_chars_idem (s chars : str) :
  strip_chars (strip_chars s chars) chars = strip_chars s chars.
Proof.
  destruct (strip_chars_ends s chars) as [H1 H2].
  unfold strip_chars at 1. rewrite H1. exact H2.
Qed.

Lemma lstrip_chars_start (s : str) (c : ascii) :
  lstrip_chars s [c] = s -> startswith s [c] = false.
Proof.
  unfold lstrip_chars. destruct s as [| d t]; [reflexivity |].
  simpl. unfold char_in. simpl. rewrite orb_false_r.
  rewrite (Ascii.eqb_sym c d). destruct (Ascii.eqb d c); [| reflexivity].
  intros H. apply (f_equal (@length ascii)) in H.
  destruct (dropwhile_split (fun x => Ascii.eqb x c || false) t) as [a [Ha _]].
  apply (f_equal (@length ascii)) in Ha. rewrite length_app in Ha. simpl in H. lia.
Qed.

Lemma rstrip_chars_end (s : str) (c : ascii) :
  rstrip_chars s [c] = s -> endswith s [c] = false.
Proof.
  intros H. unfold endswith. simpl rev.
  apply lstrip_chars_start. unfold lstrip_chars. unfold rstrip_chars in H.
  rewrite <- H at 2. rewrite rev_involutive. reflexivity.
Qed.

Lemma firstn_Forall (P : ascii -> Prop) (n : nat) (s : str) :
  Forall P s -> Forall P (firstn n s).
Proof.
  intros H. revert n. induction H as [| c s Hc _ IH]; intros [| n]; simpl;
    constructor; [exact Hc | apply IH].
Qed.

Lemma safe_name_chars (query : str) (max_length : nat) :
  Forall (fun c => is_word c = true) (create_safe_filename query max_length)
  /\ Forall (fun c => lower_char c = c) (create_safe_filename query max_length).
Proof.
  unfold create_safe_filename.
  set (safe_name := collapse_separators (replace_problematic (lower query))).
  assert (Hw : Forall (fun c => is_word c = true) safe_name).
  { apply collapse_separators_word. unfold replace_problematic.
    apply Forall_forall. intros c Hc. apply in_map_iff in Hc.
    destruct Hc as [x [<- _]].
    destruct (is_word x || is_separator x) eqn:E; [| left; reflexivity].
    apply orb_prop in E. exact E. }
  assert (Hl : Forall (fun c => lower_char c = c) safe_name).
  { apply collapse_separators_lower. unfold replace_problematic, lower.
    apply Forall_forall. intros c Hc. apply in_map_iff in Hc.
    destruct Hc as [x [<- Hx]]. apply in_map_iff in Hx. destruct Hx as [y [<- _]].
    destruct (is_word (lower_char y) || is_separator (lower_char y));
      [apply lower_char_idem | reflexivity]. }
  split; apply strip_chars_Forall;
    (destruct (max_length <? length safe_name); [apply firstn_Forall |]); assumption.
Qed.

Lemma safe_name_length (query : str) (max_length : nat) :
  length (create_safe_filename query max_length) <= max_length.
Proof.
  unfold create_safe_filename.
  set (safe_name := collapse_separators (replace_problematic (lower query))).
  assert (Hcut : length (if max_length <? length safe_name
                         then firstn max_length safe_name else safe_name) <= max_length).
  { destruct (max_length <? length safe_name) eqn:E.
    - rewrite length_firstn. lia.
    - apply Nat.ltb_ge in E. exact E. }
  revert Hcut.
  generalize (if max_length <? length safe_name
              then firstn max_length safe_name else safe_name).
  intros s Hs. unfold strip_chars, rstrip_chars, lstrip_chars.
  rewrite length_rev.
  destruct (dropwhile_split (char_in [UNDERSCORE])
              (rev (dropwhile (char_in [UNDERSCORE]) s))) as [a [Ha _]].
  destruct (dropwhile_split (char_in [UNDERSCORE]) s) as [b [Hb _]].
  apply (f_equal (@length ascii)) in Ha, Hb.
  rewrite length_app in Ha, Hb. rewrite length_rev in Ha. lia.
Qed.

(** X24: a file name made of a query is safe: it is no longer than the
    bound, every character of it is a lower-case letter, a digit or an
    underscore (so it holds no white space, hyphen, dot or path separator),
    and it neither starts nor ends with an underscore. *)
Theorem safe_filename_is_safe (query : str) (max_length : nat) :
  length (create_safe_filename query max_length) <= max_length
  /\ Forall (fun c => is_word c = true /\ lower_char c = c)
       (create_safe_filename query max_length)
  /\ startswith (create_safe_filename query max_length) [UNDERSCORE] = false
  /\ endswith (create_safe_filename query max_length) [UNDERSCORE] = false.
Proof.
  split; [apply safe_name_length |]. split.
  - destruct (safe_name_chars query max_length) as [Hw Hl].
    apply Forall_forall. intros c Hc. split.
    + exact (proj1 (Forall_forall _ _) Hw c Hc).
    + exact (proj1 (Forall_forall _ _) Hl c Hc).
  - unfold create_safe_filename.
    split; [apply lstrip_chars_start | apply rstrip_chars_end]; apply strip_chars_ends.
Qed.

(** X25: making a file name is idempotent: a safe file name is its own safe
    file name, under the same bound. *)
Theorem safe_filename_idempotent (query : str) (max_length : nat) :
  create_safe_filename (create_safe_filename query max_length) max_length
  = create_safe_filename query max_length.
Proof.
  destruct (safe_name_chars query max_length) as [Hw Hl].
  pose proof (safe_name_length query max_length) as Hlen.
  assert (Hends : strip_chars (create_safe_filename query max_length) [UNDERSCORE]
                  = create_safe_filename query max_length).
  { unfold create_safe_filename. cbv zeta. apply strip_chars_idem. }
  revert Hw Hl Hlen Hends. generalize (create_safe_filename query max_length).
  intros name Hw Hl Hlen Hends. unfold create_safe_filename.
  rewrite (lower_fixed name Hl), (replace_problematic_fixed name Hw),
    (collapse_separators_fixed name Hw).
  apply Nat.ltb_ge in Hlen. rewrite Hlen. exact Hends.
Qed.

(** *** The research calls of a run *)

Ltac quiet_step :=
  lazymatch goal with
  | |- preserves _ (bind _ _) => apply preserves_bind; [typeclasses eauto | | intros ?]
  | |- preserves _ (match ?x with _ => _ end) => destruct x
  | |- preserves _ (emit _) => apply emit_emits; reflexivity
  | |- preserves _ (invoke _ _ _ _) => apply invoke_emits; reflexivity
  | |- _ => solve [auto with pipeline typeclass_instances]
  end.

Ltac quiet := repeat quiet_step.

Lemma quiet_researches (st st' : state) : emits no_research st st' -> researches [] st st'.
Proof.
  intros [evs [Ht Hall]]. exists evs. split; [exact Ht |]. clear Ht.
  induction Hall as [| e evs He _ IH]; [reflexivity |].
  simpl. unfold no_research in He. rewrite He. exact IH.
Qed.

Lemma researches_trans (a b : list str) (st st1 st2 : state) :
  researches a st st1 -> researches b st1 st2 -> researches (a ++ b) st st2.
Proof.
  intros [e1 [H1 F1]] [e2 [H2 F2]]. exists (e1 ++ e2). split.
  - rewrite H2, H1, app_assoc. reflexivity.
  - rewrite filter_app, F1, F2, map_app. reflexivity.
Qed.

Lemma run_preserves (R : state -> state -> Prop) (A : Type) (m : M A)
    (st st' : state) (r : result A) :
  preserves R m -> m st = (r, st') -> R st st'.
Proof. intros H E. pose proof (H st) as H'. rewrite E in H'. exact H'. Qed.

Section ResearchCalls.

Variable W : world.

Lemma critique_loop_quiet (outs : list research_output) (acc : list critiqued_document) :
  preserves (emits no_research) (critique_loop W outs acc).
Proof.
  revert acc. induction outs as [| o outs IH]; intros acc; simpl.
  - quiet.
  - apply preserves_bind; [typeclasses eauto | | intros c; apply IH].
    unfold critique_document. quiet.
Qed.

Lemma collect_citations_quiet (docs : list critiqued_document) (l : loc) :
  preserves (emits no_research) (collect_citations docs l).
Proof.
  induction docs as [| d docs IH]; simpl.
  - quiet.
  - apply preserves_bind; [typeclasses eauto | quiet | intros cs].
    apply preserves_bind; [typeclasses eauto | quiet | intros _; exact IH].
Qed.

Lemma format_report_quiet (q report : str) :
  preserves (emits no_research) (format_report_as_markdown W q report).
Proof. unfold format_report_as_markdown. quiet. Qed.

Lemma save_report_quiet (report q : str) :
  preserves (emits no_research) (save_report W report q).
Proof. unfold save_report. quiet. Qed.

Lemma handle_error_quiet (q msg : str) :
  preserves (emits no_research) (_handle_error W q msg).
Proof.
  unfold _handle_error.
  apply preserves_bind; [typeclasses eauto | apply format_report_quiet | intros report].
  apply preserves_bind; [typeclasses eauto | apply save_report_quiet | intros paths].
  quiet.
Qed.

Lemma clarification_phase_quiet (q : str) :
  preserves (emits no_research) (_handle_clarification_phase W q).
Proof.
  unfold _handle_clarification_phase, generate_clarifying_questions,
    ui_get_clarification_responses. quiet.
Qed.

Lemma planning_phase_quiet (q insights : str) :
  preserves (emits no_research) (_handle_planning_phase W q insights).
Proof. unfold _handle_planning_phase, generate_plan, clarify_query. quiet. Qed.

Lemma synthesis_phase_quiet (q : str) (docs : list critiqued_document) :
  preserves (emits no_research) (_handle_synthesis_phase W q docs).
Proof.
  unfold _handle_synthesis_phase.
  apply preserves_bind; [typeclasses eauto | quiet | intros l].
  apply preserves_bind; [typeclasses eauto | apply collect_citations_quiet | intros _].
  destruct (map doc_for_synthesis docs); [quiet |].
  unfold synthesise_research. quiet.
Qed.

(** What follows the research phase calls the research capability no
    more. *)
Lemma after_research_quiet (q cq : str) (outs : list research_output) :
  preserves (emits no_research)
    (match outs with
     | [] => _handle_error W q NO_TASKS_ERROR
     | _ :: _ =>
         critiqued_documents <- _handle_critique_phase W outs ;;
         match critiqued_documents with
         | [] => _handle_error W q NO_CRITIQUES_ERROR
         | _ :: _ =>
             synthesized_report <- _handle_synthesis_phase W cq critiqued_documents ;;
             if startswith synthesized_report (py "Error:")
             then _handle_error W q synthesized_report
             else
               final_report <- _handle_writing_phase W q synthesized_report ;;
               paths <- save_report W (replace final_report BACKSLASH_N NL) q ;;
               ret {| initial_query := q; error := None;
                      final_report := final_report; file_paths := paths |}
         end
     end).
Proof.
  destruct outs as [| o outs]; [apply handle_error_quiet |].
  apply preserves_bind; [typeclasses eauto | apply critique_loop_quiet | intros docs].
  destruct docs as [| d docs]; [apply handle_error_quiet |].
  apply preserves_bind; [typeclasses eauto | apply synthesis_phase_quiet | intros report].
  destruct (startswith report (py "Error:")); [apply handle_error_quiet |].
  apply preserves_bind; [typeclasses eauto | apply format_report_quiet | intros final].
  apply preserves_bind; [typeclasses eauto | apply save_report_quiet | intros paths].
  quiet.
Qed.

(** The plan that the planning phase returns is the planner's. *)
Lemma planning_phase_plan (cq insights plan : str) (st st' : state) :
  _handle_planning_phase W cq insights st = (Ok (PlanStr plan), st') ->
  exists st1, generate_plan W cq st = (Ok plan, st1).
Proof.
  unfold _handle_planning_phase. intros H.
  apply bind_Ok in H. destruct H as (p & st1 & E & H).
  exists st1. rewrite E. f_equal. f_equal.
  destruct (startswith p (py "Error:")); [unfold ret in H; congruence |].
  apply bind_Ok in H. destruct H as (out & st2 & _ & H).
  destruct (is_in (py "CLARIFICATION_NOT_NEEDED") out); [unfold ret in H; congruence |].
  destruct (startswith out (py "QUESTIONS:")); [| unfold ret in H; congruence].
  destruct (negb (is_empty (extract_clarification_insights out)));
    unfold ret in H; congruence.
Qed.

Lemma research_phase_researches (q plan : str) (st st' : state)
    (r : result (list research_output)) :
  _handle_research_phase W q plan [] st = (r, st') ->
  researches (extract_research_tasks_from_plan plan) st st'.
Proof.
  intros H. destruct (research_phase_run W q plan [] st) as (outs & st1 & E & _ & Ht).
  rewrite E in H. injection H as _ <-.
  exists (map (fun t => PerformResearchTask t None []) (extract_research_tasks_from_plan plan)).
  split; [exact Ht |]. clear.
  induction (extract_research_tasks_from_plan plan) as [| t l IH]; [reflexivity |].
  simpl. rewrite IH. reflexivity.
Qed.

End ResearchCalls.

(** X26: in every run that returns, the research capability is called for
    the tasks extracted from the planner's plan, once each and in the order
    of the plan, without a web query and without guidance, and no other
    time; a plan that starts with [Error:] has no task. *)
Theorem run_researches_the_plan (W : world) (q : str) (st st' : state)
    (r : pipeline_result) :
  execute_research_pipeline W q st = (Ok r, st') ->
  exists cq st1 plan st2,
    _handle_clarification_phase W q st = (Ok (cq, []), st1)
    /\ generate_plan W cq st1 = (Ok plan, st2)
    /\ researches (extract_research_tasks_from_plan plan) st st'.
Proof.
  unfold execute_research_pipeline, pipeline_with. intros H.
  apply bind_Ok in H. destruct H as ([cq ci] & st1 & E1 & H).
  pose proof (clarification_insights_empty W q st (cq, ci) st1 E1) as Hci.
  simpl in Hci. subst ci.
  pose proof (quiet_researches _ _
                (run_preserves _ _ _ _ _ _ (clarification_phase_quiet W q) E1)) as Q1.
  apply bind_Ok in H. destruct H as (pv & st2 & E2 & H).
  pose proof (quiet_researches _ _
                (run_preserves _ _ _ _ _ _ (planning_phase_quiet W cq []) E2)) as Q2.
  destruct pv as [plan | plan ins]; [| discriminate H].
  destruct (planning_phase_plan W cq [] plan st1 st2 E2) as [st2' Eplan].
  exists cq, st1, plan, st2'. split; [exact E1 |]. split; [exact Eplan |].
  destruct (startswith plan (py "Error:")) eqn:Eerr.
  - assert (Hnone : extract_research_tasks_from_plan plan = []).
    { unfold extract_research_tasks_from_plan. rewrite Eerr, orb_true_r. reflexivity. }
    rewrite Hnone.
    pose proof (quiet_researches _ _
                  (run_preserves _ _ _ _ _ _ (handle_error_quiet W q plan) H)) as Q3.
    exact (researches_trans [] [] _ _ _ Q1 (researches_trans [] [] _ _ _ Q2 Q3)).
  - apply bind_Ok in H. destruct H as (outs & st3 & E3 & H).
    pose proof (research_phase_researches W cq plan st2 st3 _ E3) as Q3.
    pose proof (quiet_researches _ _
                  (run_preserves _ _ _ _ _ _ (after_research_quiet W q cq outs) H)) as Q4.
    pose proof (researches_trans _ _ _ _ _ Q1
                  (researches_trans _ _ _ _ _ Q2 (researches_trans _ _ _ _ _ Q3 Q4)))
      as Q.
    simpl app in Q. rewrite app_nil_r in Q. exact Q.
Qed.

Lemma run_researches_the_plan_witness :
  exists cq st1 plan st2,
    _handle_clarification_phase capital_world (py "capital of France") initial_state
      = (Ok (cq, []), st1)
    /\ generate_plan capital_world cq st1 = (Ok plan, st2)
    /\ researches (extract_research_tasks_from_plan plan) initial_state
         (snd (execute_research_pipeline capital_world (py "capital of France")
                 initial_state)).
Proof.
  apply (run_researches_the_plan capital_world (py "capital of France") initial_state
           (snd (execute_research_pipeline capital_world (py "capital of France")
                   initial_state))
           (run_result capital_world (py "capital of France"))).
  vm_compute. reflexivity.
Defined.

(** ** Model services *)



Lemma dict_set_absent (d : list (str * str)) (k v : str) :
  dict_lookup d k = None -> dict_set d k v = d ++ [(k, v)].
Proof.
  induction d as [| [k' v'] d IH]; simpl; [reflexivity |].
  destruct (str_eqb k' k); [discriminate |]. intros H. rewrite (IH H). reflexivity.
Qed.


Lemma dict_lookup_None (d : list (str * str)) (k : str) :
  dict_lookup d k = None -> ~ In k (map fst d).
Proof.
  induction d as [| [k' v'] d IH]; simpl; [intros _ [] |].
  destruct (str_eqb k' k) eqn:E; [discriminate |].
  apply str_eqb_neq in E. intros H [H' | H']; [exact (E H') | exact (IH H H')].
Qed.

Section Services.

Variables (agent_model_configs : list (str * str)) (default_model_id : str).

Let model (agent_name : str) : str :=
  model_of agent_model_configs default_model_id agent_name.



(** The services are owned: each was named after the one that registered
    it, the owners being distinct and without underscore. *)
Let owned (owners registered : list (str * str)) : Prop :=
  registered = map (fun pm => (snd pm, service_name (fst pm) (snd pm))) owners
  /\ NoDup (map fst owners)
  /\ NoDup (map snd owners)
  /\ Forall (fun pm => ~ In UNDERSCORE (fst pm)) owners.

Lemma register_agents_owned (agents : list str) (owners registered ids : list (str * str)) :
  owned owners registered ->
  NoDup (map lower agents) ->
  Forall (fun a => ~ In UNDERSCORE (lower a)) agents ->
  Forall (fun a => ~ In (lower a) (map fst owners)) agents ->
  exists owners',
    owned owners'
      (fst (register_agents agents agent_model_configs default_model_id registered ids)).
Proof.
  revert owners registered ids.
  induction agents as [| a agents IH]; intros owners registered ids Ho Hn Hu Hfresh.
  - exists owners. exact Ho.
  - simpl register_agents. fold (model_of agent_model_configs default_model_id a).
    fold (model a).
    simpl in Hn. inversion Hn as [| ? ? Ha Hn']; subst.
    inversion Hu as [| ? ? Hua Hu']; subst.
    inversion Hfresh as [| ? ? Hfa Hf']; subst.
    destruct (dict_lookup registered (model a)) as [sid |] eqn:E.
    + exact (IH owners registered _ Ho Hn' Hu' Hf').
    + apply (IH (owners ++ [(lower a, model a)])); [| exact Hn' | exact Hu' |].
      * destruct Ho as (Hr & H1 & H2 & H3).
        split; [| split; [| split]].
        -- rewrite (dict_set_absent registered _ _ E), Hr, map_app. reflexivity.
        -- rewrite map_app. apply NoDup_snoc; [exact H1 | exact Hfa].
        -- rewrite map_app. apply NoDup_snoc; [exact H2 |].
           intros Hin. apply (dict_lookup_None registered _ E).
           rewrite Hr, map_map. exact Hin.
        -- apply Forall_app. split; [exact H3 |]. repeat constructor. exact Hua.
      * apply Forall_forall. intros b Hb. rewrite map_app, in_app_iff.
        intros [H | [H | []]].
        -- exact (proj1 (Forall_forall _ agents) Hf' b Hb H).
        -- simpl in H. apply Ha. rewrite H. apply in_map. exact Hb.
Qed.

End Services.

Lemma service_name_owner (p p' m m' : str) :
  ~ In UNDERSCORE p -> ~ In UNDERSCORE p' ->
  service_name p m = service_name p' m' -> p = p'.
Proof.
  intros Hp Hp' H. unfold service_name in H.
  change (py "_" ++ ?x) with (UNDERSCORE :: x) in H.
  exact (proj1 (app_first_char UNDERSCORE p _ p' _ Hp Hp' H)).
Qed.

Lemma owned_ids_distinct (owners : list (str * str)) :
  NoDup (map fst owners) ->
  Forall (fun pm => ~ In UNDERSCORE (fst pm)) owners ->
  NoDup (map (fun pm => service_name (fst pm) (snd pm)) owners).
Proof.
  induction owners as [| [p m] owners IH]; intros Hn Hu; [constructor |].
  simpl in Hn. inversion Hn as [| ? ? Hp Hn']; subst.
  inversion Hu as [| ? ? Hup Hu']; subst.
  simpl. constructor; [| exact (IH Hn' Hu')].
  intros H. apply in_map_iff in H. destruct H as [[p' m'] [E Hin]].
  simpl in E. apply Hp.
  assert (Ep : p' = p).
  { apply (service_name_owner p' p m' m); [| exact Hup | exact E].
    exact (proj1 (Forall_forall _ owners) Hu' (p', m') Hin). }
  subst p'. apply in_map_iff. exists (p, m'). split; [reflexivity | exact Hin].
Qed.



(** X28: the services that the set-up adds to the kernel have pairwise
    distinct ids and pairwise distinct models: a model is registered once,
    and no service id is used twice, also for models whose names differ in
    dots, hyphens and underscores only. *)
Theorem service_ids_are_distinct (api_key default_model_id : str)
    (agent_model_configs services ids : list (str * str)) :
  setup_kernel_services api_key default_model_id agent_model_configs
    = Some (services, ids) ->
  NoDup (map fst services) /\ NoDup (map snd services).
Proof.
  unfold setup_kernel_services. destruct (is_empty api_key); [discriminate |].
  cbv zeta. intros H.
  assert (Hreg : fst (register_agents agent_classes agent_model_configs default_model_id
                        (dict_set [] default_model_id
                           (service_name (py "default") default_model_id)) [])
                 = services).
  { apply (f_equal (fun o => match o with Some p => fst p | None => [] end)) in H.
    exact H. }
  clear H.
  destruct (register_agents_owned agent_model_configs default_model_id agent_classes
              [(py "default", default_model_id)]
              (dict_set [] default_model_id (service_name (py "default") default_model_id))
              [])
    as [owners Ho].
  - split; [reflexivity |]. split; [repeat constructor; intros [] |].
    split; [repeat constructor; intros [] |].
    repeat constructor. vm_compute. intros Hin.
    repeat (destruct Hin as [Hin | Hin]; [discriminate |]). exact Hin.
  - vm_compute. repeat constructor; intros Hin;
      repeat (destruct Hin as [Hin | Hin]; [discriminate |]); exact Hin.
  - repeat constructor; vm_compute; intros Hin;
      repeat (destruct Hin as [Hin | Hin]; [discriminate |]); exact Hin.
  - repeat constructor; vm_compute; intros Hin;
      repeat (destruct Hin as [Hin | Hin]; [discriminate |]); exact Hin.
  - rewrite Hreg in Ho. destruct Ho as (Hr & H1 & H2 & H3).
    rewrite Hr, !map_map. simpl. split.
    + exact H2.
    + exact (owned_ids_distinct owners H1 H3).
Qed.

Lemma service_ids_are_distinct_witness :
  NoDup (map fst [(py "m-1", py "default_m_1_service");
                  (py "m.1", py "planneragent_m_1_service")])
  /\ NoDup (map snd [(py "m-1", py "default_m_1_service");
                     (py "m.1", py "planneragent_m_1_service")]).
Proof.
  apply (service_ids_are_distinct (py "key") (py "m-1") [(py "PlannerAgent", py "m.1")]
           [(py "m-1", py "default_m_1_service"); (py "m.1", py "planneragent_m_1_service")]
           [(py "PlannerAgent", py "planneragent_m_1_service");
            (py "ClarifierAgent", py "default_m_1_service");
            (py "ResearchAgent", py "default_m_1_service");
            (py "CritiqueAgent", py "default_m_1_service");
            (py "SynthesiserAgent", py "default_m_1_service");
            (py "WriterAgent", py "default_m_1_service")]).
  vm_compute. reflexivity.
Defined.
